(** * Nordic private credit tracker: the extraction-and-load pipeline

    A shallow embedding of [etl_pipeline.py] and the properties of its
    specification.  The development follows the pipeline:

    - [Orchestrator]      the batch split of [extract_batch_data];
    - [Py]                Python strings and the cells of a dataframe;
    - [Json], [Parser]    the values of a JSON response, the exceptions
                          of the operations on them, and
                          [query_single_organisation]'s outcomes with
                          [parse_organisation_data];
    - [Frame], [Reconcile]  dataframes, the left merge and
                          [merge_with_finansinspektionen_data];
    - [Load]              [safe_value], [bulk_upsert_companies] and the
                          [companies] table;
    - [TokenManager]      [get_access_token] as interleaved atomic steps.

    Strings are read as ASCII.  What the code takes from pandas and from
    the database server but does not fix itself ([pd.to_numeric],
    [pd.to_datetime], the column checks of the server) is a parameter of
    the definitions that use it.  Definitions come first, theorems after
    them. *)

From Stdlib Require Import ZArith String Ascii List Lia.
From Stdlib Require Import DecimalString.
From stdpp Require Import base tactics option list gmap strings fin_maps.

Local Open Scope string_scope.
Local Open Scope list_scope.
Local Open Scope Z_scope.

(* ===================================================================== *)
(** * Part I.  Definitions                                                *)
(* ===================================================================== *)

(** ** The batch orchestrator ([BolagsverketExtractor.extract_batch_data]) *)

Module Orchestrator.

(** [range(0, stop, step)] for a positive [step]: the multiples of [step]
    below [stop], of which there are [ceil(stop / step)]. *)
Definition py_range_step (stop step : nat) : list nat :=
  map (fun k => (k * step)%nat) (seq 0 ((stop + step - 1) / step)%nat).

(** [l[a:b]] for [0 <= a <= b]; the slice is clamped to the list. *)
Definition py_slice {A : Type} (l : list A) (a b : nat) : list A :=
  take (b - a)%nat (drop a l).

(** [batch_size = max(1, total_count // self.max_workers)].  Python's [//]
    is floor division, as [Z.div] is; a zero divisor raises
    [ZeroDivisionError]. *)
Definition batch_size (total_count max_workers : Z) : option Z :=
  if max_workers =? 0 then None
  else Some (Z.max 1 (total_count / max_workers)).

(** [org_batches = [org_numbers[i:i + batch_size]
                    for i in range(0, total_count, batch_size)]]. *)
Definition org_batches {A : Type} (org_numbers : list A) (max_workers : Z)
  : option (list (list A)) :=
  let total_count := length org_numbers in
  match batch_size (Z.of_nat total_count) max_workers with
  | None => None
  | Some bs =>
      let b := Z.to_nat bs in
      Some (map (fun i => py_slice org_numbers i (i + b))
                (py_range_step total_count b))
  end.

End Orchestrator.

(** ** Python strings and dataframe cells *)

Module Py.

(** [str.isspace] on the ASCII range: tab, line feed, vertical tab, form
    feed, carriage return, the four separators 0x1c-0x1f and the space. *)
Definition isspace (c : ascii) : bool :=
  let n := N_of_ascii c in
  (((9 <=? n) && (n <=? 13)) || ((28 <=? n) && (n <=? 32)))%N.

Fixpoint lstrip (s : string) : string :=
  match s with
  | String c r => if isspace c then lstrip r else s
  | EmptyString => EmptyString
  end.

Fixpoint rstrip (s : string) : string :=
  match s with
  | String c r =>
      match rstrip r with
      | EmptyString => if isspace c then EmptyString else String c EmptyString
      | r' => String c r'
      end
  | EmptyString => EmptyString
  end.

(** [s.strip()] *)
Definition strip (s : string) : string := rstrip (lstrip s).

Definition lower_ascii (c : ascii) : ascii :=
  let n := N_of_ascii c in
  if ((65 <=? n) && (n <=? 90))%N then ascii_of_N (n + 32) else c.

(** [s.lower()] (ASCII letters) *)
Fixpoint lower (s : string) : string :=
  match s with
  | String c r => String (lower_ascii c) (lower r)
  | EmptyString => EmptyString
  end.

(** [s.replace(c, '')] for a one-character pattern *)
Fixpoint remove_char (c : ascii) (s : string) : string :=
  match s with
  | String d r => if Ascii.eqb c d then remove_char c r else String d (remove_char c r)
  | EmptyString => EmptyString
  end.

(** [c in s] for a character *)
Fixpoint occurs (c : ascii) (s : string) : bool :=
  match s with
  | String d r => Ascii.eqb c d || occurs c r
  | EmptyString => false
  end.

(** [str(n)] for an integer *)
Definition str_int (z : Z) : string := NilZero.string_of_int (Z.to_int z).

(** A value held in a dataframe cell: [None], the float [nan], a string, a
    boolean or an integer. *)
Inductive cell : Type :=
  | CNone
  | CNaN
  | CStr (s : string)
  | CBool (b : bool)
  | CInt (z : Z).

#[global] Instance cell_eq_dec : EqDecision cell.
Proof. solve_decision. Defined.

(** [str(value)] *)
Definition str (v : cell) : string :=
  match v with
  | CNone => "None"
  | CNaN => "nan"
  | CStr s => s
  | CBool true => "True"
  | CBool false => "False"
  | CInt z => str_int z
  end.

(** [pd.isna(value)] *)
Definition isna (v : cell) : bool :=
  match v with CNone | CNaN => true | _ => false end.

(** [bool(value)] *)
Definition truthy (v : cell) : bool :=
  match v with
  | CNone => false
  | CNaN => true
  | CStr s => negb (String.eqb s "")
  | CBool b => b
  | CInt z => negb (z =? 0)
  end.

End Py.

(** ** Python values read from JSON, and the exceptions of the parser *)

Module Json.
Import Py.

(** What [response.json()] returns: [None], a boolean, a number (integers
    are modelled), a string, a list or a dict.  The fields of a [JObj]
    carry distinct names, as the keys of a dict do. *)
#[warnings="-register-all"]
Inductive json : Type :=
  | JNull
  | JBool (b : bool)
  | JNum (z : Z)
  | JStr (s : string)
  | JArr (items : list json)
  | JObj (fields : list (string * json)).

(** The exceptions that the operations below raise. *)
Inductive exn : Type :=
  | AttributeError (type_name attr : string)
  | KeyError (key_repr : string)
  | TypeError (msg : string)
  | IndexError (msg : string).

(** [str(e)] *)
Definition str_exn (e : exn) : string :=
  match e with
  | AttributeError ty attr =>
      "'" ++ ty ++ "' object has no attribute '" ++ attr ++ "'"
  | KeyError k => k
  | TypeError msg => msg
  | IndexError msg => msg
  end.

(** A computation that returns or raises. *)
Inductive result (A : Type) : Type :=
  | Ok (a : A)
  | Raise (e : exn).
Arguments Ok {A} a.
Arguments Raise {A} e.

Definition bind {A B : Type} (m : result A) (f : A -> result B) : result B :=
  match m with
  | Ok a => f a
  | Raise e => Raise e
  end.

Notation "'let*' x ':=' m 'in' k" := (bind m (fun x => k))
  (at level 10, x name, m at level 100, k at level 200,
   format "'[v' 'let*'  x  :=  m  'in'  '/' k ']'").

Definition type_name (v : json) : string :=
  match v with
  | JNull => "NoneType"
  | JBool _ => "bool"
  | JNum _ => "int"
  | JStr _ => "str"
  | JArr _ => "list"
  | JObj _ => "dict"
  end.

(** [bool(v)] *)
Definition truthy (v : json) : bool :=
  match v with
  | JNull => false
  | JBool b => b
  | JNum z => negb (z =? 0)
  | JStr s => negb (String.eqb s "")
  | JArr items => match items with [] => false | _ => true end
  | JObj fields => match fields with [] => false | _ => true end
  end.

(** The value under a key of a dict. *)
Fixpoint assoc (k : string) (fields : list (string * json)) : option json :=
  match fields with
  | [] => None
  | (k', v) :: rest => if String.eqb k' k then Some v else assoc k rest
  end.

(** [v.get(k, default)] *)
Definition get (v : json) (k : string) (default : json) : result json :=
  match v with
  | JObj fields => Ok (from_option id default (assoc k fields))
  | _ => Raise (AttributeError (type_name v) "get")
  end.

(** [p in s] for two strings *)
Fixpoint is_substring (p s : string) : bool :=
  String.prefix p s
  || match s with
     | String _ r => is_substring p r
     | EmptyString => false
     end.

(** [v == s] for a string [s] *)
Definition eq_str (v : json) (s : string) : bool :=
  match v with
  | JStr s' => String.eqb s' s
  | _ => false
  end.

(** [k in v] *)
Definition contains (k : string) (v : json) : result bool :=
  match v with
  | JObj fields => Ok (bool_decide (is_Some (assoc k fields)))
  | JArr items => Ok (existsb (fun x => eq_str x k) items)
  | JStr s => Ok (is_substring k s)
  | _ => Raise (TypeError ("argument of type '" ++ type_name v ++ "' is not iterable"))
  end.

(** [v[0]] *)
Definition getitem0 (v : json) : result json :=
  match v with
  | JArr (x :: _) => Ok x
  | JArr [] => Raise (IndexError "list index out of range")
  | JStr (String c _) => Ok (JStr (String c EmptyString))
  | JStr EmptyString => Raise (IndexError "string index out of range")
  | JObj _ => Raise (KeyError "0")
  | _ => Raise (TypeError ("'" ++ type_name v ++ "' object is not subscriptable"))
  end.

Fixpoint chars (s : string) : list json :=
  match s with
  | String c r => JStr (String c EmptyString) :: chars r
  | EmptyString => []
  end.

(** The items that [for x in v] runs over. *)
Definition iter (v : json) : result (list json) :=
  match v with
  | JArr items => Ok items
  | JObj fields => Ok (map (fun kv => JStr kv.1) fields)
  | JStr s => Ok (chars s)
  | _ => Raise (TypeError ("'" ++ type_name v ++ "' object is not iterable"))
  end.

(** [v.strip()] *)
Definition strip (v : json) : result string :=
  match v with
  | JStr s => Ok (Py.strip s)
  | _ => Raise (AttributeError (type_name v) "strip")
  end.

(** [d[k]] for a dict with string keys *)
Definition getitem (d : gmap string json) (k : string) : result json :=
  match d !! k with
  | Some v => Ok v
  | None => Raise (KeyError ("'" ++ k ++ "'"))
  end.

End Json.

(** ** The response parser and the fetch outcomes it reads *)

Module Parser.
Import Json.

(** What the HTTP exchange of [query_single_organisation] comes to: status
    200 with a JSON body, another status with its text, or an exception
    (from the request or from decoding the body). *)
Inductive http_result : Type :=
  | Http200 (data : json)
  | HttpStatus (status_code : Z) (text : string)
  | HttpException (message : string).

(** The dict returned by [query_single_organisation]. *)
Definition fetch_outcome (org_number : string) (r : http_result) : gmap string json :=
  match r with
  | Http200 data =>
      <["data" := data]> (<["status" := JStr "success"]>
        {["org_number" := JStr org_number]})
  | HttpStatus status_code text =>
      <["error_message" := JStr (substring 0 200 text)]>
        (<["error_code" := JNum status_code]>
          (<["status" := JStr "error"]> {["org_number" := JStr org_number]}))
  | HttpException message =>
      <["error_message" := JStr (substring 0 200 message)]>
        (<["status" := JStr "exception"]> {["org_number" := JStr org_number]})
  end.

(** [v and test]: the test is evaluated only when [v] is truthy. *)
Definition and_then (v : json) (test : result bool) : result bool :=
  if truthy v then test else Ok false.

(** [juridisk_form = org.get("juridiskForm", {})] and the update of
    [legal_form_code], [legal_form_description]. *)
Definition extract_legal_form (org : json) (parsed : gmap string json)
  : result (gmap string json) :=
  let* juridisk_form := get org "juridiskForm" (JObj []) in
  let* kod := get juridisk_form "kod" JNull in
  let* klartext := get juridisk_form "klartext" JNull in
  Ok (<["legal_form_description" := klartext]> (<["legal_form_code" := kod]> parsed)).

(** The block under [# Organization names]. *)
Definition extract_name (org : json) (parsed : gmap string json)
  : result (gmap string json) :=
  let* org_names_data := get org "organisationsnamn" (JObj []) in
  let* has_list := and_then org_names_data
               (contains "organisationsnamnLista" org_names_data) in
  if has_list then
    let* namn_lista := get org_names_data "organisationsnamnLista" (JArr []) in
    if truthy namn_lista then
      let* first := getitem0 namn_lista in
      let* namn := get first "namn" JNull in
      Ok (<["organisation_name" := namn]> parsed)
    else Ok parsed
  else Ok parsed.

(** The block under [# Address]. *)
Definition extract_address (org : json) (parsed : gmap string json)
  : result (gmap string json) :=
  let* address_data := get org "postadressOrganisation" (JObj []) in
  let* has_address := and_then address_data (contains "postadress" address_data) in
  if has_address then
    let* address := get address_data "postadress" (JObj []) in
    let* utdelningsadress := get address "utdelningsadress" JNull in
    let* postort := get address "postort" JNull in
    let* postnummer := get address "postnummer" JNull in
    let* land := get address "land" JNull in
    Ok (<["country" := land]> (<["postal_code" := postnummer]>
         (<["city" := postort]> (<["street_address" := utdelningsadress]> parsed))))
  else Ok parsed.

(** [next((sni for sni in sni_list
           if sni.get("kod", "").strip() and sni.get("kod") != "     "), None)]:
    the entries are tried in order and the search stops at the first one
    that passes. *)
Fixpoint next_sni (items : list json) : result json :=
  match items with
  | [] => Ok JNull
  | sni :: rest =>
      let* kod := get sni "kod" (JStr "") in
      let* stripped := strip kod in
      if negb (String.eqb stripped "") then
        let* kod' := get sni "kod" JNull in
        if negb (eq_str kod' "     ") then Ok sni else next_sni rest
      else next_sni rest
  end.

(** The block under [# SNI codes]. *)
Definition extract_sni (org : json) (parsed : gmap string json)
  : result (gmap string json) :=
  let* naringsgren_data := get org "naringsgrenOrganisation" (JObj []) in
  let* has_sni := and_then naringsgren_data (contains "sni" naringsgren_data) in
  if has_sni then
    let* sni_list := get naringsgren_data "sni" (JArr []) in
    if truthy sni_list then
      let* items := iter sni_list in
      let* main_sni := next_sni items in
      if truthy main_sni then
        let* kod := get main_sni "kod" JNull in
        let* klartext := get main_sni "klartext" JNull in
        Ok (<["sni_description" := klartext]> (<["sni_code" := kod]> parsed))
      else Ok parsed
    else Ok parsed
  else Ok parsed.

(** The block under [# Registration and activity]. *)
Definition extract_registration (org : json) (parsed : gmap string json)
  : result (gmap string json) :=
  let* org_datum := get org "organisationsdatum" (JObj []) in
  let* registreringsdatum := get org_datum "registreringsdatum" JNull in
  let* verksam_org := get org "verksamOrganisation" (JObj []) in
  let* kod := get verksam_org "kod" JNull in
  Ok (<["is_active" := JBool (eq_str kod "JA")]>
       (<["registration_date" := registreringsdatum]> parsed)).

(** The record returned when the entity list is empty. *)
Definition no_data_record (org_number : json) : gmap string json :=
  <["error" := JStr "No organisation data returned"]>
    (<["api_status" := JStr "no_data"]> {["org_number" := org_number]}).

(** The body of the [try] block; [now] is
    [pd.Timestamp.now().isoformat()]. *)
Definition extract (now : string) (api_response : gmap string json)
  : result (gmap string json) :=
  let* data := getitem api_response "data" in
  let* organisations := get data "organisationer" (JArr []) in
  if negb (truthy organisations) then
    let* org_number := getitem api_response "org_number" in
    Ok (no_data_record org_number)
  else
    let* org := getitem0 organisations in
    let* org_number := getitem api_response "org_number" in
    let* avregistrerad := get org "avregistreradOrganisation" JNull in
    let parsed : gmap string json :=
      <["is_deregistered" :=
          JBool (match avregistrerad with JNull => false | _ => true end)]>
        (<["query_timestamp" := JStr now]>
          (<["api_status" := JStr "success"]> {["org_number" := org_number]})) in
    let* parsed := extract_legal_form org parsed in
    let* parsed := extract_name org parsed in
    let* parsed := extract_address org parsed in
    let* parsed := extract_sni org parsed in
    extract_registration org parsed.

(** The record of the [except] handler. *)
Definition parse_error_record (org_number : json) (e : exn) : gmap string json :=
  <["error" := JStr ("Parse error: " ++ substring 0 100 (str_exn e))]>
    (<["api_status" := JStr "parse_error"]> {["org_number" := org_number]}).

(** [BolagsverketExtractor.parse_organisation_data]. *)
Definition parse_organisation_data (now : string) (api_response : gmap string json)
  : result (gmap string json) :=
  let* status := getitem api_response "status" in
  if negb (eq_str status "success") then
    let* org_number := getitem api_response "org_number" in
    Ok (<["error" := default (JStr "") (api_response !! "error_message")]>
         (<["api_status" := status]> {["org_number" := org_number]}))
  else
    match extract now api_response with
    | Ok parsed => Ok parsed
    | Raise e =>
        let* org_number := getitem api_response "org_number" in
        Ok (parse_error_record org_number e)
    end.

(** The status tags of a normalized record. *)
Definition status_tags : list string :=
  ["success"; "no_data"; "parse_error"; "error"; "exception"].

(** The classification list of the primary entity of a response, when the
    response has one: [data["organisationer"][0]["naringsgrenOrganisation"]["sni"]]. *)
Definition sni_entries (api_response : gmap string json) : option (list json) :=
  match api_response !! "data" with
  | Some (JObj data) =>
      match assoc "organisationer" data with
      | Some (JArr (JObj org :: _)) =>
          match assoc "naringsgrenOrganisation" org with
          | Some (JObj nar) =>
              match assoc "sni" nar with
              | Some (JArr items) => Some items
              | _ => None
              end
          | _ => None
          end
      | _ => None
      end
  | _ => None
  end.

(** An entry whose code is a string that is not blank. *)
Definition has_code (entry : json) : bool :=
  match entry with
  | JObj fields =>
      match assoc "kod" fields with
      | Some (JStr s) => negb (String.eqb (Py.strip s) "")
      | _ => false
      end
  | _ => false
  end.

(** A field of an entry, [None] when the entry lacks it. *)
Definition field (k : string) (entry : json) : json :=
  match entry with
  | JObj fields => from_option id JNull (assoc k fields)
  | _ => JNull
  end.

End Parser.

(** ** Sample responses for the parser *)

Module ParserSamples.
Import Json Parser.

(** A success whose classification list opens with a blank placeholder. *)
Definition blank_then_coded : gmap string json :=
  fetch_outcome "5560001234"
    (Http200 (JObj [("organisationer", JArr [JObj [
       ("organisationsnamn",
          JObj [("organisationsnamnLista", JArr [JObj [("namn", JStr "Acme Kredit AB")]])]);
       ("naringsgrenOrganisation",
          JObj [("sni", JArr [JObj [("kod", JStr "   ")];
                              JObj [("kod", JStr "62.01"); ("klartext", JStr "X")]])]);
       ("verksamOrganisation", JObj [("kod", JStr "JA")])]])])).

(** The classification list of [blank_then_coded]. *)
Definition blank_then_coded_sni : list json :=
  [JObj [("kod", JStr "   ")];
   JObj [("kod", JStr "62.01"); ("klartext", JStr "X")]].

(** A success whose entity list holds a JSON null. *)
Definition null_entity : gmap string json :=
  fetch_outcome "5560005678" (Http200 (JObj [("organisationer", JArr [JNull])])).

(** The record that the parser returns for [blank_then_coded]. *)
Definition blank_then_coded_record : gmap string json :=
  Eval vm_compute in
    match parse_organisation_data "2025-01-01T10:00:00" blank_then_coded with
    | Ok rec => rec
    | Raise _ => ∅
    end.

(** A 404 from the service. *)
Definition not_found : gmap string json :=
  fetch_outcome "5560005678" (HttpStatus 404 "Not Found").

(** A success whose entity list is empty. *)
Definition no_entities : gmap string json :=
  fetch_outcome "5560005678" (Http200 (JObj [("organisationer", JArr [])])).

(** A success whose first entity carries a null legal form. *)
Definition null_legal_form : gmap string json :=
  fetch_outcome "5560005678"
    (Http200 (JObj [("organisationer", JArr [JObj [("juridiskForm", JNull)]])])).

(** A success whose first entity has no field at all. *)
Definition bare_entity : gmap string json :=
  fetch_outcome "5560005678" (Http200 (JObj [("organisationer", JArr [JObj []])])).

End ParserSamples.

(** ** Dataframes *)

Module Frame.
Import Py.

(** A dataframe: its column labels (distinct) and its rows, each row
    holding one cell per column, in the order of the labels. *)
Record DataFrame : Type := {
  columns : list string;
  rows : list (list cell)
}.

(** The position of a label. *)
Fixpoint index_of (c : string) (cols : list string) : option nat :=
  match cols with
  | [] => None
  | c' :: rest => if String.eqb c' c then Some 0%nat else S <$> index_of c rest
  end.

(** The cell of a row at a position ([nan] past the end of a short row). *)
Definition cell_at (i : nat) (r : list cell) : cell := nth i r CNaN.

(** [df[c]]; [None] stands for the [KeyError] of an absent label. *)
Definition column (df : DataFrame) (c : string) : option (list cell) :=
  match index_of c (columns df) with
  | Some i => Some (map (cell_at i) (rows df))
  | None => None
  end.

(** A row cut or padded with [nan] to a width; a row of that width is
    left as it is. *)
Definition fit (width : nat) (r : list cell) : list cell :=
  take width (r ++ repeat CNaN width).

(** [df[c] = values]: the column is replaced, or appended when the label
    is new. *)
Definition set_column (df : DataFrame) (c : string) (values : list cell) : DataFrame :=
  let width := length (columns df) in
  match index_of c (columns df) with
  | Some i =>
      {| columns := columns df;
         rows := zip_with (fun r v => <[i := v]> (fit width r)) (rows df) values |}
  | None =>
      {| columns := columns df ++ [c];
         rows := zip_with (fun r v => fit width r ++ [v]) (rows df) values |}
  end.

(** The label that a right-hand column gets in a merge with
    [suffixes=('', suffix)]: labels that the left frame also has are
    suffixed. *)
Definition right_label (left_columns : list string) (suffix c : string) : string :=
  if bool_decide (c ∈ left_columns) then c ++ suffix else c.

(** The rows of a left join on the cells at positions [li] and [ri]: each
    left row is paired with every right row of equal key, in the order of
    the right frame, or with [nan] cells when there is none. *)
Definition left_join_rows (lw rw li ri : nat) (lrows rrows : list (list cell))
  : list (list cell) :=
  flat_map
    (fun l =>
       match filter (fun r => cell_at ri r = cell_at li l) rrows with
       | [] => [fit lw l ++ repeat CNaN rw]
       | matched => map (fun r => fit lw l ++ fit rw r) matched
       end)
    lrows.

(** [labels.duplicated()]: whether the label stands at an earlier position
    too. *)
Fixpoint duplicated_from (seen labels : list string) : list bool :=
  match labels with
  | [] => []
  | c :: rest => bool_decide (c ∈ seen) :: duplicated_from (c :: seen) rest
  end.

Definition duplicated (labels : list string) : list bool :=
  duplicated_from [] labels.

(** [renamed[renamed.duplicated() & ~labels.duplicated()]]: the renamed
    labels that repeat an earlier one where the label itself did not, that
    is the duplicates that the suffix made. *)
Definition suffix_duplicates (labels renamed : list string) : list string :=
  omap (fun x : string * (bool * bool) =>
          if x.2.1 && negb x.2.2 then Some x.1 else None)
       (zip renamed (zip (duplicated renamed) (duplicated labels))).

(** [left.merge(right, left_on=.., right_on=.., how='left',
    suffixes=('', suffix))] for a suffix that is not empty; [None] when a
    key label is absent ([KeyError]) or when the suffix makes two labels of
    the right frame equal ([MergeError]).  The left labels keep their names
    under the empty suffix, so the suffix makes no duplicate among them. *)
Definition merge_left (left right : DataFrame) (left_on right_on suffix : string)
  : option DataFrame :=
  match index_of left_on (columns left), index_of right_on (columns right) with
  | Some li, Some ri =>
      let right_labels := map (right_label (columns left) suffix) (columns right) in
      match suffix_duplicates (columns right) right_labels with
      | [] =>
          Some {| columns := columns left ++ right_labels;
                  rows := left_join_rows (length (columns left)) (length (columns right))
                            li ri (rows left) (rows right) |}
      | _ :: _ => None
      end
  | _, _ => None
  end.

End Frame.

(** ** Reconciliation ([merge_with_finansinspektionen_data]) *)

Module Reconcile.
Import Py Frame.

(** The step of the [try] block that raised. *)
Inductive stage : Type :=
  | ReadCsv        (* [pd.read_csv(fi_data_path)] *)
  | SecondaryKey   (* [fi_df['CorporateID_Clean']] *)
  | SecondaryCast  (* [.astype(int)] on the secondary key *)
  | FetchedKey     (* [bolagsverket_df['org_number']] *)
  | Join           (* [fi_df.merge(...)] *)
  | Report.        (* [merged_df['api_status']] in the progress line *)

(** What [pd.to_numeric(x, errors='coerce')] reads in one cell: a finite
    number, given as the integer that [astype(int)] makes of it, the [nan]
    of a cell that is not a number, or an infinity. *)
Inductive numeric : Type :=
  | Finite (z : Z)
  | NotANumber
  | Infinite.

(** [.fillna(0)] on one value. *)
Definition fillna0 (x : numeric) : numeric :=
  match x with NotANumber => Finite 0 | _ => x end.

(** [.astype(int)] on one value; [None] for a value that is not finite,
    on which the cast of the column raises. *)
Definition astype_int (x : numeric) : option Z :=
  match x with Finite z => Some z | _ => None end.

(** [astype(str).str.replace('-', '').str.strip()] on one cell. *)
Definition normalize_org_number (v : cell) : cell :=
  CStr (strip (remove_char "-" (str v))).

Section WithPandas.

(** [pd.to_numeric(x, errors='coerce')] on one cell. *)
Variable to_numeric : cell -> numeric.

(** [pd.to_numeric(.., errors='coerce').fillna(0).astype(int)] on one
    cell. *)
Definition secondary_number (v : cell) : option Z :=
  astype_int (fillna0 (to_numeric v)).

(** [pd.to_numeric(.., errors='coerce').fillna(0).astype(int).astype(str)]
    on one cell that the cast takes.  (For an infinity, on which the cast
    raises and [merge_body] stops, this reads 0.) *)
Definition normalize_secondary_key (v : cell) : cell :=
  CStr (str_int (default 0 (secondary_number v))).

(** The [try] block.  The first component is [bolagsverket_df] as the block
    leaves it (its [org_number] column is rewritten in place), the second
    the merged frame or the step that raised. *)
Definition merge_body (csv : option DataFrame) (bolagsverket_df : DataFrame)
  : DataFrame * (stage + DataFrame) :=
  match csv with
  | None => (bolagsverket_df, inl ReadCsv)
  | Some fi_df =>
      match column fi_df "CorporateID_Clean" with
      | None => (bolagsverket_df, inl SecondaryKey)
      | Some keys =>
          match mapM secondary_number keys with
          | None => (bolagsverket_df, inl SecondaryCast)
          | Some numbers =>
              let fi_df :=
                set_column fi_df "CorporateID_Clean"
                  (map (fun z => CStr (str_int z)) numbers) in
              match column bolagsverket_df "org_number" with
              | None => (bolagsverket_df, inl FetchedKey)
              | Some ids =>
                  let bolagsverket_df :=
                    set_column bolagsverket_df "org_number"
                      (map normalize_org_number ids) in
                  match merge_left fi_df bolagsverket_df
                          "CorporateID_Clean" "org_number" "_bolagsverket" with
                  | None => (bolagsverket_df, inl Join)
                  | Some merged_df =>
                      match column merged_df "api_status" with
                      | None => (bolagsverket_df, inl Report)
                      | Some _ => (bolagsverket_df, inr merged_df)
                      end
                  end
              end
          end
      end
  end.

(** [merge_with_finansinspektionen_data]; [csv] is what [pd.read_csv]
    makes of the file, [None] when it raises.  The [except] branch returns
    [bolagsverket_df], the object that the [try] block worked on. *)
Definition merge_with_finansinspektionen_data
    (bolagsverket_df : DataFrame) (csv : option DataFrame) : DataFrame :=
  match merge_body csv bolagsverket_df with
  | (_, inr merged_df) => merged_df
  | (bolagsverket_df, inl _) => bolagsverket_df
  end.

End WithPandas.

(** The rows that the join reads: the rows of the secondary frame and of
    the fetched frame with the key cell (at position [li], [ri])
    normalised. *)
Definition secondary_rows (to_numeric : cell -> numeric) (li : nat)
    (fi_df : DataFrame) : list (list cell) :=
  map (fun r => <[li := normalize_secondary_key to_numeric (cell_at li r)]>
                  (fit (length (columns fi_df)) r))
      (rows fi_df).

Definition fetched_rows (ri : nat) (bolagsverket_df : DataFrame) : list (list cell) :=
  map (fun r => <[ri := normalize_org_number (cell_at ri r)]>
                  (fit (length (columns bolagsverket_df)) r))
      (rows bolagsverket_df).

(** Following the specification's words: an identifier with its
    separators (hyphens) and its whitespace stripped. *)
Definition spec_normalize (v : cell) : cell :=
  CStr (strip (remove_char "-" (str v))).

(** Following the specification's words: the left join of the secondary
    frame with the fetched frame, both keys normalised by
    [spec_normalize]. *)
Definition spec_reconcile (bolagsverket_df fi_df : DataFrame) : option DataFrame :=
  match column fi_df "CorporateID_Clean", column bolagsverket_df "org_number" with
  | Some keys, Some ids =>
      merge_left
        (set_column fi_df "CorporateID_Clean" (map spec_normalize keys))
        (set_column bolagsverket_df "org_number" (map spec_normalize ids))
        "CorporateID_Clean" "org_number" "_bolagsverket"
  | _, _ => None
  end.

End Reconcile.

(** ** Sample data for the reconciliation *)

Module ReconcileSamples.
Import Py Frame.

(** A stand-in for [pd.to_numeric(.., errors='coerce')]: integers and
    decimal integer literals are numbers, [inf] in its spellings is an
    infinity, nothing else is a number. *)
Definition to_numeric (v : cell) : Reconcile.numeric :=
  match v with
  | CInt z => Reconcile.Finite z
  | CStr s =>
      if bool_decide (lower (strip s) ∈ ["inf"; "+inf"; "-inf";
                                         "infinity"; "+infinity"; "-infinity"])
      then Reconcile.Infinite
      else match NilZero.int_of_string (strip s) with
           | Some n => Reconcile.Finite (Z.of_int n)
           | None => Reconcile.NotANumber
           end
  | _ => Reconcile.NotANumber
  end.

(** A secondary file whose key is written with a hyphen. *)
Definition fi_hyphenated : DataFrame :=
  {| columns := ["CorporateID_Clean"; "Category"];
     rows := [[CStr "1234-5678"; CStr "Bank"]] |}.

(** A secondary file of two companies. *)
Definition fi_two : DataFrame :=
  {| columns := ["CorporateID_Clean"; "Category"];
     rows := [[CInt 5560001234; CStr "Bank"];
              [CInt 5560009999; CStr "Kreditinstitut"]] |}.

(** The fetched records of one company, its identifier hyphenated. *)
Definition fetched_hyphenated : DataFrame :=
  {| columns := ["org_number"; "api_status"];
     rows := [[CStr "1234-5678"; CStr "success"]] |}.

(** Fetched records: one company of [fi_two], one outside of it. *)
Definition fetched_two : DataFrame :=
  {| columns := ["org_number"; "api_status"];
     rows := [[CStr "556000-1234"; CStr "success"];
              [CStr "5560005678"; CStr "error"]] |}.

(** Fetched records without the [api_status] column. *)
Definition fetched_without_status : DataFrame :=
  {| columns := ["org_number"; "organisation_name"];
     rows := [[CStr "556000-1234"; CStr "Acme Kredit AB"]] |}.

(** A secondary file one of whose keys reads as an infinity. *)
Definition fi_infinite : DataFrame :=
  {| columns := ["CorporateID_Clean"; "Category"];
     rows := [[CInt 5560001234; CStr "Bank"];
              [CStr "inf"; CStr "Kreditinstitut"]] |}.




End ReconcileSamples.

(** ** The load step ([DatabaseOperations]) *)

Module Load.
Import Py.

(** One row of the reconciled dataframe, restricted to the columns that
    [bulk_upsert_companies] reads.  [CorporateID_Clean] holds strings: the
    merge step ends its normalisation of that column with [astype(str)].
    A column that the frame lacks reads as [CNone], which is what
    [row.get] returns for it. *)
Record row : Type := {
  CorporateID_Clean : string;
  organisation_name : cell;
  Category : cell;
  api_status : cell;
  is_active : cell;
  is_deregistered : cell;
  registration_date : cell;
  street_address : cell;
  city : cell;
  postal_code : cell;
  country : cell;
  sni_code : cell;
  sni_description : cell;
  legal_form_code : cell;
  legal_form_description : cell;
  query_timestamp : cell
}.

Definition DataFrame : Type := list row.

Inductive value_type : Type := vt_bool | vt_str | vt_other.

(** [DatabaseOperations.safe_value] *)
Definition safe_value (value : cell) (vt : value_type) : cell :=
  if isna value || String.eqb (lower (str value)) "nan" then CNone
  else
    match vt with
    | vt_bool =>
        match value with
        | CBool b => CBool b
        | CStr s =>
            CBool (bool_decide (lower s ∈ ["true"; "1"; "yes"; "ja"; "y"]))
        | _ => CBool (truthy value)
        end
    | vt_str =>
        let result := strip (str value) in
        if String.eqb result "" then CNone else CStr result
    | vt_other => value
    end.

(** [df.drop_duplicates(subset=['CorporateID_Clean'], keep='first')]: a row
    is kept when no earlier row carries its key. *)
Fixpoint drop_duplicates_from (seen : list string) (df : DataFrame) : DataFrame :=
  match df with
  | [] => []
  | r :: rest =>
      if bool_decide (CorporateID_Clean r ∈ seen)
      then drop_duplicates_from seen rest
      else r :: drop_duplicates_from (CorporateID_Clean r :: seen) rest
  end.

Definition drop_duplicates (df : DataFrame) : DataFrame :=
  drop_duplicates_from [] df.

(** The tuple appended to [data_rows], in the order of the [INSERT] column
    list. *)
Record data_row : Type := {
  d_corporate_id : string;
  d_name : cell;
  d_category : cell;
  d_api_status : cell;
  d_is_active : cell;
  d_is_deregistered : cell;
  d_registration_date : cell;
  d_street_address : cell;
  d_city : cell;
  d_postal_code : cell;
  d_country : cell;
  d_sni_code : cell;
  d_sni_description : cell;
  d_legal_form_code : cell;
  d_legal_form_description : cell;
  d_query_timestamp : option Z
}.

(** A row of the [companies] table. *)
Record company : Type := {
  id : Z;
  corporate_id : string;
  name : cell;
  category : cell;
  c_api_status : cell;
  c_is_active : cell;
  c_is_deregistered : cell;
  c_registration_date : cell;
  c_street_address : cell;
  c_city : cell;
  c_postal_code : cell;
  c_country : cell;
  c_sni_code : cell;
  c_sni_description : cell;
  c_legal_form_code : cell;
  c_legal_form_description : cell;
  c_query_timestamp : option Z;
  created_at : Z;
  updated_at : Z
}.

(** What one transaction takes from the server: [CURRENT_TIMESTAMP] (the
    start of the transaction) and the [uuid_generate_v4()] drawn for the
    n-th proposed row. *)
Record transaction : Type := {
  CURRENT_TIMESTAMP : Z;
  uuid_generate_v4 : nat -> Z
}.

(** The return value of [bulk_upsert_companies]. *)
Record report : Type := {
  processed : nat;
  duplicates_removed : nat
}.

(** The first row of a frame that carries the key [k]. *)
Definition first_with_key (k : string) (df : DataFrame) : option row :=
  find (fun r => String.eqb (CorporateID_Clean r) k) df.

(** A persisted row with its [updated_at] column replaced. *)
Definition with_updated_at (t : Z) (c : company) : company :=
  {| id := id c;
     corporate_id := corporate_id c;
     name := name c;
     category := category c;
     c_api_status := c_api_status c;
     c_is_active := c_is_active c;
     c_is_deregistered := c_is_deregistered c;
     c_registration_date := c_registration_date c;
     c_street_address := c_street_address c;
     c_city := c_city c;
     c_postal_code := c_postal_code c;
     c_country := c_country c;
     c_sni_code := c_sni_code c;
     c_sni_description := c_sni_description c;
     c_legal_form_code := c_legal_form_code c;
     c_legal_form_description := c_legal_form_description c;
     c_query_timestamp := c_query_timestamp c;
     created_at := created_at c;
     updated_at := t |}.

(** A numbered proposed row is what one [VALUES] tuple amounts to; this is
    the first of them that carries the key [k]. *)
Definition proposed_for (k : string) (nds : list (nat * data_row))
  : option (nat * data_row) :=
  find (fun nd => String.eqb (d_corporate_id nd.2) k) nds.

(** [reg_date[:10]] when the cell is a string of at least ten characters,
    [None] otherwise. *)
Definition reg_date_of (v : cell) : cell :=
  match v with
  | CStr s => if (10 <=? String.length s)%nat then CStr (substring 0 10 s) else CNone
  | _ => CNone
  end.

(** [INSERT ... VALUES row]: the row inserted when no row holds the key. *)
Definition inserted (tx : transaction) (n : nat) (d : data_row) : company :=
  {| id := uuid_generate_v4 tx n;
     corporate_id := d_corporate_id d;
     name := d_name d;
     category := d_category d;
     c_api_status := d_api_status d;
     c_is_active := d_is_active d;
     c_is_deregistered := d_is_deregistered d;
     c_registration_date := d_registration_date d;
     c_street_address := d_street_address d;
     c_city := d_city d;
     c_postal_code := d_postal_code d;
     c_country := d_country d;
     c_sni_code := d_sni_code d;
     c_sni_description := d_sni_description d;
     c_legal_form_code := d_legal_form_code d;
     c_legal_form_description := d_legal_form_description d;
     c_query_timestamp := d_query_timestamp d;
     created_at := CURRENT_TIMESTAMP tx;
     updated_at := CURRENT_TIMESTAMP tx |}.

(** [ON CONFLICT (corporate_id) DO UPDATE SET name = EXCLUDED.name,
    category = EXCLUDED.category, api_status = EXCLUDED.api_status,
    is_active = EXCLUDED.is_active, updated_at = CURRENT_TIMESTAMP]. *)
Definition updated (tx : transaction) (d : data_row) (old : company) : company :=
  {| id := id old;
     corporate_id := corporate_id old;
     name := d_name d;
     category := d_category d;
     c_api_status := d_api_status d;
     c_is_active := d_is_active d;
     c_is_deregistered := c_is_deregistered old;
     c_registration_date := c_registration_date old;
     c_street_address := c_street_address old;
     c_city := c_city old;
     c_postal_code := c_postal_code old;
     c_country := c_country old;
     c_sni_code := c_sni_code old;
     c_sni_description := c_sni_description old;
     c_legal_form_code := c_legal_form_code old;
     c_legal_form_description := c_legal_form_description old;
     c_query_timestamp := c_query_timestamp old;
     created_at := created_at old;
     updated_at := CURRENT_TIMESTAMP tx |}.

(** The [companies] table, keyed by its unique [corporate_id]. *)
Abbreviation companies := (gmap string company).

(** The upsert of the n-th proposed row. *)
Definition upsert_row (tx : transaction) (db : companies) (nd : nat * data_row)
  : companies :=
  let '(n, d) := nd in
  match db !! d_corporate_id d with
  | None => <[d_corporate_id d := inserted tx n d]> db
  | Some old => <[d_corporate_id d := updated tx d old]> db
  end.

Section WithServer.

(** [pd.to_datetime] on a cell that is not NaN; [None] when it raises. *)
Variable to_datetime : cell -> option Z.

(** The server's column checks on a proposed row ([VARCHAR] widths, the
    syntax of the [DATE]); a rejected row aborts the transaction. *)
Variable server_accepts : data_row -> bool.

(** The body of the [for _, row in df_clean.iterrows()] loop; [None] when
    [pd.to_datetime] raises. *)
Definition prepare (r : row) : option data_row :=
  match (if isna (query_timestamp r) then Some None
         else option_map Some (to_datetime (query_timestamp r))) with
  | None => None
  | Some ts =>
      Some {| d_corporate_id := CorporateID_Clean r;
              d_name := safe_value (organisation_name r) vt_str;
              d_category := safe_value (Category r) vt_str;
              d_api_status := safe_value (api_status r) vt_str;
              d_is_active := safe_value (is_active r) vt_bool;
              d_is_deregistered := safe_value (is_deregistered r) vt_bool;
              d_registration_date := reg_date_of (registration_date r);
              d_street_address := safe_value (street_address r) vt_str;
              d_city := safe_value (city r) vt_str;
              d_postal_code := safe_value (postal_code r) vt_str;
              d_country := safe_value (country r) vt_str;
              d_sni_code := safe_value (sni_code r) vt_str;
              d_sni_description := safe_value (sni_description r) vt_str;
              d_legal_form_code := safe_value (legal_form_code r) vt_str;
              d_legal_form_description := safe_value (legal_form_description r) vt_str;
              d_query_timestamp := ts |}
  end.

(** [data_rows], or [None] when preparing some row raises. *)
Definition prepare_all (df_clean : DataFrame) : option (list data_row) :=
  mapM prepare df_clean.

(** psycopg2 cuts the argument list into pages of [page_size] rows. *)
Definition paginate {A : Type} (page_size : nat) (l : list A) : list (list A) :=
  map (fun i => Orchestrator.py_slice l i (i + page_size))
      (Orchestrator.py_range_step (length l) page_size).

(** One page is one [INSERT] statement.  The server refuses it when a row
    fails the column checks or when two of its rows propose the same
    [corporate_id] (an [ON CONFLICT DO UPDATE] statement may not touch a
    row twice). *)
Definition statement_ok (page : list (nat * data_row)) : bool :=
  forallb (fun nd => server_accepts nd.2) page
  && bool_decide (NoDup (map (fun nd => d_corporate_id nd.2) page)).

(** [execute_values(cur, upsert_query, data_rows, page_size=1000)] followed
    by [conn.commit()]: the statements run in order inside one
    transaction; [None] when the server refuses one of them, in which case
    nothing is committed. *)
Definition execute_values (tx : transaction) (data_rows : list data_row)
    (db : companies) : option companies :=
  let pages := paginate 1000 (zip (seq 0 (length data_rows)) data_rows) in
  if forallb statement_ok pages
  then Some (foldl (foldl (upsert_row tx)) db pages)
  else None.

(** [DatabaseOperations.bulk_upsert_companies]: the table after the call
    and the returned report, [None] when the call raised (the table is
    then as it was).  The connection is taken to be available. *)
Definition bulk_upsert_companies (tx : transaction) (df : DataFrame)
    (db : companies) : companies * option report :=
  let df_clean := drop_duplicates df in
  let duplicate_count := (length df - length df_clean)%nat in
  match prepare_all df_clean with
  | None => (db, None)
  | Some data_rows =>
      match execute_values tx data_rows db with
      | None => (db, None)
      | Some db' =>
          (db', Some {| processed := length data_rows;
                        duplicates_removed := duplicate_count |})
      end
  end.

End WithServer.

End Load.

(** ** Sample data for the load step *)

Module LoadSamples.
Import Py Load.

(** A reconciled row as the pipeline produces it for a fetched company. *)
Definition acme (key : string) : row :=
  {| CorporateID_Clean := key;
     organisation_name := CStr "Acme Kredit AB";
     Category := CStr "Konsumentkreditinstitut";
     api_status := CStr "success";
     is_active := CBool true;
     is_deregistered := CBool false;
     registration_date := CStr "1999-04-12T00:00:00";
     street_address := CStr "Storgatan 1";
     city := CStr "Stockholm";
     postal_code := CStr "11122";
     country := CStr "Sverige";
     sni_code := CStr "64920";
     sni_description := CStr "Annan kreditgivning";
     legal_form_code := CStr "AB";
     legal_form_description := CStr "Aktiebolag";
     query_timestamp := CStr "2025-01-01T10:00:00" |}.

(** The same company fetched again under another name and address. *)
Definition acme_renamed (key : string) : row :=
  {| CorporateID_Clean := key;
     organisation_name := CStr "  Acme Finans AB ";
     Category := CStr "Betalningsinstitut";
     api_status := CStr "success";
     is_active := CStr "JA";
     is_deregistered := CBool true;
     registration_date := CStr "2001-01-01";
     street_address := CStr "Kungsgatan 9";
     city := CStr "Uppsala";
     postal_code := CStr "75321";
     country := CStr "Sverige";
     sni_code := CStr "64190";
     sni_description := CStr "Annan monetar finansformedling";
     legal_form_code := CStr "AB";
     legal_form_description := CStr "Aktiebolag";
     query_timestamp := CStr "2025-02-02T10:00:00.000" |}.

(** A stand-in for [pd.to_datetime]: strings parse (to their length),
    nothing else does. *)
Definition to_datetime (v : cell) : option Z :=
  match v with
  | CStr s => Some (Z.of_nat (String.length s))
  | _ => None
  end.

(** A stand-in for the column checks: [corporate_id VARCHAR(20)]. *)
Definition server_accepts (d : data_row) : bool :=
  (String.length (d_corporate_id d) <=? 20)%nat.

Definition first_run : transaction :=
  {| CURRENT_TIMESTAMP := 1000; uuid_generate_v4 := fun n => Z.of_nat n |}.

Definition second_run : transaction :=
  {| CURRENT_TIMESTAMP := 2000; uuid_generate_v4 := fun n => 100 + Z.of_nat n |}.

End LoadSamples.

(** ** The token manager ([BolagsverketExtractor.get_access_token]) *)

Module TokenManager.

(** The margin subtracted from the lifetime of a token. *)
Definition margin : Z := 300.

(** What one credential exchange comes to: a body with [access_token] and
    [expires_in] (3600 when the body has none), or an exception (a
    response that is not ok, an unreadable body, a failed request). *)
Inductive response : Type :=
  | Granted (access_token : string) (expires_in : Z)
  | Refused (status_code : Z).

(** Where a call of [get_access_token] stands. *)
Inductive pc : Type :=
  | Calling                    (* at [with self.token_lock], not yet inside *)
  | Checking                   (* inside, before the [if] *)
  | Exchanging                 (* inside, [requests.post] sent, no answer yet *)
  | Returned (token : string)  (* left the block with a token *)
  | Raised.                    (* left the block with an exception *)

(** The extractor's credential fields, its lock (the index of the call
    that holds it), the clock, the calls in progress and the number of
    exchange requests sent so far. *)
Record state : Type := {
  token : option string;
  token_expiry : option Z;
  token_lock : option nat;
  clock : Z;
  calls : list pc;
  requests : nat
}.

(** [self.token and self.token_expiry and time.time() < self.token_expiry] *)
Definition cache_valid (tok : option string) (expiry : option Z) (now : Z) : bool :=
  match tok, expiry with
  | Some t, Some e => negb (String.eqb t "") && negb (e =? 0) && (now <? e)
  | _, _ => false
  end.

(** One atomic step of one call, or the passing of time. *)
Inductive event : Type :=
  | Acquire (t : nat)
  | Check (t : nat)
  | Respond (t : nat) (r : response)
  | Tick (d : Z).

Definition set_call (t : nat) (p : pc) (s : state) : list pc := <[t := p]> (calls s).

(** The step that an event stands for; [None] when the event cannot happen
    in the state. *)
Definition step (s : state) (e : event) : option state :=
  match e with
  | Acquire t =>
      match calls s !! t, token_lock s with
      | Some Calling, None =>
          Some {| token := token s; token_expiry := token_expiry s;
                  token_lock := Some t; clock := clock s;
                  calls := set_call t Checking s; requests := requests s |}
      | _, _ => None
      end
  | Check t =>
      match calls s !! t with
      | Some Checking =>
          if cache_valid (token s) (token_expiry s) (clock s)
          then Some {| token := token s; token_expiry := token_expiry s;
                       token_lock := None; clock := clock s;
                       calls := set_call t (Returned (default "" (token s))) s;
                       requests := requests s |}
          else Some {| token := token s; token_expiry := token_expiry s;
                       token_lock := token_lock s; clock := clock s;
                       calls := set_call t Exchanging s;
                       requests := S (requests s) |}
      | _ => None
      end
  | Respond t (Granted access_token expires_in) =>
      match calls s !! t with
      | Some Exchanging =>
          Some {| token := Some access_token;
                  token_expiry := Some (clock s + (expires_in - margin));
                  token_lock := None; clock := clock s;
                  calls := set_call t (Returned access_token) s;
                  requests := requests s |}
      | _ => None
      end
  | Respond t (Refused _) =>
      match calls s !! t with
      | Some Exchanging =>
          Some {| token := token s; token_expiry := token_expiry s;
                  token_lock := None; clock := clock s;
                  calls := set_call t Raised s; requests := requests s |}
      | _ => None
      end
  | Tick d =>
      if 0 <=? d
      then Some {| token := token s; token_expiry := token_expiry s;
                   token_lock := token_lock s; clock := clock s + d;
                   calls := calls s; requests := requests s |}
      else None
  end.

(** An interleaving: the events in the order in which they happen. *)
Fixpoint run (s : state) (events : list event) : option state :=
  match events with
  | [] => Some s
  | e :: rest =>
      match step s e with
      | Some s' => run s' rest
      | None => None
      end
  end.

(** [n] calls made at time [now] on an extractor whose cached credential
    is [tok], [expiry]. *)
Definition start (tok : option string) (expiry : option Z) (now : Z) (n : nat) : state :=
  {| token := tok; token_expiry := expiry; token_lock := None; clock := now;
     calls := replicate n Calling; requests := 0 |}.

Definition in_block (p : pc) : bool :=
  match p with Checking | Exchanging => true | _ => false end.

Definition is_exchanging (p : pc) : bool :=
  match p with Exchanging => true | _ => false end.

Definition is_done (p : pc) : bool :=
  match p with Returned _ | Raised => true | _ => false end.

(** The lock discipline: a call inside the [with] block holds the lock. *)
Definition lock_held_by_block (s : state) : Prop :=
  forall t p, calls s !! t = Some p -> in_block p = true -> token_lock s = Some t.

(** The cached credential is of no use now or later. *)
Definition stale (s : state) : Prop :=
  forall now, clock s <= now ->
              cache_valid (token s) (token_expiry s) now = false.

(** Where an interleaving with granted exchanges stands: no request yet
    and nothing usable cached; one request, in flight; or one request,
    answered, with a cached token that stays valid beyond [limit]. *)
Definition exchange_phase (limit : Z) (s : state) : Prop :=
  (requests s = 0%nat /\ stale s /\
   forall t p, calls s !! t = Some p -> is_done p = false /\ is_exchanging p = false)
  \/ (requests s = 1%nat /\ exists t, calls s !! t = Some Exchanging)
  \/ (requests s = 1%nat /\
      (forall t, calls s !! t <> Some Exchanging) /\
      exists tok e, token s = Some tok /\ tok <> "" /\
                    token_expiry s = Some e /\ limit < e).

(** The number of exchange requests in flight. *)
Definition in_flight (s : state) : nat :=
  length (List.filter is_exchanging (calls s)).

(** Every call has returned or raised. *)
Definition all_done (s : state) : bool := forallb is_done (calls s).

(** The time that passes in an interleaving. *)
Fixpoint elapsed (events : list event) : Z :=
  match events with
  | [] => 0
  | Tick d :: rest => d + elapsed rest
  | _ :: rest => elapsed rest
  end.

(** Every exchange of the interleaving is granted, with a token that is
    not empty and a lifetime that exceeds the margin by more than
    [horizon]. *)
Definition granted_beyond (horizon : Z) (e : event) : bool :=
  match e with
  | Respond _ (Granted access_token expires_in) =>
      negb (String.eqb access_token "") && (horizon <? expires_in - margin)
  | Respond _ (Refused _) => false
  | _ => true
  end.

(** The lock is held only by a call inside the [with] block. *)
Definition lock_owner_in_block (s : state) : Prop :=
  forall t, token_lock s = Some t ->
            exists p, calls s !! t = Some p /\ in_block p = true.

(** The passing of time, as opposed to a step of a call. *)
Definition is_tick (e : event) : bool :=
  match e with Tick _ => true | _ => false end.

(** The number of steps that the calls take in an interleaving. *)
Definition moves (events : list event) : nat :=
  length (List.filter (fun e => negb (is_tick e)) events).

(** The steps that a call has before it at most: taking the lock, the
    check of the cache, the answer to its exchange. *)
Definition steps_left (p : pc) : nat :=
  match p with
  | Calling => 3
  | Checking => 2
  | Exchanging => 1
  | Returned _ | Raised => 0
  end.

(** A call that has not checked the cache yet. *)
Definition before_check (p : pc) : nat :=
  match p with Calling | Checking => 1 | _ => 0 end.

Definition total (f : pc -> nat) (s : state) : nat := sum_list (map f (calls s)).

End TokenManager.

(** ** Sample interleavings of two calls *)

Module TokenSamples.
Import TokenManager.

(** Two calls on a fresh extractor ([self.token = None]). *)
Definition two_calls : state := start None None 1700000000 2.

(** The first exchange is granted while the second call waits for the
    lock; the second call finds the cached token. *)
Definition granted_once : list event :=
  [Acquire 0; Check 0; Tick 1; Respond 0 (Granted "t0k" 3600);
   Acquire 1; Tick 1; Check 1].

(** The first exchange is refused; the second call sends its own. *)
Definition refused_first : list event :=
  [Acquire 0; Check 0; Tick 1; Respond 0 (Refused 503);
   Acquire 1; Check 1; Tick 1; Respond 1 (Granted "t0k" 3600)].

(** The server grants tokens that live no longer than the margin. *)
Definition short_lived : list event :=
  [Acquire 0; Check 0; Respond 0 (Granted "t0k" 300);
   Acquire 1; Check 1; Respond 1 (Granted "t1k" 300)].

(** The state that [granted_once] ends in. *)
Definition after_granted_once : state :=
  {| token := Some "t0k"; token_expiry := Some 1700003301;
     token_lock := None; clock := 1700000002;
     calls := [Returned "t0k"; Returned "t0k"]; requests := 1 |}.

End TokenSamples.

(** ** Fetch and parse per identifier, and the batch extraction
       ([query_single_organisation], [process_organization_batch],
       [extract_batch_data]) *)

Module Batch.
Import Json Parser.

(** What the query of one identifier comes to: [get_access_token] raises
    (outside the [try] of [query_single_organisation], so the exception
    leaves it), or the HTTP exchange ends in one of its three ways. *)
Inductive exchange : Type :=
  | AuthFailed
  | Answered (r : http_result).

(** One identifier of the input together with what its query comes to and
    the [pd.Timestamp.now().isoformat()] read when its answer is parsed. *)
Record call : Type := {
  org_number : string;
  outcome : exchange;
  timestamp : string
}.

(** [query_single_organisation]; [None] when [get_access_token] raises. *)
Definition query_single_organisation (c : call) : option (gmap string json) :=
  match outcome c with
  | AuthFailed => None
  | Answered r => Some (fetch_outcome (org_number c) r)
  end.

(** [process_organization_batch]: the identifiers are queried and parsed
    one after the other; an exception ends the loop and leaves the
    function ([None]). *)
Fixpoint process_organization_batch (org_batch : list call)
  : option (list (gmap string json)) :=
  match org_batch with
  | [] => Some []
  | c :: rest =>
      match query_single_organisation c with
      | None => None
      | Some api_response =>
          match parse_organisation_data (timestamp c) api_response with
          | Raise _ => None
          | Ok parsed_data =>
              match process_organization_batch rest with
              | None => None
              | Some results => Some (parsed_data :: results)
              end
          end
      end
  end.

(** A record answers a call when it carries the identifier of the call
    and one of the status tags. *)
Definition answers (c : call) (rec : gmap string json) : Prop :=
  rec !! "org_number" = Some (JStr (org_number c)) /\
  exists tag, tag ∈ status_tags /\ rec !! "api_status" = Some (JStr tag).

(** The ways in which [extract_batch_data] raises. *)
Inductive failure : Type :=
  | TokenFailure        (* the first [get_access_token] raised *)
  | ZeroDivisionError   (* [total_count // self.max_workers] *)
  | ValueError          (* [ThreadPoolExecutor(max_workers=...)], not positive *)
  | BatchFailure        (* [future.result()] of a batch that raised *)
  | MissingColumn.      (* [df['api_status']] on the frame of no records *)

(** The batches in the order in which [as_completed] yields them. *)
Definition in_completion_order {A : Type} (order : list nat) (batches : list A)
  : list A :=
  omap (fun i => batches !! i) order.

(** [extract_batch_data]: the records that make the rows of the returned
    frame, or the exception.  [cached_token] tells whether [self.token] is
    set on entry, [prefetch] whether the call of [get_access_token] made
    otherwise returns, and [order] lists the batches as they complete. *)
Definition extract_batch_data (max_workers : Z) (cached_token prefetch : bool)
    (order : list nat) (org_numbers : list call)
  : failure + list (gmap string json) :=
  if negb cached_token && negb prefetch then inl TokenFailure
  else
    match Orchestrator.org_batches org_numbers max_workers with
    | None => inl ZeroDivisionError
    | Some org_batches =>
        if max_workers <=? 0 then inl ValueError
        else
          match mapM process_organization_batch
                  (in_completion_order order org_batches) with
          | None => inl BatchFailure
          | Some batch_results =>
              let results := concat batch_results in
              match results with
              | [] => inl MissingColumn
              | _ => inr results
              end
          end
    end.

End Batch.

(** ** Sample queries for the batch extraction *)

Module BatchSamples.
Import Json Parser Batch.

(** A company that the service knows. *)
Definition found : call :=
  {| org_number := "5560001234";
     outcome := Answered (Http200 (JObj [("organisationer", JArr [JObj [
       ("organisationsnamn",
          JObj [("organisationsnamnLista", JArr [JObj [("namn", JStr "Acme Kredit AB")]])]);
       ("verksamOrganisation", JObj [("kod", JStr "JA")])]])]));
     timestamp := "2025-01-01T10:00:00" |}.

(** An identifier that the service answers with a 404. *)
Definition missing : call :=
  {| org_number := "5560005678";
     outcome := Answered (HttpStatus 404 "Not Found");
     timestamp := "2025-01-01T10:00:01" |}.

(** A request that times out. *)
Definition timed_out : call :=
  {| org_number := "5560009999";
     outcome := Answered (HttpException "Read timed out");
     timestamp := "2025-01-01T10:00:02" |}.

Definition three : list call := [found; missing; timed_out].

(** The batches of [three] for two workers: one identifier each. *)
Definition three_batches : list (list call) := [[found]; [missing]; [timed_out]].

(** The second batch completes before the first. *)
Definition second_first : list nat := [1; 0; 2]%nat.

(** The records that the extraction of [three] returns. *)
Definition three_records : list (gmap string json) :=
  Eval vm_compute in
    match extract_batch_data 2 false true second_first three with
    | inr results => results
    | inl _ => []
    end.

End BatchSamples.

(** ** The identifier file ([load_finansinspektionen_ids]) *)

Module Ids.
Import Py.

(** The file at [file_path]: absent, not readable for another reason, or
    its text. *)
Inductive file : Type :=
  | Missing
  | Unreadable
  | Content (text : string).

(** A line break: line feed or carriage return. *)
Definition is_break (c : ascii) : bool :=
  let n := N_of_ascii c in ((n =? 10) || (n =? 13))%N.

(** The lines of a text, without their line breaks.  (A carriage return
    followed by a line feed gives an empty line more than Python's
    universal newlines do; the loader drops empty lines.) *)
Fixpoint lines (text : string) : list string :=
  match text with
  | EmptyString => [EmptyString]
  | String c rest =>
      if is_break c then EmptyString :: lines rest
      else match lines rest with
           | l :: ls => String c l :: ls
           | [] => [String c EmptyString]
           end
  end.

(** [[line.strip() for line in f if line.strip()]] *)
Definition clean_lines (ls : list string) : list string :=
  List.filter (fun l => negb (String.eqb l "")) (map strip ls).

(** [load_finansinspektionen_ids]: [None] when [open] raises something
    other than [FileNotFoundError]. *)
Definition load_finansinspektionen_ids (f : file) : option (list string) :=
  match f with
  | Missing => Some []
  | Unreadable => None
  | Content text => Some (clean_lines (lines text))
  end.

(** The text of a file that holds one identifier per line. *)
Fixpoint write_lines (ids : list string) : string :=
  match ids with
  | [] => EmptyString
  | i :: rest => i ++ String "010"%char (write_lines rest)
  end.

(** A string without a line break. *)
Fixpoint break_free (s : string) : bool :=
  match s with
  | EmptyString => true
  | String c r => negb (is_break c) && break_free r
  end.

(** Whitespace without a line break. *)
Fixpoint blank (s : string) : bool :=
  match s with
  | EmptyString => true
  | String c r => isspace c && negb (is_break c) && blank r
  end.

(** An identifier as the loader hands it on: not empty, without
    surrounding whitespace and without a line break. *)
Definition well_formed (id : string) : bool :=
  negb (String.eqb id "") && String.eqb (strip id) id && break_free id.

End Ids.

(** ** A sample identifier file *)

Module IdsSamples.

(** Two identifiers, the first padded with spaces, a blank line between
    them and a carriage return before the last line feed. *)
Definition text : string :=
  " 5560001234 " ++ String "010" (String "010"
    ("5560005678" ++ String "013" (String "010" ""))).

Definition ids : list string := ["5560001234"; "5560005678"].

End IdsSamples.

(* ===================================================================== *)
(** * Part II.  Theorems                                                  *)
(* ===================================================================== *)

Section OrchestratorFacts.
Import Orchestrator.
Context {A : Type}.
Implicit Types (l : list A) (b n k : nat).

Lemma py_slice_take_drop l i b : py_slice l i (i + b) = take b (drop i l).
Proof. unfold py_slice. f_equal. lia. Qed.

(** The first [n] slices of width [b] rebuild the first [n * b] elements. *)
Lemma concat_slices l b n :
  concat (map (fun i => py_slice l i (i + b))
              (map (fun k => (k * b)%nat) (seq 0 n)))
  = take (n * b) l.
Proof.
  induction n as [|n IH].
  - reflexivity.
  - rewrite seq_S, !map_app, concat_app, IH. cbn [map concat seq Nat.add].
    rewrite app_nil_r, py_slice_take_drop.
    replace (S n * b)%nat with (n * b + b)%nat by lia.
    now rewrite take_take_drop.
Qed.

Lemma ceil_div_covers (m b : nat) : (0 < b)%nat -> (m <= (m + b - 1) / b * b)%nat.
Proof.
  intros Hb.
  pose proof (Nat.div_mod_eq (m + b - 1) b) as E.
  pose proof (Nat.mod_upper_bound (m + b - 1) b ltac:(lia)) as U.
  nia.
Qed.

Lemma ceil_div_tight (m b : nat) :
  (0 < b)%nat -> (0 < m)%nat -> ((m + b - 1) / b * b < m + b)%nat.
Proof.
  intros Hb Hm.
  pose proof (Nat.div_mod_eq (m + b - 1) b) as E.
  nia.
Qed.

Lemma batch_size_pos (M N bs : Z) : batch_size M N = Some bs -> 1 <= bs.
Proof.
  unfold batch_size. destruct (N =? 0); [discriminate|].
  intros [= <-]. lia.
Qed.

Lemma org_batches_unfold l (N : Z) :
  N <> 0 ->
  org_batches l N =
  Some (map (fun i => py_slice l i (i + Z.to_nat (Z.max 1 (Z.of_nat (length l) / N))))
            (py_range_step (length l)
               (Z.to_nat (Z.max 1 (Z.of_nat (length l) / N))))).
Proof.
  intros HN. unfold org_batches, batch_size.
  destruct (Z.eqb_spec N 0); [contradiction|reflexivity].
Qed.

(** C6.  Partition completeness: for every identifier list and every worker
    count [N >= 1] the batches are produced (no exception) and their
    concatenation is the identifier list itself, so every identifier is in
    some batch, in order, and none occurs in two batches. *)
Theorem partition_complete l (N : Z) :
  1 <= N ->
  exists batches, org_batches l N = Some batches /\ concat batches = l.
Proof.
  intros HN. rewrite org_batches_unfold by lia.
  eexists; split; [reflexivity|].
  set (b := Z.to_nat _). unfold py_range_step.
  assert (0 < b)%nat by (subst b; lia).
  rewrite concat_slices. apply take_ge.
  now apply ceil_div_covers.
Qed.

(** C5 (amended).  For a non-empty list of [M] identifiers and [N >= 1]
    workers the batch width is [b = max 1 (M / N)] and there are
    [ceil (M / b)] batches; batch [k] is the contiguous slice starting at
    [k * b]; every batch but the last holds exactly [b] identifiers and the
    last one holds the remaining [1..b]; the batches number exactly [N]
    when [N] divides [M]. *)
Theorem partition_shape l (N : Z) :
  l <> [] -> 1 <= N ->
  let M := length l in
  let b := Z.to_nat (Z.max 1 (Z.of_nat M / N)) in
  exists batches,
    org_batches l N = Some batches /\
    length batches = ((M + b - 1) / b)%nat /\
    (forall k chunk, batches !! k = Some chunk ->
       chunk = take b (drop (k * b) l) /\
       (S k < length batches -> length chunk = b)%nat /\
       (S k = length batches ->
          length chunk = (M - k * b)%nat /\ (1 <= length chunk <= b)%nat)) /\
    (Z.of_nat M mod N = 0 -> Z.of_nat (length batches) = N).
Proof.
  intros Hne HN M b. rewrite org_batches_unfold by lia.
  fold M. fold b. eexists; split; [reflexivity|].
  assert (Hb : (0 < b)%nat) by (subst b; lia).
  assert (HM : (0 < M)%nat) by (subst M; destruct l; [congruence|cbn; lia]).
  unfold py_range_step. rewrite !length_map, length_seq.
  pose proof (ceil_div_covers M b Hb) as Hcov.
  pose proof (ceil_div_tight M b Hb HM) as Htight.
  set (n := ((M + b - 1) / b)%nat) in *.
  split; [reflexivity|]. split.
  - intros k chunk Hk.
    rewrite list_lookup_fmap in Hk.
    destruct (map _ (seq 0 n) !! k) as [i|] eqn:Hi; [|discriminate].
    rewrite list_lookup_fmap in Hi.
    destruct (seq 0 n !! k) as [j|] eqn:Hj; [|discriminate].
    apply lookup_seq in Hj as [-> Hlt]. cbn in Hi, Hk.
    injection Hi as <-. injection Hk as <-.
    rewrite py_slice_take_drop.
    split; [reflexivity|].
    rewrite length_take, length_drop. fold M. split; intros; nia.
  - intros Hdiv.
    apply Z.mod_divide in Hdiv; [|lia]. destruct Hdiv as [q Hq].
    assert (Hq1 : 1 <= q) by nia.
    assert (Hquot : Z.of_nat M / N = q) by (rewrite Hq; apply Z.div_mul; lia).
    assert (Hbq : Z.of_nat b = q) by (subst b; rewrite Hquot; lia).
    assert (Z.of_nat n * q = Z.of_nat M \/ Z.of_nat n * q <> Z.of_nat M) as [E|E] by lia.
    + nia.
    + exfalso.
      assert (Z.of_nat M < Z.of_nat n * q < Z.of_nat M + q) by nia.
      assert (N * q < Z.of_nat n * q < N * q + q) by lia.
      assert (N < Z.of_nat n < N + 1) by nia. lia.
Qed.

End OrchestratorFacts.

(** C5 (as stated) fails: three identifiers and two workers give three
    batches of one identifier, not two batches. *)
Lemma partition_not_worker_count :
  Orchestrator.org_batches ["5560001234"; "5560005678"; "5560009012"] 2
  = Some [["5560001234"]; ["5560005678"]; ["5560009012"]]
  /\ length [["5560001234"]; ["5560005678"]; ["5560009012"]] <> 2%nat.
Proof. split; [reflexivity|discriminate]. Qed.

(** The partition of a wider example: 25 identifiers for the default 12
    workers are cut into 13 batches. *)
Example partition_25_by_12 :
  length <$> Orchestrator.org_batches (seq 0 25) 12 = Some 13%nat.
Proof. reflexivity. Qed.

Lemma partition_complete_witness :
  exists batches,
    Orchestrator.org_batches ["5560001234"; "5560005678"; "5560009012"] 2
    = Some batches /\
    concat batches = ["5560001234"; "5560005678"; "5560009012"].
Proof. apply partition_complete. lia. Defined.

Lemma partition_shape_witness :
  exists batches,
    Orchestrator.org_batches ["a"; "b"; "c"; "d"; "e"] 2 = Some batches /\
    length batches = 3%nat.
Proof.
  destruct (partition_shape ["a"; "b"; "c"; "d"; "e"] 2) as (bs & H1 & H2 & _);
    [discriminate|lia|].
  exists bs. split; [exact H1|exact H2].
Defined.

(** ** The load step *)

Section LoadFacts.
Import Py Load.
Variable to_datetime : cell -> option Z.
Variable server_accepts : data_row -> bool.

Local Abbreviation prepare := (Load.prepare to_datetime).
Local Abbreviation prepare_all := (Load.prepare_all to_datetime).
Local Abbreviation execute_values := (Load.execute_values server_accepts).
Local Abbreviation bulk_upsert_companies :=
  (Load.bulk_upsert_companies to_datetime server_accepts).

(** *** Deduplication *)

Lemma drop_duplicates_from_first seen df k :
  first_with_key k (drop_duplicates_from seen df)
  = if bool_decide (k ∈ seen) then None else first_with_key k df.
Proof.
  unfold first_with_key.
  revert seen. induction df as [|r rest IH]; intros seen; cbn.
  - now destruct (bool_decide _).
  - destruct (bool_decide_reflect (CorporateID_Clean r ∈ seen)) as [Hin|Hout].
    + rewrite IH. destruct (bool_decide_reflect (k ∈ seen)); [reflexivity|].
      destruct (String.eqb_spec (CorporateID_Clean r) k); [congruence|reflexivity].
    + cbn. rewrite IH.
      destruct (String.eqb_spec (CorporateID_Clean r) k) as [Heq|Hne].
      * rewrite bool_decide_eq_false_2; [reflexivity|congruence].
      * destruct (bool_decide_reflect (k ∈ seen)) as [Hk|Hk].
        -- rewrite bool_decide_eq_true_2; [reflexivity|]. now right.
        -- rewrite bool_decide_eq_false_2; [reflexivity|].
           rewrite elem_of_cons. intros [->|]; contradiction.
Qed.

Lemma drop_duplicates_from_sublist seen df :
  drop_duplicates_from seen df `sublist_of` df.
Proof.
  revert seen. induction df as [|r rest IH]; intros seen; cbn.
  - constructor.
  - destruct (bool_decide _); [apply sublist_cons|apply sublist_skip]; apply IH.
Qed.

Lemma drop_duplicates_from_fresh seen df r :
  r ∈ drop_duplicates_from seen df -> CorporateID_Clean r ∉ seen.
Proof.
  revert seen. induction df as [|r' rest IH]; intros seen; cbn.
  - intros H. inversion H.
  - destruct (bool_decide_reflect (CorporateID_Clean r' ∈ seen)) as [Hin|Hout].
    + apply IH.
    + rewrite elem_of_cons. intros [->|H]; [assumption|].
      apply IH in H. rewrite elem_of_cons in H. tauto.
Qed.

Lemma drop_duplicates_from_NoDup seen df :
  NoDup (CorporateID_Clean <$> drop_duplicates_from seen df).
Proof.
  revert seen. induction df as [|r rest IH]; intros seen; cbn.
  - constructor.
  - destruct (bool_decide_reflect (CorporateID_Clean r ∈ seen)) as [Hin|Hout].
    + apply IH.
    + cbn. constructor; [|apply IH].
      rewrite list_elem_of_fmap. intros (r' & Hk & Hr').
      apply drop_duplicates_from_fresh in Hr'. rewrite <- Hk in Hr'.
      apply Hr'. now left.
Qed.

Lemma drop_duplicates_length df :
  (length (drop_duplicates df) <= length df)%nat.
Proof. apply sublist_length, drop_duplicates_from_sublist. Qed.

(** *** Preparing the rows *)

Lemma prepare_key r d : prepare r = Some d -> d_corporate_id d = CorporateID_Clean r.
Proof.
  unfold Load.prepare.
  destruct (if isna _ then _ else _); [|discriminate]. now intros [= <-].
Qed.

Lemma prepare_all_keys df rows :
  prepare_all df = Some rows -> d_corporate_id <$> rows = CorporateID_Clean <$> df.
Proof.
  intros H. apply mapM_Some_1 in H.
  induction H as [|r d df rows Hrd _ IH]; [reflexivity|].
  cbn. f_equal; [now apply prepare_key|exact IH].
Qed.

Lemma proposed_for_zip (idx : list nat) df rows k :
  Forall2 (fun r d => prepare r = Some d) df rows ->
  length idx = length rows ->
  match proposed_for k (zip idx rows) with
  | None => first_with_key k df = None
  | Some nd => exists r, first_with_key k df = Some r /\ prepare r = Some nd.2
  end.
Proof.
  unfold proposed_for, first_with_key.
  intros H. revert idx. induction H as [|r d df rows Hrd _ IH]; intros idx Hlen.
  - now destruct idx.
  - destruct idx as [|n idx]; [discriminate|]. cbn.
    rewrite (prepare_key _ _ Hrd).
    destruct (String.eqb (CorporateID_Clean r) k).
    + exists r. now split.
    + apply IH. cbn in Hlen. lia.
Qed.

(** *** The upsert *)

Lemma upsert_row_lookup_ne tx db nd k :
  d_corporate_id nd.2 <> k -> upsert_row tx db nd !! k = db !! k.
Proof.
  destruct nd as [n d]. cbn. intros Hne.
  destruct (db !! d_corporate_id d); now rewrite lookup_insert_ne.
Qed.

Lemma upsert_row_lookup_eq tx db n d :
  upsert_row tx db (n, d) !! d_corporate_id d
  = Some (match db !! d_corporate_id d with
          | None => inserted tx n d
          | Some old => updated tx d old
          end).
Proof.
  cbn. destruct (db !! d_corporate_id d); now rewrite lookup_insert_eq.
Qed.

Lemma foldl_upsert_lookup_fresh tx nds db k :
  k ∉ (fun nd => d_corporate_id nd.2) <$> nds ->
  foldl (upsert_row tx) db nds !! k = db !! k.
Proof.
  revert db. induction nds as [|nd nds IH]; intros db Hk; [reflexivity|].
  cbn in *. rewrite not_elem_of_cons in Hk. destruct Hk as [Hne Hk].
  rewrite IH by assumption. apply upsert_row_lookup_ne. congruence.
Qed.

(** With pairwise distinct keys every key is written at most once, by the
    first (and only) proposed row that carries it. *)
Lemma foldl_upsert_lookup tx nds db k :
  NoDup ((fun nd => d_corporate_id nd.2) <$> nds) ->
  foldl (upsert_row tx) db nds !! k
  = match proposed_for k nds with
    | None => db !! k
    | Some nd => Some (match db !! k with
                       | None => inserted tx nd.1 nd.2
                       | Some old => updated tx nd.2 old
                       end)
    end.
Proof.
  unfold proposed_for.
  revert db. induction nds as [|[n d] nds IH]; intros db Hnd; [reflexivity|].
  cbn in Hnd. apply NoDup_cons in Hnd as [Hfresh Hnd]. cbn [foldl find snd].
  destruct (String.eqb_spec (d_corporate_id d) k) as [Heq|Hne].
  - subst k. rewrite foldl_upsert_lookup_fresh by assumption.
    apply upsert_row_lookup_eq.
  - rewrite IH by assumption.
    now rewrite (upsert_row_lookup_ne tx db (n, d) k Hne).
Qed.

Lemma foldl_foldl_concat {S B : Type} (f : S -> B -> S) (pages : list (list B)) (s : S) :
  foldl (foldl f) s pages = foldl f s (concat pages).
Proof.
  revert s. induction pages as [|p pages IH]; intros s; [reflexivity|].
  cbn. now rewrite IH, foldl_app.
Qed.

Lemma concat_paginate {B : Type} (n : nat) (l : list B) :
  (0 < n)%nat -> concat (paginate n l) = l.
Proof.
  intros Hn. unfold paginate, Orchestrator.py_range_step.
  rewrite concat_slices. apply take_ge. now apply ceil_div_covers.
Qed.

Lemma execute_values_Some tx rows db db' :
  execute_values tx rows db = Some db' ->
  db' = foldl (upsert_row tx) db (zip (seq 0 (length rows)) rows).
Proof.
  unfold Load.execute_values. destruct (forallb _ _); [|discriminate].
  intros [= <-]. rewrite foldl_foldl_concat, concat_paginate by lia. reflexivity.
Qed.

(** Whether the server takes the rows depends on the rows alone. *)
Lemma execute_values_accepts tx1 tx2 rows db1 db2 :
  is_Some (execute_values tx1 rows db1) -> is_Some (execute_values tx2 rows db2).
Proof.
  unfold Load.execute_values. destruct (forallb _ _); [eauto|].
  intros [? [=]].
Qed.

Lemma bulk_upsert_companies_Some tx df db db' rep :
  bulk_upsert_companies tx df db = (db', Some rep) ->
  exists rows,
    prepare_all (drop_duplicates df) = Some rows /\
    execute_values tx rows db = Some db' /\
    rep = {| processed := length rows;
             duplicates_removed := (length df - length (drop_duplicates df))%nat |}.
Proof.
  unfold Load.bulk_upsert_companies.
  destruct (prepare_all _) as [rows|] eqn:Hprep; [|discriminate].
  destruct (execute_values _ _ _) as [db''|] eqn:Hexec; [|discriminate].
  intros [= <- <-]. exists rows. auto.
Qed.

(** What a successful call leaves under the key [k]: the first row of the
    frame with that key is inserted, or merged into the row already there;
    a key that the frame lacks keeps its row. *)
Lemma bulk_upsert_companies_lookup tx df db db' rep k :
  bulk_upsert_companies tx df db = (db', Some rep) ->
  match first_with_key k df with
  | None => db' !! k = db !! k
  | Some r =>
      exists n d, prepare r = Some d /\
        db' !! k = Some (match db !! k with
                         | None => inserted tx n d
                         | Some old => updated tx d old
                         end)
  end.
Proof.
  intros H. apply bulk_upsert_companies_Some in H as (rows & Hprep & Hexec & _).
  apply execute_values_Some in Hexec. subst db'.
  pose proof (prepare_all_keys _ _ Hprep) as Hkeys.
  assert (Hlen : length (seq 0 (length rows)) = length rows) by apply length_seq.
  rewrite foldl_upsert_lookup.
  2:{ rewrite <- (snd_zip (seq 0 (length rows)) rows) in Hkeys by lia.
      rewrite <- list_fmap_compose in Hkeys. unfold compose in Hkeys.
      rewrite Hkeys. apply drop_duplicates_from_NoDup. }
  pose proof (proposed_for_zip (seq 0 (length rows)) _ _ k
                (proj1 (mapM_Some _ _ _) Hprep) Hlen) as Hp.
  unfold drop_duplicates in Hp. rewrite drop_duplicates_from_first in Hp.
  rewrite bool_decide_eq_false_2 in Hp by apply not_elem_of_nil.
  destruct (proposed_for k _) as [[n d]|].
  - destruct Hp as (r & -> & Hd). eauto.
  - now rewrite Hp.
Qed.

(** *** The claims about the load step *)

(** C7.  Deduplication keeps one row per [CorporateID_Clean] key: the keys
    of the cleaned frame are pairwise distinct, the cleaned frame is the
    input with rows left out, and under every key it shows the first input
    row with that key.  A call that returns reports the number of dropped
    rows as [duplicates_removed]; a frame of two rows sharing one key
    reports exactly one. *)
Theorem dedup_keeps_first_and_counts df :
  NoDup (CorporateID_Clean <$> drop_duplicates df) /\
  drop_duplicates df `sublist_of` df /\
  (forall k, first_with_key k (drop_duplicates df) = first_with_key k df) /\
  (forall tx db db' rep,
     bulk_upsert_companies tx df db = (db', Some rep) ->
     duplicates_removed rep = (length df - length (drop_duplicates df))%nat /\
     processed rep = length (drop_duplicates df) /\
     (processed rep + duplicates_removed rep = length df)%nat) /\
  (forall r1 r2 tx db db' rep,
     df = [r1; r2] ->
     CorporateID_Clean r1 = CorporateID_Clean r2 ->
     bulk_upsert_companies tx df db = (db', Some rep) ->
     drop_duplicates df = [r1] /\ duplicates_removed rep = 1%nat).
Proof.
  assert (Hrep : forall tx db db' rep,
     bulk_upsert_companies tx df db = (db', Some rep) ->
     duplicates_removed rep = (length df - length (drop_duplicates df))%nat /\
     processed rep = length (drop_duplicates df)).
  { intros tx db db' rep H.
    apply bulk_upsert_companies_Some in H as (rows & Hprep & _ & ->). cbn.
    split; [reflexivity|]. symmetry. eapply length_mapM, Hprep. }
  split; [apply drop_duplicates_from_NoDup|].
  split; [apply drop_duplicates_from_sublist|].
  split.
  { intros k. unfold drop_duplicates. rewrite drop_duplicates_from_first.
    now rewrite bool_decide_eq_false_2 by apply not_elem_of_nil. }
  split.
  - intros tx db db' rep H. destruct (Hrep _ _ _ _ H) as [H1 H2].
    pose proof (drop_duplicates_length df). repeat split; [assumption..|lia].
  - intros r1 r2 tx db db' rep -> Hkey H.
    destruct (Hrep _ _ _ _ H) as [H1 _]. rewrite H1.
    assert (E : drop_duplicates [r1; r2] = [r1]).
    { unfold drop_duplicates. cbn.
      rewrite bool_decide_eq_false_2 by apply not_elem_of_nil.
      rewrite bool_decide_eq_true_2; [reflexivity|]. rewrite Hkey. now left. }
    now rewrite E.
Qed.

(** C9.  A successful upsert leaves every row that was in the table in the
    table, with its id, key, creation timestamp, deregistered flag,
    registration date, address, classification, legal form and query
    timestamp as they were.  When the frame has a row with the key, [name],
    [category], [api_status] and [is_active] take the values prepared from
    the first such row and [updated_at] becomes the transaction's
    timestamp; otherwise the row is untouched. *)
Theorem upsert_conflict_frame tx df db db' rep k old :
  bulk_upsert_companies tx df db = (db', Some rep) ->
  db !! k = Some old ->
  exists new,
    db' !! k = Some new /\
    (id new = id old /\
     corporate_id new = corporate_id old /\
     created_at new = created_at old /\
     c_is_deregistered new = c_is_deregistered old /\
     c_registration_date new = c_registration_date old /\
     c_street_address new = c_street_address old /\
     c_city new = c_city old /\
     c_postal_code new = c_postal_code old /\
     c_country new = c_country old /\
     c_sni_code new = c_sni_code old /\
     c_sni_description new = c_sni_description old /\
     c_legal_form_code new = c_legal_form_code old /\
     c_legal_form_description new = c_legal_form_description old /\
     c_query_timestamp new = c_query_timestamp old) /\
    match first_with_key k df with
    | None => new = old
    | Some r =>
        name new = safe_value (organisation_name r) vt_str /\
        category new = safe_value (Category r) vt_str /\
        c_api_status new = safe_value (api_status r) vt_str /\
        c_is_active new = safe_value (is_active r) vt_bool /\
        updated_at new = CURRENT_TIMESTAMP tx
    end.
Proof.
  intros H Hold. pose proof (bulk_upsert_companies_lookup _ _ _ _ _ k H) as L.
  rewrite Hold in L. destruct (first_with_key k df) as [r|].
  - destruct L as (n & d & Hd & ->). eexists; split; [reflexivity|].
    unfold Load.prepare in Hd.
    destruct (if isna _ then _ else _); [|discriminate].
    injection Hd as <-. cbn. repeat split; reflexivity.
  - exists old. repeat split; assumption.
Qed.

(** What two successive calls with one frame leave under a key. *)
Lemma reload_lookup tx1 tx2 df db db1 rep1 db2 rep2 k :
  bulk_upsert_companies tx1 df db = (db1, Some rep1) ->
  bulk_upsert_companies tx2 df db1 = (db2, Some rep2) ->
  db2 !! k = match first_with_key k df with
             | None => db1 !! k
             | Some _ => with_updated_at (CURRENT_TIMESTAMP tx2) <$> db1 !! k
             end.
Proof.
  intros H1 H2.
  pose proof (bulk_upsert_companies_lookup _ _ _ _ _ k H1) as L1.
  pose proof (bulk_upsert_companies_lookup _ _ _ _ _ k H2) as L2.
  destruct (first_with_key k df) as [r|]; [|assumption].
  destruct L1 as (n1 & d1 & Hd1 & E1). destruct L2 as (n2 & d2 & Hd2 & E2).
  rewrite Hd1 in Hd2. injection Hd2 as <-.
  rewrite E2, E1. cbn. f_equal. now destruct (db !! k).
Qed.

Lemma reload_outcome tx1 tx2 df db :
  (bulk_upsert_companies tx1 df db).2 = None ->
  bulk_upsert_companies tx1 df db = (db, None) /\
  bulk_upsert_companies tx2 df db = (db, None).
Proof.
  unfold Load.bulk_upsert_companies.
  destruct (prepare_all _) as [rows|]; [|now split].
  destruct (execute_values tx1 rows db) as [db1|] eqn:E1; [discriminate|].
  intros _. split; [reflexivity|].
  destruct (execute_values tx2 rows db) as [db2|] eqn:E2; [|reflexivity].
  destruct (execute_values_accepts tx2 tx1 rows db db) as [? ?]; [eauto|congruence].
Qed.

Lemma reload_succeeds tx1 tx2 df db db1 rep1 :
  bulk_upsert_companies tx1 df db = (db1, Some rep1) ->
  exists db2, bulk_upsert_companies tx2 df db1 = (db2, Some rep1).
Proof.
  intros H. apply bulk_upsert_companies_Some in H as (rows & Hprep & Hexec & ->).
  unfold Load.bulk_upsert_companies. rewrite Hprep.
  destruct (execute_values_accepts tx1 tx2 rows db db1) as [db2 ->]; eauto.
Qed.

Lemma with_updated_at_twice t t' c :
  with_updated_at t (with_updated_at t' c) = with_updated_at t c.
Proof. reflexivity. Qed.

Lemma with_updated_at_same c : with_updated_at (updated_at c) c = c.
Proof. now destruct c. Qed.

Lemma same_lookups_same_size (m1 m2 : gmap string company) :
  (forall k, is_Some (m1 !! k) <-> is_Some (m2 !! k)) -> size m1 = size m2.
Proof.
  intros H. rewrite <- !size_dom. f_equal. apply set_eq. intros k.
  now rewrite !elem_of_dom.
Qed.

(** C2 (amended).  Running the load step a second time with the same frame
    leaves the same rows (hence the same row count) with the same value in
    every column except [updated_at]; rows whose key the frame lacks are
    untouched, the rows of the frame carry the timestamp of the second
    transaction in [updated_at], the second call reports what the first
    reported, and when both transactions carry one timestamp the table is
    the same. *)
Theorem reload_idempotent_up_to_updated_at tx1 tx2 df db :
  let once := (bulk_upsert_companies tx1 df db).1 in
  let twice := (bulk_upsert_companies tx2 df once).1 in
  size twice = size once /\
  (forall k, with_updated_at 0 <$> twice !! k = with_updated_at 0 <$> once !! k) /\
  (forall k, first_with_key k df = None -> twice !! k = once !! k) /\
  (forall k r rep c,
     first_with_key k df = Some r ->
     (bulk_upsert_companies tx1 df db).2 = Some rep ->
     twice !! k = Some c ->
     updated_at c = CURRENT_TIMESTAMP tx2) /\
  (bulk_upsert_companies tx2 df once).2 = (bulk_upsert_companies tx1 df db).2 /\
  (CURRENT_TIMESTAMP tx2 = CURRENT_TIMESTAMP tx1 -> twice = once).
Proof.
  cbv zeta.
  destruct (bulk_upsert_companies tx1 df db) as [db1 [rep1|]] eqn:E1.
  - destruct (reload_succeeds tx1 tx2 _ _ _ _ E1) as [db2 E2].
    cbn [fst snd]. rewrite E2. cbn [fst snd].
    pose proof (fun k => reload_lookup _ _ _ _ _ _ _ _ k E1 E2) as L.
    assert (P2 : forall k, with_updated_at 0 <$> db2 !! k = with_updated_at 0 <$> db1 !! k).
    { intros k. rewrite L. destruct (first_with_key k df); [|reflexivity].
      now destruct (db1 !! k). }
    split; [|split; [exact P2|split; [|split; [|split; [reflexivity|]]]]].
    + apply same_lookups_same_size. intros k. specialize (P2 k).
      rewrite <- (fmap_is_Some (with_updated_at 0) (db2 !! k)).
      rewrite <- (fmap_is_Some (with_updated_at 0) (db1 !! k)). now rewrite P2.
    + intros k Hk. now rewrite L, Hk.
    + intros k r rep c Hk _ Hc. rewrite L, Hk in Hc.
      destruct (db1 !! k) as [c1|]; [|discriminate Hc].
      cbn in Hc. now injection Hc as <-.
    + intros Hts. apply map_eq. intros k. rewrite L.
      pose proof (bulk_upsert_companies_lookup _ _ _ _ _ k E1) as L1.
      destruct (first_with_key k df) as [r|]; [|reflexivity].
      destruct L1 as (n & d & _ & ->). cbn. f_equal. rewrite Hts.
      now destruct (db !! k).
  - destruct (reload_outcome tx1 tx2 df db) as [_ E2]; [now rewrite E1|].
    assert (db1 = db) as ->.
    { destruct (reload_outcome tx1 tx1 df db) as [E _]; [now rewrite E1|]. congruence. }
    cbn [fst snd]. rewrite E2. cbn [fst snd].
    repeat split; try reflexivity. intros k r rep c _ Hrep. discriminate Hrep.
Qed.

End LoadFacts.

(** C2 (as stated) fails: loading one company into the empty table at
    [CURRENT_TIMESTAMP] 1000 and loading the same frame again at 2000
    leaves a row whose [updated_at] is 2000, not the 1000 of the first
    load. *)
Lemma reload_bumps_updated_at :
  (Load.bulk_upsert_companies LoadSamples.to_datetime LoadSamples.server_accepts
     LoadSamples.second_run [LoadSamples.acme "5560001234"]
     (Load.bulk_upsert_companies LoadSamples.to_datetime LoadSamples.server_accepts
        LoadSamples.first_run [LoadSamples.acme "5560001234"] ∅).1).1
  <>
  (Load.bulk_upsert_companies LoadSamples.to_datetime LoadSamples.server_accepts
     LoadSamples.first_run [LoadSamples.acme "5560001234"] ∅).1.
Proof.
  intros H.
  apply (f_equal (fun m : gmap string Load.company =>
                    Load.updated_at <$> m !! "5560001234")) in H.
  vm_compute in H. discriminate.
Qed.

(** The two loads of the counterexample, evaluated. *)
Example reload_updated_at_values :
  Load.updated_at <$>
    (Load.bulk_upsert_companies LoadSamples.to_datetime LoadSamples.server_accepts
       LoadSamples.first_run [LoadSamples.acme "5560001234"] ∅).1 !! "5560001234"
  = Some 1000
  /\
  Load.updated_at <$>
    (Load.bulk_upsert_companies LoadSamples.to_datetime LoadSamples.server_accepts
       LoadSamples.second_run [LoadSamples.acme "5560001234"]
       (Load.bulk_upsert_companies LoadSamples.to_datetime LoadSamples.server_accepts
          LoadSamples.first_run [LoadSamples.acme "5560001234"] ∅).1).1 !! "5560001234"
  = Some 2000.
Proof. split; vm_compute; reflexivity. Qed.

(** Two rows with one key: one duplicate is reported. *)
Lemma dedup_keeps_first_and_counts_witness :
  exists db' rep,
    Load.bulk_upsert_companies LoadSamples.to_datetime LoadSamples.server_accepts
      LoadSamples.first_run
      [LoadSamples.acme "12345678"; LoadSamples.acme "12345678"] ∅
    = (db', Some rep)
    /\ Load.duplicates_removed rep = 1%nat.
Proof.
  set (res := Load.bulk_upsert_companies LoadSamples.to_datetime
                LoadSamples.server_accepts LoadSamples.first_run
                [LoadSamples.acme "12345678"; LoadSamples.acme "12345678"] ∅).
  assert (E : res = (res.1, Some {| Load.processed := 1; Load.duplicates_removed := 1 |}))
    by (vm_compute; reflexivity).
  exists res.1, {| Load.processed := 1; Load.duplicates_removed := 1 |}.
  split; [exact E|].
  exact (proj2 (proj2 (proj2 (proj2 (proj2
           (dedup_keeps_first_and_counts LoadSamples.to_datetime
              LoadSamples.server_accepts
              [LoadSamples.acme "12345678"; LoadSamples.acme "12345678"]))))
           _ _ _ _ _ _ eq_refl eq_refl E)).
Defined.

(** An upsert over an existing row: the four mutable columns take the new
    values, the others stay. *)
Lemma upsert_conflict_frame_witness :
  exists new,
    (Load.bulk_upsert_companies LoadSamples.to_datetime LoadSamples.server_accepts
       LoadSamples.second_run [LoadSamples.acme_renamed "5560001234"]
       (Load.bulk_upsert_companies LoadSamples.to_datetime LoadSamples.server_accepts
          LoadSamples.first_run [LoadSamples.acme "5560001234"] ∅).1).1
      !! "5560001234" = Some new /\
    Load.name new = Py.CStr "Acme Finans AB" /\
    Load.c_is_active new = Py.CBool true /\
    Load.updated_at new = 2000 /\
    Load.created_at new = 1000 /\
    Load.c_city new = Py.CStr "Stockholm" /\
    Load.c_is_deregistered new = Py.CBool false.
Proof.
  set (db0 := (Load.bulk_upsert_companies LoadSamples.to_datetime
                 LoadSamples.server_accepts LoadSamples.first_run
                 [LoadSamples.acme "5560001234"] ∅).1).
  set (res := Load.bulk_upsert_companies LoadSamples.to_datetime
                LoadSamples.server_accepts LoadSamples.second_run
                [LoadSamples.acme_renamed "5560001234"] db0).
  assert (E : res = (res.1, Some {| Load.processed := 1; Load.duplicates_removed := 0 |}))
    by (vm_compute; reflexivity).
  destruct (db0 !! "5560001234") as [old|] eqn:Hold; [|vm_compute in Hold; discriminate].
  destruct (upsert_conflict_frame LoadSamples.to_datetime LoadSamples.server_accepts
              _ _ _ _ _ _ _ E Hold) as (new & Hnew & Hframe & Hmut).
  exists new. split; [exact Hnew|].
  cbn in Hmut. destruct Hmut as (Hn & _ & _ & Ha & Hu).
  destruct Hframe as (_ & _ & Hc & Hd & _ & _ & Hcity & _).
  vm_compute in Hold. injection Hold as <-.
  repeat split; [exact Hn|exact Ha|exact Hu|exact Hc|exact Hcity|exact Hd].
Defined.

(** ** The response parser *)

Section ParserFacts.
Import Json Parser.
Implicit Types (parsed : gmap string json) (org : json) (k : string).

(** Case analysis on a chain of binds that returned. *)
Ltac unbind H :=
  repeat match type of H with
    | bind ?m _ = Ok _ =>
        let E := fresh "E" in
        destruct m eqn:E; cbn [bind] in H; [|discriminate H]
    | (if ?b then _ else _) = Ok _ =>
        let E := fresh "B" in destruct b eqn:E
    | Ok _ = Ok _ => injection H as H
    end.

Ltac frame_lookup :=
  subst; rewrite ?lookup_insert_ne by (intros <-; tauto); reflexivity.

Lemma extract_legal_form_frame org parsed parsed' k :
  extract_legal_form org parsed = Ok parsed' ->
  k <> "legal_form_code" /\ k <> "legal_form_description" ->
  parsed' !! k = parsed !! k.
Proof. unfold extract_legal_form. intros H Hk. unbind H. frame_lookup. Qed.

Lemma extract_name_frame org parsed parsed' k :
  extract_name org parsed = Ok parsed' ->
  k <> "organisation_name" ->
  parsed' !! k = parsed !! k.
Proof. unfold extract_name. intros H Hk. unbind H; frame_lookup. Qed.

Lemma extract_address_frame org parsed parsed' k :
  extract_address org parsed = Ok parsed' ->
  k <> "street_address" /\ k <> "city" /\ k <> "postal_code" /\ k <> "country" ->
  parsed' !! k = parsed !! k.
Proof. unfold extract_address. intros H Hk. unbind H; frame_lookup. Qed.

Lemma extract_sni_frame org parsed parsed' k :
  extract_sni org parsed = Ok parsed' ->
  k <> "sni_code" /\ k <> "sni_description" ->
  parsed' !! k = parsed !! k.
Proof. unfold extract_sni. intros H Hk. unbind H; frame_lookup. Qed.

Lemma extract_registration_frame org parsed parsed' k :
  extract_registration org parsed = Ok parsed' ->
  k <> "registration_date" /\ k <> "is_active" ->
  parsed' !! k = parsed !! k.
Proof. unfold extract_registration. intros H Hk. unbind H. frame_lookup. Qed.

Lemma getitem_Ok (d : gmap string json) k v : getitem d k = Ok v -> d !! k = Some v.
Proof. unfold getitem. destruct (d !! k); [now intros [= ->]|discriminate]. Qed.

Lemma getitem_Some (d : gmap string json) k v : d !! k = Some v -> getitem d k = Ok v.
Proof. unfold getitem. now intros ->. Qed.

(** A record that the [try] block returns carries the identifier of the
    response and the tag [success] or [no_data]. *)
Lemma extract_Ok now (api_response : gmap string json) parsed :
  extract now api_response = Ok parsed ->
  parsed !! "org_number" = api_response !! "org_number" /\
  (parsed !! "api_status" = Some (JStr "success") \/
   parsed !! "api_status" = Some (JStr "no_data")).
Proof.
  unfold extract. intros H. unbind H.
  - subst parsed. apply getitem_Ok in E1. rewrite E1. split; [reflexivity|now right].
  - apply getitem_Ok in E2. rewrite E2.
    rewrite (extract_registration_frame _ _ _ "org_number" H) by (split; discriminate).
    rewrite (extract_registration_frame _ _ _ "api_status" H) by (split; discriminate).
    rewrite (extract_sni_frame _ _ _ "org_number" E7) by (split; discriminate).
    rewrite (extract_sni_frame _ _ _ "api_status" E7) by (split; discriminate).
    rewrite (extract_address_frame _ _ _ "org_number" E6) by (repeat split; discriminate).
    rewrite (extract_address_frame _ _ _ "api_status" E6) by (repeat split; discriminate).
    rewrite (extract_name_frame _ _ _ "org_number" E5) by discriminate.
    rewrite (extract_name_frame _ _ _ "api_status" E5) by discriminate.
    rewrite (extract_legal_form_frame _ _ _ "org_number" E4) by (split; discriminate).
    rewrite (extract_legal_form_frame _ _ _ "api_status" E4) by (split; discriminate).
    split; [reflexivity|now left].
Qed.

Lemma substring_length_le (n : nat) (s : string) :
  (String.length (substring 0 n s) <= n)%nat.
Proof.
  revert s. induction n as [|n IH]; intros [|c s]; cbn; try lia.
  specialize (IH s). lia.
Qed.

(** Every outcome of the fetcher carries its identifier and one of the
    three tags the parser tells apart. *)
Lemma fetch_outcome_shape (org_number : string) (r : http_result) :
  fetch_outcome org_number r !! "org_number" = Some (JStr org_number) /\
  exists st, fetch_outcome org_number r !! "status" = Some (JStr st) /\
             st ∈ ["success"; "error"; "exception"].
Proof.
  destruct r; cbn; (split; [reflexivity|]); eexists; (split; [reflexivity|]);
    rewrite !elem_of_cons; tauto.
Qed.

(** C4.  For a fetch outcome with an identifier and one of the fetcher's
    status tags the parser returns a record and raises nothing; the record
    carries the identifier and a tag among success, no_data, parse_error,
    error and exception; an outcome that is not a success keeps its tag;
    and an exception [e] raised while extracting the fields of a success
    yields the [parse_error] record, whose message is [Parse error: ]
    followed by at most the first 100 characters of [str(e)]. *)
Theorem parse_never_raises now (api_response : gmap string json) (ident : json) (st : string) :
  api_response !! "org_number" = Some ident ->
  api_response !! "status" = Some (JStr st) ->
  st ∈ ["success"; "error"; "exception"] ->
  exists rec,
    parse_organisation_data now api_response = Ok rec /\
    rec !! "org_number" = Some ident /\
    (exists tag, tag ∈ status_tags /\ rec !! "api_status" = Some (JStr tag)) /\
    (st <> "success" -> rec !! "api_status" = Some (JStr st)) /\
    (forall e, st = "success" -> extract now api_response = Raise e ->
       rec = parse_error_record ident e /\
       exists msg, rec !! "error" = Some (JStr ("Parse error: " ++ msg)) /\
                   msg = substring 0 100 (str_exn e) /\
                   (String.length msg <= 100)%nat).
Proof.
  intros Hid Hst Htag. unfold parse_organisation_data.
  rewrite (getitem_Some _ _ _ Hst), (getitem_Some _ _ _ Hid). cbn [bind eq_str].
  destruct (String.eqb_spec st "success") as [->|Hne]; cbn [negb].
  - destruct (extract now api_response) as [parsed|e] eqn:E.
    + apply extract_Ok in E as [E1 E2]. exists parsed.
      split; [reflexivity|]. split; [congruence|].
      split; [|split; [congruence|discriminate]].
      destruct E2 as [E2|E2]; eexists; (split; [|exact E2]);
        unfold status_tags; rewrite !elem_of_cons; tauto.
    + exists (parse_error_record ident e).
      split; [reflexivity|]. split; [reflexivity|].
      split.
      { exists "parse_error". split; [|reflexivity].
        unfold status_tags. rewrite !elem_of_cons. tauto. }
      split; [congruence|].
      intros e' _ [= <-]. split; [reflexivity|].
      eexists. split; [reflexivity|]. split; [reflexivity|apply substring_length_le].
  - eexists. split; [reflexivity|]. split; [reflexivity|].
    split; [|split; [reflexivity|congruence]].
    exists st. split; [|reflexivity].
    unfold status_tags. rewrite !elem_of_cons in *. tauto.
Qed.

(** *** The classification entry *)

Lemma find_first_split {A : Type} (f : A -> bool) (l : list A) (x : A) :
  find f l = Some x ->
  f x = true /\
  exists before after,
    l = before ++ x :: after /\ Forall (fun y => f y = false) before.
Proof.
  induction l as [|y l IH]; cbn; [discriminate|].
  destruct (f y) eqn:Ey.
  - intros [= ->]. split; [assumption|]. now exists [], l.
  - intros H. destruct (IH H) as (Hx & before & after & -> & Hb).
    split; [assumption|]. exists (y :: before), after. split; [reflexivity|].
    now constructor.
Qed.

(** The search returns the first entry with a code, or [None] when it ran
    through the list without raising. *)
Lemma next_sni_spec (items : list json) (main_sni : json) :
  next_sni items = Ok main_sni ->
  match find has_code items with
  | Some entry => main_sni = entry
  | None => main_sni = JNull
  end.
Proof.
  induction items as [|sni rest IH]; cbn [next_sni find].
  - now intros [= <-].
  - destruct sni as [| | | | |fields]; try discriminate.
    cbn [get bind has_code].
    destruct (assoc "kod" fields) as [[| | |s| |]|]; cbn; try discriminate; try exact IH.
    destruct (String.eqb_spec (Py.strip s) "") as [Hblank|Hcode]; cbn; [exact IH|].
    destruct (String.eqb_spec s "     ") as [->|_]; cbn.
    + now contradiction Hcode.
    + now intros [= <-].
Qed.

Lemma extract_sni_spec (org nar : list (string * json)) (items : list json) parsed parsed' :
  assoc "naringsgrenOrganisation" org = Some (JObj nar) ->
  assoc "sni" nar = Some (JArr items) ->
  items <> [] ->
  extract_sni (JObj org) parsed = Ok parsed' ->
  match find has_code items with
  | Some entry =>
      parsed' = <["sni_description" := field "klartext" entry]>
                  (<["sni_code" := field "kod" entry]> parsed)
  | None => parsed' = parsed
  end.
Proof.
  intros Hnar Hsni Hne. unfold extract_sni. cbn [get bind]. rewrite Hnar.
  cbn [from_option id]. destruct nar as [|kv nar']; [discriminate|].
  unfold and_then. cbn [truthy contains bind].
  rewrite bool_decide_eq_true_2 by (rewrite Hsni; eauto).
  cbn [get bind]. rewrite Hsni. cbn [from_option id].
  destruct items as [|x items']; [congruence|]. cbn [truthy iter bind].
  destruct (next_sni (x :: items')) as [main_sni|] eqn:E; cbn [bind]; [|discriminate].
  intros H.
  apply next_sni_spec in E.
  destruct (find has_code (x :: items')) as [entry|] eqn:F.
  - subst main_sni. apply find_some in F as [_ Hc].
    destruct entry as [| | | | |fields]; try discriminate Hc.
    destruct fields as [|f fields]; [discriminate Hc|].
    cbn [truthy get bind] in H. now injection H as <-.
  - subst main_sni. cbn [truthy] in H. now injection H as <-.
Qed.

(** C8.  When a response is parsed with status success and the
    classification list of its first entity is a non-empty list, the record
    takes [sni_code] and [sni_description] from the first entry of the list
    whose [kod] is a string that is not blank after stripping; when no entry
    has such a code the record has neither field. *)
Theorem sni_selects_first_coded now (api_response : gmap string json) rec items :
  parse_organisation_data now api_response = Ok rec ->
  rec !! "api_status" = Some (JStr "success") ->
  sni_entries api_response = Some items ->
  items <> [] ->
  match find has_code items with
  | Some entry =>
      rec !! "sni_code" = Some (field "kod" entry) /\
      rec !! "sni_description" = Some (field "klartext" entry) /\
      has_code entry = true /\
      exists before after,
        items = before ++ entry :: after /\
        Forall (fun e => has_code e = false) before
  | None => rec !! "sni_code" = None /\ rec !! "sni_description" = None
  end.
Proof.
  intros Hparse Hstatus Hitems Hne.
  unfold parse_organisation_data in Hparse.
  destruct (getitem api_response "status") as [status|] eqn:Est; [|discriminate Hparse].
  cbn [bind] in Hparse.
  destruct (eq_str status "success") eqn:Eeq; cbn [negb] in Hparse.
  2:{ destruct (getitem api_response "org_number"); [|discriminate Hparse].
      cbn [bind] in Hparse. injection Hparse as <-.
      rewrite lookup_insert_ne, lookup_insert_eq in Hstatus by discriminate.
      injection Hstatus as ->. discriminate Eeq. }
  destruct (extract now api_response) as [parsed|e] eqn:E.
  2:{ destruct (getitem api_response "org_number"); [|discriminate Hparse].
      cbn [bind] in Hparse. injection Hparse as <-. unfold parse_error_record in Hstatus.
      rewrite lookup_insert_ne, lookup_insert_eq in Hstatus by discriminate.
      discriminate Hstatus. }
  injection Hparse as ->.
  unfold sni_entries in Hitems.
  destruct (api_response !! "data") as [[| | | | |data]|] eqn:Hdata; try discriminate Hitems.
  destruct (assoc "organisationer" data) as [[| | | |[|[| | | | |org] orgs]|]|] eqn:Horgs;
    try discriminate Hitems.
  destruct (assoc "naringsgrenOrganisation" org) as [[| | | | |nar]|] eqn:Hnar;
    try discriminate Hitems.
  destruct (assoc "sni" nar) as [[| | | |items'|]|] eqn:Hsni; try discriminate Hitems.
  injection Hitems as ->.
  unfold extract in E. rewrite (getitem_Some _ _ _ Hdata) in E.
  cbn [bind get] in E. rewrite Horgs in E.
  cbn [from_option id truthy negb getitem0 bind] in E.
  destruct (getitem api_response "org_number") as [ident|];
    cbn [bind] in E; [|discriminate E].
  destruct (get (JObj org) "avregistreradOrganisation" JNull) as [avregistrerad|];
    cbn [bind] in E; [|discriminate E].
  destruct (extract_legal_form _ _) as [p1|] eqn:E1; cbn [bind] in E; [|discriminate E].
  destruct (extract_name _ _) as [p2|] eqn:E2; cbn [bind] in E; [|discriminate E].
  destruct (extract_address _ _) as [p3|] eqn:E3; cbn [bind] in E; [|discriminate E].
  destruct (extract_sni _ _) as [p4|] eqn:E4; cbn [bind] in E; [|discriminate E].
  pose proof (extract_sni_spec _ _ _ _ _ Hnar Hsni Hne E4) as Hspec.
  assert (Hnone : forall k, k = "sni_code" \/ k = "sni_description" -> p3 !! k = None).
  { intros k Hk.
    rewrite (extract_address_frame _ _ _ k E3) by (destruct Hk as [->| ->]; repeat split; discriminate).
    rewrite (extract_name_frame _ _ _ k E2) by (destruct Hk as [->| ->]; discriminate).
    rewrite (extract_legal_form_frame _ _ _ k E1) by (destruct Hk as [->| ->]; split; discriminate).
    rewrite !lookup_insert_ne by (destruct Hk as [->| ->]; discriminate).
    apply lookup_singleton_ne. destruct Hk as [->| ->]; discriminate. }
  rewrite (extract_registration_frame _ _ _ "sni_code" E) by (split; discriminate).
  rewrite (extract_registration_frame _ _ _ "sni_description" E) by (split; discriminate).
  destruct (find has_code items) as [entry|] eqn:F.
  - subst p4. rewrite lookup_insert_ne, lookup_insert_eq by discriminate.
    rewrite lookup_insert_eq.
    destruct (find_first_split _ _ _ F) as [Hc Hsplit]. auto.
  - subst p4. split; apply Hnone; auto.
Qed.

End ParserFacts.

(** The example of the specification: the blank placeholder is passed over
    and the record takes code 62.01 with description X. *)
Example parse_blank_then_coded :
  match Parser.parse_organisation_data "2025-01-01T10:00:00"
          ParserSamples.blank_then_coded with
  | Json.Ok rec =>
      [rec !! "api_status"; rec !! "sni_code"; rec !! "sni_description";
       rec !! "organisation_name"; rec !! "is_active"; rec !! "is_deregistered"]
  | Json.Raise _ => []
  end
  = [Some (Json.JStr "success"); Some (Json.JStr "62.01"); Some (Json.JStr "X");
     Some (Json.JStr "Acme Kredit AB"); Some (Json.JBool true);
     Some (Json.JBool false)].
Proof. vm_compute. reflexivity. Qed.

(** A null entity makes the extraction raise; the parser returns the
    parse_error record. *)
Example parse_null_entity :
  match Parser.parse_organisation_data "2025-01-01T10:00:00"
          ParserSamples.null_entity with
  | Json.Ok rec => [rec !! "org_number"; rec !! "api_status"; rec !! "error"]
  | Json.Raise _ => []
  end
  = [Some (Json.JStr "5560005678"); Some (Json.JStr "parse_error");
     Some (Json.JStr "Parse error: 'NoneType' object has no attribute 'get'")].
Proof. vm_compute. reflexivity. Qed.

Example parse_not_found :
  match Parser.parse_organisation_data "2025-01-01T10:00:00"
          ParserSamples.not_found with
  | Json.Ok rec => [rec !! "org_number"; rec !! "api_status"; rec !! "error"]
  | Json.Raise _ => []
  end
  = [Some (Json.JStr "5560005678"); Some (Json.JStr "error");
     Some (Json.JStr "Not Found")].
Proof. vm_compute. reflexivity. Qed.

Lemma parse_never_raises_witness :
  exists rec,
    Parser.parse_organisation_data "2025-01-01T10:00:00" ParserSamples.null_entity
    = Json.Ok rec /\
    rec !! "org_number" = Some (Json.JStr "5560005678") /\
    rec = Parser.parse_error_record (Json.JStr "5560005678")
            (Json.AttributeError "NoneType" "get").
Proof.
  assert (H1 : ParserSamples.null_entity !! "org_number"
               = Some (Json.JStr "5560005678")) by (vm_compute; reflexivity).
  assert (H2 : ParserSamples.null_entity !! "status"
               = Some (Json.JStr "success")) by (vm_compute; reflexivity).
  assert (H3 : "success" ∈ ["success"; "error"; "exception"])
    by (rewrite !elem_of_cons; tauto).
  assert (H4 : Parser.extract "2025-01-01T10:00:00" ParserSamples.null_entity
               = Json.Raise (Json.AttributeError "NoneType" "get"))
    by (vm_compute; reflexivity).
  destruct (parse_never_raises "2025-01-01T10:00:00" ParserSamples.null_entity
              (Json.JStr "5560005678") "success" H1 H2 H3)
    as (rec & Hparse & Hid & _ & _ & Herr).
  exists rec. split; [exact Hparse|]. split; [exact Hid|].
  exact (proj1 (Herr _ eq_refl H4)).
Defined.

Lemma sni_selects_first_coded_witness :
  Parser.parse_organisation_data "2025-01-01T10:00:00" ParserSamples.blank_then_coded
  = Json.Ok ParserSamples.blank_then_coded_record /\
  ParserSamples.blank_then_coded_record !! "sni_code" = Some (Json.JStr "62.01") /\
  ParserSamples.blank_then_coded_record !! "sni_description" = Some (Json.JStr "X").
Proof.
  assert (E : Parser.parse_organisation_data "2025-01-01T10:00:00"
                ParserSamples.blank_then_coded
              = Json.Ok ParserSamples.blank_then_coded_record)
    by (vm_cast_no_check (eq_refl (Json.Ok ParserSamples.blank_then_coded_record))).
  assert (Hs : ParserSamples.blank_then_coded_record !! "api_status"
               = Some (Json.JStr "success")) by (vm_compute; reflexivity).
  assert (Hi : Parser.sni_entries ParserSamples.blank_then_coded
               = Some ParserSamples.blank_then_coded_sni)
    by (vm_compute; reflexivity).
  assert (Hne : ParserSamples.blank_then_coded_sni <> []) by discriminate.
  assert (Hf : find Parser.has_code ParserSamples.blank_then_coded_sni
               = Some (Json.JObj [("kod", Json.JStr "62.01");
                                  ("klartext", Json.JStr "X")]))
    by (vm_compute; reflexivity).
  pose proof (sni_selects_first_coded "2025-01-01T10:00:00"
                ParserSamples.blank_then_coded
                ParserSamples.blank_then_coded_record
                ParserSamples.blank_then_coded_sni E Hs Hi Hne) as H.
  rewrite Hf in H. destruct H as (H1 & H2 & _).
  split; [exact E|]. split; [exact H1|exact H2].
Defined.


(** ** Reconciliation *)

Section FrameFacts.
Import Py Frame.

Lemma index_of_lt c cols i : index_of c cols = Some i -> (i < length cols)%nat.
Proof.
  revert i. induction cols as [|c' cols IH]; intros i; cbn; [discriminate|].
  destruct (String.eqb c' c).
  - intros [= <-]. lia.
  - destruct (index_of c cols) as [j|]; [|discriminate].
    intros [= <-]. specialize (IH j eq_refl). lia.
Qed.

Lemma index_of_app_l c cols more i :
  index_of c cols = Some i -> index_of c (cols ++ more) = Some i.
Proof.
  revert i. induction cols as [|c' cols IH]; intros i; cbn; [discriminate|].
  destruct (String.eqb c' c); [trivial|].
  destruct (index_of c cols) as [j|]; [|discriminate].
  intros [= <-]. now rewrite (IH j eq_refl).
Qed.

Lemma length_fit w r : length (fit w r) = w.
Proof.
  unfold fit. rewrite length_take, length_app, repeat_length. lia.
Qed.

Lemma fit_id w r : length r = w -> fit w r = r.
Proof.
  intros <-. unfold fit. now rewrite take_app_length.
Qed.

Lemma cell_at_insert i v r : (i < length r)%nat -> cell_at i (<[i := v]> r) = v.
Proof.
  intros Hi. unfold cell_at. apply nth_lookup_Some with (d := CNaN).
  now apply list_lookup_insert_eq.
Qed.

Lemma cell_at_repeat i n : cell_at i (repeat CNaN n) = CNaN.
Proof.
  unfold cell_at. revert i. induction n as [|n IH]; intros [|i]; cbn; auto.
Qed.

(** Rewriting a column through a function of its cells. *)
Lemma set_column_map df c i f :
  index_of c (columns df) = Some i ->
  set_column df c (map f (map (cell_at i) (rows df)))
  = {| columns := columns df;
       rows := map (fun r => <[i := f (cell_at i r)]> (fit (length (columns df)) r))
                   (rows df) |}.
Proof.
  intros Hi. unfold set_column. rewrite Hi. f_equal.
  induction (rows df) as [|r rs IH]; cbn; [reflexivity|]. now rewrite IH.
Qed.

(** Membership in a left join. *)
Lemma elem_of_left_join_rows lw rw li ri (L R : list (list cell)) row :
  row ∈ left_join_rows lw rw li ri L R <->
  exists l, l ∈ L /\
    (((forall r, r ∈ R -> cell_at ri r <> cell_at li l) /\
      row = fit lw l ++ repeat CNaN rw) \/
     (exists r, r ∈ R /\ cell_at ri r = cell_at li l /\ row = fit lw l ++ fit rw r)).
Proof.
  unfold left_join_rows. rewrite list_elem_of_In, in_flat_map.
  split.
  - intros (l & Hl & Hrow). exists l. split; [now apply list_elem_of_In|].
    destruct (filter _ R) as [|m ms] eqn:F.
    + left. split.
      * intros r Hr Heq.
        assert (r ∈ filter (fun r => cell_at ri r = cell_at li l) R)
          by (apply list_elem_of_filter; auto).
        rewrite F in H. inversion H.
      * destruct Hrow as [<-|[]]. reflexivity.
    + right. apply in_map_iff in Hrow as (r & <- & Hr).
      apply list_elem_of_In in Hr. rewrite <- F in Hr.
      apply list_elem_of_filter in Hr as [Heq Hr]. eauto.
  - intros (l & Hl & Hcase). exists l. split; [now apply list_elem_of_In|].
    destruct Hcase as [[Hnone ->]|(r & Hr & Heq & ->)].
    + destruct (filter _ R) as [|m ms] eqn:F; [now left|].
      exfalso. assert (Hm : m ∈ filter (fun r => cell_at ri r = cell_at li l) R)
        by (rewrite F; now left).
      apply list_elem_of_filter in Hm as [Heq Hm]. exact (Hnone m Hm Heq).
    + assert (Hin : r ∈ filter (fun r => cell_at ri r = cell_at li l) R)
        by (apply list_elem_of_filter; auto).
      destruct (filter _ R) as [|m ms] eqn:F; [inversion Hin|].
      apply in_map_iff. exists r. split; [reflexivity|]. now apply list_elem_of_In.
Qed.

End FrameFacts.

Section StringFacts.
Import Py.

Lemma occurs_remove_char c s : occurs c (remove_char c s) = false.
Proof.
  induction s as [|d r IH]; cbn; [reflexivity|].
  destruct (Ascii.eqb c d) eqn:E; [exact IH|]. cbn. now rewrite E.
Qed.

Lemma occurs_lstrip c s : occurs c s = false -> occurs c (lstrip s) = false.
Proof.
  induction s as [|d r IH]; cbn; [trivial|].
  intros H. apply orb_false_iff in H as [Hd Hr].
  destruct (isspace d); [auto|]. cbn. now rewrite Hd, Hr.
Qed.

Lemma occurs_rstrip c s : occurs c s = false -> occurs c (rstrip s) = false.
Proof.
  induction s as [|d r IH]; cbn; [trivial|].
  intros H. apply orb_false_iff in H as [Hd Hr]. specialize (IH Hr).
  destruct (rstrip r) as [|e r'].
  - destruct (isspace d); cbn; [reflexivity|]. now rewrite Hd.
  - cbn in *. now rewrite Hd, IH.
Qed.

Lemma rstrip_idem s : rstrip (rstrip s) = rstrip s.
Proof.
  induction s as [|d r IH]; cbn; [reflexivity|].
  destruct (rstrip r) as [|e r'] eqn:E.
  - destruct (isspace d) eqn:Hd; cbn; [reflexivity|]. now rewrite Hd.
  - cbn in IH |- *. now rewrite IH.
Qed.

Lemma lstrip_head s :
  match lstrip s with
  | String d _ => isspace d = false
  | EmptyString => True
  end.
Proof.
  induction s as [|d r IH]; cbn; [trivial|].
  destruct (isspace d) eqn:Hd; [exact IH|exact Hd].
Qed.

Lemma lstrip_rstrip_fixed s :
  match s with String d _ => isspace d = false | EmptyString => True end ->
  lstrip (rstrip s) = rstrip s.
Proof.
  destruct s as [|d r]; cbn; [trivial|]. intros Hd.
  destruct (rstrip r); rewrite ?Hd; cbn; now rewrite Hd.
Qed.

Lemma strip_idem s : strip (strip s) = strip s.
Proof.
  unfold strip. rewrite (lstrip_rstrip_fixed (lstrip s)) by apply lstrip_head.
  apply rstrip_idem.
Qed.

End StringFacts.

Section ReconcileFacts.
Import Py Frame Reconcile.
Variable to_numeric : cell -> numeric.

Local Abbreviation merge_body := (Reconcile.merge_body to_numeric).
Local Abbreviation merge_with_finansinspektionen_data :=
  (Reconcile.merge_with_finansinspektionen_data to_numeric).
Local Abbreviation normalize_secondary_key :=
  (Reconcile.normalize_secondary_key to_numeric).
Local Abbreviation secondary_rows := (Reconcile.secondary_rows to_numeric).
Local Abbreviation secondary_number := (Reconcile.secondary_number to_numeric).

(** The fetched identifier after normalisation: a string without hyphens
    and without leading or trailing whitespace. *)
Lemma normalize_org_number_clean v :
  exists s, normalize_org_number v = CStr s /\
            occurs "-" s = false /\ strip s = s.
Proof.
  eexists. split; [reflexivity|]. split.
  - unfold strip. apply occurs_rstrip, occurs_lstrip, occurs_remove_char.
  - apply strip_idem.
Qed.

(** The secondary key after normalisation: the decimal numeral of the
    number read from the cell, and [0] for a cell that is not a number. *)
Lemma normalize_secondary_key_numeral v :
  (forall z, to_numeric v = Finite z -> normalize_secondary_key v = CStr (str_int z)) /\
  (to_numeric v = NotANumber -> normalize_secondary_key v = CStr "0").
Proof.
  unfold Reconcile.normalize_secondary_key, Reconcile.secondary_number.
  split; [intros z ->|intros ->]; reflexivity.
Qed.



(** When the cast succeeds, the column written back holds the normalised
    key of every cell. *)
Lemma secondary_cast_Some keys numbers :
  mapM secondary_number keys = Some numbers ->
  map (fun z => CStr (str_int z)) numbers = map normalize_secondary_key keys.
Proof.
  intros H. apply mapM_Some_1 in H.
  induction H as [|v z keys numbers Hv _ IH]; [reflexivity|].
  cbn [map]. unfold Reconcile.normalize_secondary_key at 1. rewrite Hv. cbn [default].
  now rewrite IH.
Qed.

(** A run of the [try] block that reaches its [return]. *)
Lemma merge_body_inr fi_df bolagsverket_df after merged_df :
  merge_body (Some fi_df) bolagsverket_df = (after, inr merged_df) ->
  exists li ri,
    index_of "CorporateID_Clean" (columns fi_df) = Some li /\
    index_of "org_number" (columns bolagsverket_df) = Some ri /\
    after = {| columns := columns bolagsverket_df;
               rows := fetched_rows ri bolagsverket_df |} /\
    merged_df =
      {| columns := columns fi_df
                    ++ map (right_label (columns fi_df) "_bolagsverket")
                           (columns bolagsverket_df);
         rows := left_join_rows (length (columns fi_df))
                   (length (columns bolagsverket_df)) li ri
                   (secondary_rows li fi_df) (fetched_rows ri bolagsverket_df) |} /\
    is_Some (index_of "api_status" (columns merged_df)).
Proof.
  unfold Reconcile.merge_body, column.
  destruct (index_of "CorporateID_Clean" (columns fi_df)) as [li|] eqn:Hli;
    [|discriminate].
  destruct (mapM secondary_number (map (cell_at li) (rows fi_df)))
    as [numbers|] eqn:Hcast; [|discriminate].
  rewrite (secondary_cast_Some _ _ Hcast).
  destruct (index_of "org_number" (columns bolagsverket_df)) as [ri|] eqn:Hri;
    [|discriminate].
  rewrite (set_column_map _ _ _ _ Hli), (set_column_map _ _ _ _ Hri).
  unfold merge_left. cbn [columns rows]. rewrite Hli, Hri.
  destruct (suffix_duplicates _ _); [|discriminate].
  cbn [columns rows].
  destruct (index_of "api_status" _) as [si|] eqn:Hsi; [|discriminate].
  intros [= <- <-]. exists li, ri. cbn [columns]. rewrite Hsi.
  repeat split; eauto.
Qed.

Lemma secondary_rows_spec li fi_df l :
  index_of "CorporateID_Clean" (columns fi_df) = Some li ->
  l ∈ secondary_rows li fi_df ->
  length l = length (columns fi_df) /\
  exists l0, l0 ∈ rows fi_df /\
             cell_at li l = normalize_secondary_key (cell_at li l0).
Proof.
  intros Hli Hl. apply index_of_lt in Hli.
  apply list_elem_of_fmap in Hl as (l0 & -> & Hl0).
  rewrite length_insert, length_fit. split; [reflexivity|].
  exists l0. split; [assumption|]. apply cell_at_insert. now rewrite length_fit.
Qed.

Lemma fetched_rows_spec ri bolagsverket_df r :
  index_of "org_number" (columns bolagsverket_df) = Some ri ->
  r ∈ fetched_rows ri bolagsverket_df ->
  length r = length (columns bolagsverket_df) /\
  exists r0, r0 ∈ rows bolagsverket_df /\
             cell_at ri r = normalize_org_number (cell_at ri r0).
Proof.
  intros Hri Hr. apply index_of_lt in Hri.
  apply list_elem_of_fmap in Hr as (r0 & -> & Hr0).
  rewrite length_insert, length_fit. split; [reflexivity|].
  exists r0. split; [assumption|]. apply cell_at_insert. now rewrite length_fit.
Qed.

(** C1 (amended).  When the merge step returns the merged frame, that frame
    is the left join of the secondary frame with the fetched frame on their
    normalised keys: a row belongs to it exactly when it is a secondary row
    followed by a fetched row of equal key, or a secondary row without such
    a fetched row followed by [nan] cells.  So every secondary row is kept,
    secondary-only rows carry null fetched fields, and a fetched row is
    present only next to a secondary row of its key.  The fetched key is
    normalised by removing hyphens and stripping surrounding whitespace,
    the secondary key by reading it as a number and writing the numeral
    ([normalize_secondary_key]). *)
Theorem reconcile_is_left_join fi_df bolagsverket_df after merged_df :
  merge_body (Some fi_df) bolagsverket_df = (after, inr merged_df) ->
  merge_with_finansinspektionen_data bolagsverket_df (Some fi_df) = merged_df /\
  exists li ri,
    index_of "CorporateID_Clean" (columns fi_df) = Some li /\
    index_of "org_number" (columns bolagsverket_df) = Some ri /\
    (forall row,
       row ∈ rows merged_df <->
       exists l, l ∈ secondary_rows li fi_df /\
         (((forall r, r ∈ fetched_rows ri bolagsverket_df ->
                      cell_at ri r <> cell_at li l) /\
           row = l ++ repeat CNaN (length (columns bolagsverket_df))) \/
          (exists r, r ∈ fetched_rows ri bolagsverket_df /\
                     cell_at ri r = cell_at li l /\ row = l ++ r))) /\
    (forall l, l ∈ secondary_rows li fi_df ->
       exists row, row ∈ rows merged_df /\ take (length (columns fi_df)) row = l) /\
    (forall l, l ∈ secondary_rows li fi_df ->
       (forall r, r ∈ fetched_rows ri bolagsverket_df -> cell_at ri r <> cell_at li l) ->
       l ++ repeat CNaN (length (columns bolagsverket_df)) ∈ rows merged_df) /\
    (forall row r,
       row ∈ rows merged_df -> r ∈ fetched_rows ri bolagsverket_df ->
       drop (length (columns fi_df)) row = r ->
       exists l, l ∈ secondary_rows li fi_df /\ cell_at li l = cell_at ri r) /\
    (forall l, l ∈ secondary_rows li fi_df ->
       exists l0, l0 ∈ rows fi_df /\
                  cell_at li l = normalize_secondary_key (cell_at li l0)) /\
    (forall r, r ∈ fetched_rows ri bolagsverket_df ->
       exists r0, r0 ∈ rows bolagsverket_df /\
                  cell_at ri r = normalize_org_number (cell_at ri r0)).
Proof.
  intros Hbody. split.
  { unfold Reconcile.merge_with_finansinspektionen_data. now rewrite Hbody. }
  destruct (merge_body_inr _ _ _ _ Hbody) as (li & ri & Hli & Hri & _ & -> & _).
  exists li, ri. split; [assumption|]. split; [assumption|]. cbn [rows].
  assert (Hiff : forall row,
    row ∈ left_join_rows (length (columns fi_df)) (length (columns bolagsverket_df))
            li ri (secondary_rows li fi_df) (fetched_rows ri bolagsverket_df) <->
    exists l, l ∈ secondary_rows li fi_df /\
      (((forall r, r ∈ fetched_rows ri bolagsverket_df -> cell_at ri r <> cell_at li l) /\
        row = l ++ repeat CNaN (length (columns bolagsverket_df))) \/
       (exists r, r ∈ fetched_rows ri bolagsverket_df /\
                  cell_at ri r = cell_at li l /\ row = l ++ r))).
  { intros row. rewrite elem_of_left_join_rows. split.
    - intros (l & Hl & Hcase). exists l. split; [assumption|].
      destruct (secondary_rows_spec _ _ _ Hli Hl) as [Hlen _].
      rewrite (fit_id _ _ Hlen) in Hcase.
      destruct Hcase as [Hcase|(r & Hr & Heq & ->)]; [now left|right].
      destruct (fetched_rows_spec _ _ _ Hri Hr) as [Hlenr _].
      rewrite (fit_id _ _ Hlenr). eauto.
    - intros (l & Hl & Hcase). exists l. split; [assumption|].
      destruct (secondary_rows_spec _ _ _ Hli Hl) as [Hlen _].
      rewrite (fit_id _ _ Hlen).
      destruct Hcase as [Hcase|(r & Hr & Heq & ->)]; [now left|right].
      destruct (fetched_rows_spec _ _ _ Hri Hr) as [Hlenr _].
      exists r. rewrite (fit_id _ _ Hlenr). auto. }
  split; [exact Hiff|]. split; [|split; [|split; [|split]]].
  - intros l Hl. destruct (secondary_rows_spec _ _ _ Hli Hl) as [Hlen _].
    destruct (filter (fun r => cell_at ri r = cell_at li l)
                     (fetched_rows ri bolagsverket_df)) as [|r rs] eqn:F.
    + exists (l ++ repeat CNaN (length (columns bolagsverket_df))). split.
      * apply Hiff. exists l. split; [assumption|]. left. split; [|reflexivity].
        intros r Hr Heq.
        assert (Hin : r ∈ filter (fun r => cell_at ri r = cell_at li l)
                            (fetched_rows ri bolagsverket_df))
          by (apply list_elem_of_filter; auto).
        rewrite F in Hin. inversion Hin.
      * now rewrite <- Hlen, take_app_length.
    + assert (Hin : r ∈ filter (fun r => cell_at ri r = cell_at li l)
                          (fetched_rows ri bolagsverket_df))
        by (rewrite F; now left).
      apply list_elem_of_filter in Hin as [Heq Hr].
      exists (l ++ r). split; [apply Hiff; eauto 7|].
      now rewrite <- Hlen, take_app_length.
  - intros l Hl Hnone. apply Hiff. eauto.
  - intros row r Hrow Hr Hdrop. apply Hiff in Hrow as (l & Hl & Hcase).
    destruct (secondary_rows_spec _ _ _ Hli Hl) as [Hlen _].
    exists l. split; [assumption|].
    destruct Hcase as [[_ ->]|(r' & Hr' & Heq & ->)];
      rewrite <- Hlen, drop_app_length in Hdrop; subst r.
    + destruct (fetched_rows_spec _ _ _ Hri Hr) as [_ (r0 & _ & Hkey)].
      rewrite cell_at_repeat in Hkey. discriminate Hkey.
    + now symmetry.
  - intros l Hl. now destruct (secondary_rows_spec _ _ _ Hli Hl).
  - intros r Hr. now destruct (fetched_rows_spec _ _ _ Hri Hr).
Qed.



End ReconcileFacts.

(** C1 (as stated) fails: a secondary key written 1234-5678 is not
    stripped of its hyphen but read as a number, which it is not, and
    becomes 0; the fetched identifier 1234-5678 becomes 12345678, so the
    two do not meet and the merged row has null fetched fields, where the
    join on identifiers stripped of separators pairs them. *)
Lemma reconcile_hyphenated_key_unmatched :
  Frame.rows
    (Reconcile.merge_with_finansinspektionen_data ReconcileSamples.to_numeric
       ReconcileSamples.fetched_hyphenated (Some ReconcileSamples.fi_hyphenated))
  = [[Py.CStr "0"; Py.CStr "Bank"; Py.CNaN; Py.CNaN]]
  /\
  Frame.rows <$>
    Reconcile.spec_reconcile ReconcileSamples.fetched_hyphenated
      ReconcileSamples.fi_hyphenated
  = Some [[Py.CStr "12345678"; Py.CStr "Bank"; Py.CStr "12345678"; Py.CStr "success"]].
Proof. split; vm_compute; reflexivity. Qed.

(** A join of two secondary companies with two fetched records: the
    company fetched under 556000-1234 is matched, the secondary company
    without a record keeps null fetched fields, and the record fetched
    for a company outside the secondary file is gone. *)
Lemma reconcile_is_left_join_witness :
  Reconcile.merge_with_finansinspektionen_data ReconcileSamples.to_numeric
    ReconcileSamples.fetched_two (Some ReconcileSamples.fi_two)
  = {| Frame.columns := ["CorporateID_Clean"; "Category"; "org_number"; "api_status"];
       Frame.rows :=
         [[Py.CStr "5560001234"; Py.CStr "Bank"; Py.CStr "5560001234"; Py.CStr "success"];
          [Py.CStr "5560009999"; Py.CStr "Kreditinstitut"; Py.CNaN; Py.CNaN]] |}.
Proof.
  refine (proj1 (reconcile_is_left_join ReconcileSamples.to_numeric
                   ReconcileSamples.fi_two ReconcileSamples.fetched_two
                   {| Frame.columns := ["org_number"; "api_status"];
                      Frame.rows := [[Py.CStr "5560001234"; Py.CStr "success"];
                                     [Py.CStr "5560005678"; Py.CStr "error"]] |}
                   _ _)).
  vm_compute. reflexivity.
Defined.



(** A secondary key that reads as an infinity: the cast raises before the
    identifiers are rewritten, and the fetched frame comes back as it
    was. *)
Example merge_cast_failure :
  (Reconcile.merge_body ReconcileSamples.to_numeric
     (Some ReconcileSamples.fi_infinite) ReconcileSamples.fetched_without_status).2
  = inl Reconcile.SecondaryCast
  /\
  Reconcile.merge_with_finansinspektionen_data ReconcileSamples.to_numeric
    ReconcileSamples.fetched_without_status (Some ReconcileSamples.fi_infinite)
  = ReconcileSamples.fetched_without_status.
Proof. split; vm_compute; reflexivity. Qed.

(** The progress line after the join reads [merged_df['api_status']]; when
    neither frame has that column the [except] branch runs after
    [org_number] was rewritten, and the frame returned shows the rewritten
    identifiers. *)
Example merge_report_failure :
  (Reconcile.merge_body ReconcileSamples.to_numeric
     (Some ReconcileSamples.fi_two) ReconcileSamples.fetched_without_status).2
  = inl Reconcile.Report
  /\
  Reconcile.merge_with_finansinspektionen_data ReconcileSamples.to_numeric
    ReconcileSamples.fetched_without_status (Some ReconcileSamples.fi_two)
  = {| Frame.columns := ["org_number"; "organisation_name"];
       Frame.rows := [[Py.CStr "5560001234"; Py.CStr "Acme Kredit AB"]] |}.
Proof. split; vm_compute; reflexivity. Qed.

(** ** The token manager *)

Section TokenManagerFacts.
Import TokenManager.

Lemma set_call_lookup t p s t' q :
  set_call t p s !! t' = Some q ->
  (t' = t /\ q = p) \/ (t' <> t /\ calls s !! t' = Some q).
Proof.
  unfold set_call. intros H. apply list_lookup_insert_Some in H.
  destruct H as [(-> & -> & _)|[Hne H]]; [left|right]; auto.
Qed.

Ltac step_cases H :=
  match type of H with
  | step ?s ?e = Some _ =>
      unfold step in H; destruct e as [t|t|t [tok life|code]|d];
      repeat match type of H with
        | match ?x with _ => _ end = Some _ => destruct x eqn:?; try discriminate H
        | (if ?b then _ else _) = Some _ => destruct b eqn:?; try discriminate H
        end;
      injection H as <-
  end.

Lemma step_lock_held_by_block s e s' :
  lock_held_by_block s -> step s e = Some s' -> lock_held_by_block s'.
Proof.
  intros Hinv Hstep. step_cases Hstep; intros t' q Hq Hin; cbn in *;
    try (apply set_call_lookup in Hq as [[-> ->]|[Hne Hq]]);
    try discriminate Hin; try reflexivity; eauto.
  all: try (pose proof (Hinv _ _ Hq Hin) as Hl; congruence).
  all: match goal with
       | Ht : calls _ !! ?t0 = Some ?p |- _ =>
           pose proof (Hinv t0 p Ht eq_refl) as Hl1;
           pose proof (Hinv _ _ Hq Hin) as Hl2; congruence
       end.
Qed.

Lemma start_lock_held_by_block tok expiry now n :
  lock_held_by_block (start tok expiry now n).
Proof.
  intros t p Hp Hin. cbn in Hp. apply lookup_replicate in Hp as [-> _].
  discriminate Hin.
Qed.

Lemma run_invariant (P : state -> Prop) :
  (forall s e s', P s -> step s e = Some s' -> P s') ->
  forall events s s', P s -> run s events = Some s' -> P s'.
Proof.
  intros Hstep. induction events as [|e rest IH]; intros s s' Hs; cbn.
  - now intros [= <-].
  - destruct (step s e) as [s1|] eqn:E; [|discriminate].
    apply IH. eapply Hstep; eauto.
Qed.

Lemma filter_at_most_one (l : list pc) :
  (forall i j, l !! i = Some Exchanging -> l !! j = Some Exchanging -> i = j) ->
  (length (List.filter is_exchanging l) <= 1)%nat.
Proof.
  induction l as [|p l IH]; intros H; cbn; [lia|].
  assert (Htail : forall i j, l !! i = Some Exchanging -> l !! j = Some Exchanging -> i = j).
  { intros i j Hi Hj. specialize (H (S i) (S j) Hi Hj). lia. }
  destruct p; cbn; auto.
  assert (List.filter is_exchanging l = []) as ->; [|cbn; lia].
  destruct (List.filter is_exchanging l) as [|q qs] eqn:F; [reflexivity|].
  assert (Hq : In q (List.filter is_exchanging l)) by (rewrite F; now left).
  apply filter_In in Hq as [Hq Hex]. destruct q; try discriminate Hex.
  apply list_elem_of_In, list_elem_of_lookup in Hq as [i Hi].
  specialize (H 0%nat (S i) eq_refl Hi). discriminate H.
Qed.

Lemma lock_held_in_flight s : lock_held_by_block s -> (in_flight s <= 1)%nat.
Proof.
  intros Hinv. apply filter_at_most_one. intros i j Hi Hj.
  pose proof (Hinv _ _ Hi eq_refl). pose proof (Hinv _ _ Hj eq_refl). congruence.
Qed.

Lemma set_call_length t p s : length (set_call t p s) = length (calls s).
Proof. apply length_insert. Qed.

Lemma set_call_same t p q s :
  calls s !! t = Some q -> set_call t p s !! t = Some p.
Proof.
  intros H. apply list_lookup_insert_eq. eapply lookup_lt_Some, H.
Qed.

Lemma cache_valid_true tok e now :
  tok <> "" -> 0 < e -> now < e -> cache_valid (Some tok) (Some e) now = true.
Proof.
  intros Htok He Hnow. cbn.
  destruct (String.eqb_spec tok ""); [contradiction|].
  destruct (Z.eqb_spec e 0); [lia|].
  destruct (Z.ltb_spec now e); [reflexivity|lia].
Qed.

(** One step of an interleaving whose exchanges are granted for longer
    than the interleaving lasts. *)
Lemma step_exchange_phase horizon t0 s e s' :
  granted_beyond horizon e = true ->
  0 <= t0 -> t0 <= clock s ->
  clock s + elapsed [e] <= t0 + horizon ->
  lock_held_by_block s ->
  exchange_phase (t0 + horizon) s ->
  step s e = Some s' ->
  exchange_phase (t0 + horizon) s' /\
  clock s' = clock s + elapsed [e] /\
  length (calls s') = length (calls s).
Proof.
  intros Hgr Ht0 Hclock Hbound Hlock Hphase Hstep.
  destruct e as [t|t|t [tok life|code]|d]; cbn in Hstep, Hbound, Hgr.
  - (* Acquire *)
    destruct (calls s !! t) as [[]|] eqn:Ht; try discriminate Hstep.
    destruct (token_lock s) eqn:Hl; [discriminate Hstep|]. injection Hstep as <-.
    cbn. rewrite set_call_length. split; [|split; [lia|reflexivity]].
    destruct Hphase as [(Hr & Hs & Hc)|[(Hr & x & Hx)|(Hr & Hc & Hcache)]].
    + left. split; [assumption|]. split; [exact Hs|].
      intros t' p Hp. apply set_call_lookup in Hp as [[-> ->]|[_ Hp]]; [now split|eauto].
    + pose proof (Hlock _ _ Hx eq_refl). congruence.
    + right. right. split; [assumption|]. split; [|exact Hcache].
      intros t' Hp. apply set_call_lookup in Hp as [[_ [=]]|[_ Hp]]. exact (Hc _ Hp).
  - (* Check *)
    destruct (calls s !! t) as [[]|] eqn:Ht; try discriminate Hstep.
    destruct (cache_valid _ _ _) eqn:Hv; injection Hstep as <-;
      cbn; rewrite set_call_length; (split; [|split; [lia|reflexivity]]).
    + destruct Hphase as [(Hr & Hs & Hc)|[(Hr & x & Hx)|(Hr & Hc & Hcache)]].
      * rewrite (Hs (clock s)) in Hv by lia. discriminate Hv.
      * pose proof (Hlock _ _ Hx eq_refl). pose proof (Hlock _ _ Ht eq_refl).
        congruence.
      * right. right. split; [assumption|]. split; [|exact Hcache].
        intros t' Hp. apply set_call_lookup in Hp as [[_ [=]]|[_ Hp]]. exact (Hc _ Hp).
    + destruct Hphase as [(Hr & Hs & Hc)|[(Hr & x & Hx)|(Hr & Hc & Hcache)]].
      * right. left. cbn. split; [now rewrite Hr|].
        exists t. eapply set_call_same, Ht.
      * pose proof (Hlock _ _ Hx eq_refl). pose proof (Hlock _ _ Ht eq_refl).
        congruence.
      * destruct Hcache as (tok & e & Htok & Hne & He & Hlim).
        rewrite Htok, He, cache_valid_true in Hv by (auto; lia). discriminate Hv.
  - (* Respond, granted *)
    destruct (calls s !! t) as [[]|] eqn:Ht; try discriminate Hstep.
    injection Hstep as <-. cbn. rewrite set_call_length.
    split; [|split; [lia|reflexivity]].
    apply andb_true_iff in Hgr as [Hne Hlife].
    destruct Hphase as [(Hr & Hs & Hc)|[(Hr & x & Hx)|(Hr & Hc & Hcache)]].
    + destruct (Hc _ _ Ht) as [_ [=]].
    + right. right. cbn. split; [assumption|]. split.
      * intros t' Hp. apply set_call_lookup in Hp as [[_ [=]]|[Hne' Hp]].
        pose proof (Hlock _ _ Hp eq_refl). pose proof (Hlock _ _ Ht eq_refl).
        congruence.
      * exists tok, (clock s + (life - margin)).
        split; [reflexivity|]. split.
        -- intros ->. discriminate Hne.
        -- split; [reflexivity|]. apply Z.ltb_lt in Hlife. lia.
    + now destruct (Hc t).
  - discriminate Hgr.
  - (* Tick *)
    destruct (Z.leb_spec 0 d); [|discriminate Hstep]. injection Hstep as <-.
    cbn. split; [|split; [lia|reflexivity]].
    destruct Hphase as [(Hr & Hs & Hc)|[Hb|Hc]]; [left|right; left|right; right];
      try assumption.
    split; [assumption|]. split; [|assumption].
    intros now Hnow. apply Hs. cbn in Hnow. lia.
Qed.

Lemma run_exchange_phase horizon t0 events :
  forall s s',
    forallb (granted_beyond horizon) events = true ->
    0 <= t0 -> t0 <= clock s ->
    clock s + elapsed events <= t0 + horizon ->
    Forall (fun e => match e with Tick d => 0 <= d | _ => True end) events ->
    lock_held_by_block s ->
    exchange_phase (t0 + horizon) s ->
    run s events = Some s' ->
    exchange_phase (t0 + horizon) s' /\ length (calls s') = length (calls s).
Proof.
  induction events as [|e rest IH]; intros s s' Hgr Ht0 Hclock Hbound Hticks Hlock Hphase;
    cbn [run].
  - now intros [= <-].
  - destruct (step s e) as [s1|] eqn:Hstep; [|discriminate].
    cbn in Hgr. apply andb_true_iff in Hgr as [Hg Hgr].
    inversion Hticks as [|? ? Htick Hticks']; subst.
    assert (Hrest : 0 <= elapsed rest).
    { clear -Hticks'. induction Hticks' as [|[] ? ? ? IH']; cbn; lia. }
    assert (He : clock s + elapsed [e] <= t0 + horizon /\ 0 <= elapsed [e]
                 /\ elapsed (e :: rest) = elapsed [e] + elapsed rest).
    { destruct e; cbn in *; lia. }
    destruct He as (He1 & He2 & He3).
    destruct (step_exchange_phase _ _ _ _ _ Hg Ht0 Hclock He1 Hlock Hphase Hstep)
      as (Hphase1 & Hclock1 & Hlen1).
    intros Hrun.
    destruct (IH s1 s' Hgr Ht0 ltac:(lia) ltac:(lia) Hticks'
                (step_lock_held_by_block _ _ _ Hlock Hstep) Hphase1 Hrun)
      as [Hfinal Hlen].
    split; [exact Hfinal|congruence].
Qed.

(** The ticks of an interleaving that runs are not negative. *)
Lemma run_ticks events :
  forall s s', run s events = Some s' ->
  Forall (fun e => match e with Tick d => 0 <= d | _ => True end) events.
Proof.
  induction events as [|e rest IH]; intros s s'; cbn [run]; [constructor|].
  destruct (step s e) as [s1|] eqn:Hstep; [|discriminate].
  intros Hrun. constructor; [|eapply IH, Hrun].
  destruct e; trivial. cbn in Hstep. destruct (Z.leb_spec 0 d); [assumption|discriminate].
Qed.

(** C3 (amended).  In every interleaving of [n] calls, at every moment at
    most one exchange request is in flight.  When at least one call is
    made at a time [now >= 0] at which the cached credential is of no use,
    every exchange of the interleaving is granted with a token that is not
    empty and a lifetime that exceeds the margin by more than the time the
    interleaving takes, and all calls have come back, then exactly one
    exchange request was sent. *)
Theorem token_single_flight tok expiry now n events s :
  run (start tok expiry now n) events = Some s ->
  (in_flight s <= 1)%nat /\
  (forall horizon,
     (1 <= n)%nat -> 0 <= now ->
     cache_valid tok expiry now = false ->
     elapsed events <= horizon ->
     forallb (granted_beyond horizon) events = true ->
     all_done s = true ->
     requests s = 1%nat).
Proof.
  intros Hrun. split.
  - apply lock_held_in_flight.
    eapply (run_invariant lock_held_by_block step_lock_held_by_block);
      [apply start_lock_held_by_block|exact Hrun].
  - intros horizon Hn Hnow Hstale Hel Hgr Hdone.
    assert (Hphase0 : exchange_phase (now + horizon) (start tok expiry now n)).
    { left. split; [reflexivity|]. split.
      - intros now' Hnow'. cbn in *. unfold cache_valid in *.
        destruct tok as [t|]; [|reflexivity]. destruct expiry as [e|]; [|reflexivity].
        destruct (negb (String.eqb t "")); [|reflexivity].
        destruct (negb (e =? 0)); [|reflexivity]. cbn in *.
        apply Z.ltb_ge in Hstale. apply Z.ltb_ge. lia.
      - intros t p Hp. cbn in Hp. apply lookup_replicate in Hp as [-> _]. now split. }
    destruct (run_exchange_phase horizon now events (start tok expiry now n) s
                Hgr Hnow ltac:(cbn; lia) ltac:(cbn; lia) (run_ticks _ _ _ Hrun)
                (start_lock_held_by_block _ _ _ _) Hphase0 Hrun) as [Hphase Hlen].
    destruct Hphase as [(Hr & _ & Hc)|[(Hr & _)|(Hr & _)]]; [|assumption..].
    exfalso. cbn in Hlen. rewrite length_replicate in Hlen.
    destruct (calls s) as [|p ps] eqn:Hcalls; [cbn in Hlen; lia|].
    unfold all_done in Hdone. rewrite Hcalls in Hdone. cbn in Hdone.
    apply andb_true_iff in Hdone as [Hp _].
    destruct (Hc 0%nat p eq_refl) as [Hnd _]. congruence.
Qed.

End TokenManagerFacts.

(** C3 (as stated) fails: with no cached credential and two concurrent
    calls, a refused first exchange leaves nothing cached, and the second
    call sends a request of its own: two requests, not one. *)
Lemma token_refused_exchange_repeats :
  TokenManager.cache_valid None None 1700000000 = false /\
  (fun s => (TokenManager.requests s, TokenManager.all_done s, TokenManager.calls s))
    <$> TokenManager.run TokenSamples.two_calls TokenSamples.refused_first
  = Some (2%nat, true, [TokenManager.Raised; TokenManager.Returned "t0k"]).
Proof. split; vm_compute; reflexivity. Qed.

(** A granted token that lives no longer than the margin is stale as soon
    as it is cached: again two requests. *)
Example token_short_lived_repeats :
  (fun s => (TokenManager.requests s, TokenManager.calls s))
    <$> TokenManager.run TokenSamples.two_calls TokenSamples.short_lived
  = Some (2%nat, [TokenManager.Returned "t0k"; TokenManager.Returned "t1k"]).
Proof. vm_compute. reflexivity. Qed.

(** Two calls, one granted exchange: one request, and both calls return
    its token. *)
Lemma token_single_flight_witness :
  TokenManager.run TokenSamples.two_calls TokenSamples.granted_once
  = Some TokenSamples.after_granted_once /\
  (TokenManager.in_flight TokenSamples.after_granted_once <= 1)%nat /\
  TokenManager.requests TokenSamples.after_granted_once = 1%nat.
Proof.
  assert (Hrun : TokenManager.run TokenSamples.two_calls TokenSamples.granted_once
                 = Some TokenSamples.after_granted_once) by (vm_compute; reflexivity).
  destruct (token_single_flight None None 1700000000 2 TokenSamples.granted_once
              TokenSamples.after_granted_once Hrun) as [Hflight Hone].
  split; [exact Hrun|]. split; [exact Hflight|].
  apply (Hone 2).
  - lia.
  - lia.
  - reflexivity.
  - vm_compute. discriminate.
  - vm_compute. reflexivity.
  - reflexivity.
Defined.

(* ===================================================================== *)
(** * Part III.  Further properties of the pipeline                       *)
(* ===================================================================== *)

(** ** The batches of the orchestrator *)

Section BatchCountFacts.
Import Orchestrator.
Context {A : Type}.
Implicit Types (l : list A).

Lemma org_batches_concat l (N : Z) batches :
  1 <= N -> org_batches l N = Some batches -> concat batches = l.
Proof.
  intros HN. rewrite org_batches_unfold by lia. intros [= <-].
  set (b := Z.to_nat _). unfold py_range_step.
  assert (0 < b)%nat by (subst b; lia).
  rewrite concat_slices. apply take_ge. now apply ceil_div_covers.
Qed.

Lemma ceil_div_count_bounds (M N : nat) :
  (1 <= N)%nat ->
  let b := Nat.max 1 (M / N) in
  (Nat.min M N <= (M + b - 1) / b <= M)%nat /\
  ((M + b - 1) / b <= 2 * N - 1)%nat.
Proof.
  intros HN b.
  assert (Hb : (1 <= b)%nat) by (subst b; lia).
  pose proof (Nat.div_mod_eq M N) as EM.
  pose proof (Nat.mod_upper_bound M N ltac:(lia)) as UM.
  pose proof (Nat.div_mod_eq (M + b - 1) b) as EC.
  pose proof (Nat.mod_upper_bound (M + b - 1) b ltac:(lia)) as UC.
  set (q := (M / N)%nat) in *. set (r := (M mod N)%nat) in *.
  set (c := ((M + b - 1) / b)%nat) in *. set (d := ((M + b - 1) mod b)%nat) in *.
  assert (Hbq : b = Nat.max 1 q) by reflexivity.
  clearbody c d b r q.
  destruct (Nat.eq_dec q 0%nat) as [Hq|Hq].
  - assert (b = 1)%nat as Hb1 by lia.
    rewrite Hb1 in *. assert (c = M) by lia. assert (M < N)%nat by nia. lia.
  - assert (b = q) as Hbq' by lia. rewrite Hbq' in *.
    assert (N <= c)%nat by nia.
    assert (c <= M)%nat by nia.
    assert (c <= N + r)%nat by nia.
    lia.
Qed.

(** The number of batches lies between the smaller of the number of
    identifiers and the number of workers, and twice the number of workers
    less one; it never exceeds the number of identifiers, and no batch is
    empty. *)
Theorem batches_enough_and_bounded l (N : Z) :
  1 <= N ->
  exists batches,
    org_batches l N = Some batches /\
    Forall (fun chunk => chunk <> []) batches /\
    Z.min (Z.of_nat (length l)) N <= Z.of_nat (length batches) /\
    (length batches <= length l)%nat /\
    Z.of_nat (length batches) <= 2 * N - 1.
Proof.
  intros HN. rewrite org_batches_unfold by lia. eexists. split; [reflexivity|].
  set (M := length l).
  assert (Hbz : Z.to_nat (Z.max 1 (Z.of_nat M / N)) = Nat.max 1 (M / Z.to_nat N)).
  { rewrite <- (Z2Nat.id N) at 1 by lia. rewrite <- Nat2Z.inj_div. lia. }
  rewrite Hbz. set (b := Nat.max 1 (M / Z.to_nat N)).
  assert (Hb : (1 <= b)%nat) by (subst b; lia).
  destruct (ceil_div_count_bounds M (Z.to_nat N) ltac:(lia)) as [[H1 H2] H3].
  fold b in H1, H2, H3.
  unfold py_range_step. rewrite !length_map, length_seq.
  split; [|lia].
  apply Forall_forall. intros chunk Hin.
  apply list_elem_of_fmap in Hin as (i & -> & Hi).
  apply list_elem_of_fmap in Hi as (k & -> & Hk).
  apply elem_of_seq in Hk. rewrite py_slice_take_drop.
  intros Hnil. apply (f_equal length) in Hnil.
  rewrite length_take, length_drop in Hnil. fold M in Hnil. cbn in Hnil.
  pose proof (ceil_div_tight M b ltac:(lia)) as Ht.
  set (c := ((M + b - 1) / b)%nat) in *. clearbody c b M.
  destruct (Nat.eq_dec M 0%nat) as [HM|HM]; [lia|].
  specialize (Ht ltac:(lia)). nia.
Qed.

End BatchCountFacts.

(** Twenty-five identifiers and twelve workers. *)
Lemma batches_enough_and_bounded_witness :
  exists batches,
    Orchestrator.org_batches (seq 0 25) 12 = Some batches /\
    Forall (fun chunk => chunk <> []) batches /\
    Z.min (Z.of_nat (length (seq 0 25))) 12 <= Z.of_nat (length batches) /\
    (length batches <= length (seq 0 25))%nat /\
    Z.of_nat (length batches) <= 2 * 12 - 1.
Proof. apply (batches_enough_and_bounded (seq 0 25) 12). lia. Defined.

(** ** Fetch outcomes through the parser *)

Section FetchParseFacts.
Import Json Parser.
Implicit Types (parsed : gmap string json) (org : json).

Lemma fetch_outcome_status (org_number : string) (r : http_result) :
  fetch_outcome org_number r !! "org_number" = Some (JStr org_number) /\
  fetch_outcome org_number r !! "status"
  = Some (JStr match r with
               | Http200 _ => "success"
               | HttpStatus _ _ => "error"
               | HttpException _ => "exception"
               end) /\
  fetch_outcome org_number r !! "error_message"
  = match r with
    | Http200 _ => None
    | HttpStatus _ text => Some (JStr (substring 0 200 text))
    | HttpException message => Some (JStr (substring 0 200 message))
    end /\
  fetch_outcome org_number r !! "data"
  = match r with Http200 data => Some data | _ => None end.
Proof. destruct r; repeat split; reflexivity. Qed.

(** A fetch that did not end in status 200 gives a record of exactly three
    fields: the identifier as it was passed in, the tag of the failure and
    the first 200 characters of the response text or of the exception
    message.  The HTTP status code is not carried over. *)
Theorem failed_fetch_record now (org_number : string) :
  (forall code text,
     parse_organisation_data now (fetch_outcome org_number (HttpStatus code text))
     = Ok (<["error" := JStr (substring 0 200 text)]>
             (<["api_status" := JStr "error"]> {["org_number" := JStr org_number]}))) /\
  (forall message,
     parse_organisation_data now (fetch_outcome org_number (HttpException message))
     = Ok (<["error" := JStr (substring 0 200 message)]>
             (<["api_status" := JStr "exception"]>
                {["org_number" := JStr org_number]}))) /\
  (forall text, (String.length (substring 0 200 text) <= 200)%nat).
Proof.
  split; [|split; [|intros; apply substring_length_le]].
  - intros code text.
    destruct (fetch_outcome_status org_number (HttpStatus code text))
      as (Hid & Hst & Hmsg & _).
    unfold parse_organisation_data.
    now rewrite (getitem_Some _ _ _ Hst), (getitem_Some _ _ _ Hid), Hmsg.
  - intros message.
    destruct (fetch_outcome_status org_number (HttpException message))
      as (Hid & Hst & Hmsg & _).
    unfold parse_organisation_data.
    now rewrite (getitem_Some _ _ _ Hst), (getitem_Some _ _ _ Hid), Hmsg.
Qed.

Lemma extract_legal_form_sets org parsed parsed' :
  extract_legal_form org parsed = Ok parsed' ->
  is_Some (parsed' !! "legal_form_code") /\
  is_Some (parsed' !! "legal_form_description").
Proof.
  unfold extract_legal_form.
  destruct (get org "juridiskForm" (JObj [])) as [jf|]; [|discriminate]. cbn [bind].
  destruct (get jf "kod" JNull) as [kod|]; [|discriminate]. cbn [bind].
  destruct (get jf "klartext" JNull) as [klartext|]; [|discriminate]. cbn [bind].
  intros [= <-]. rewrite lookup_insert_ne, !lookup_insert_eq by discriminate. eauto.
Qed.

Lemma extract_registration_sets org parsed parsed' :
  extract_registration org parsed = Ok parsed' ->
  is_Some (parsed' !! "registration_date") /\
  exists b, parsed' !! "is_active" = Some (JBool b).
Proof.
  unfold extract_registration.
  destruct (get org "organisationsdatum" (JObj [])) as [od|]; [|discriminate]. cbn [bind].
  destruct (get od "registreringsdatum" JNull) as [rd|]; [|discriminate]. cbn [bind].
  destruct (get org "verksamOrganisation" (JObj [])) as [vo|]; [|discriminate]. cbn [bind].
  destruct (get vo "kod" JNull) as [kod|]; [|discriminate]. cbn [bind].
  intros [= <-]. rewrite lookup_insert_ne, !lookup_insert_eq by discriminate. eauto.
Qed.

(** The two kinds of record that the [try] block returns. *)
Lemma extract_Ok_cases now (api_response : gmap string json) parsed :
  extract now api_response = Ok parsed ->
  exists ident, api_response !! "org_number" = Some ident /\
    (parsed = no_data_record ident \/
     (parsed !! "org_number" = Some ident /\
      parsed !! "api_status" = Some (JStr "success") /\
      parsed !! "query_timestamp" = Some (JStr now) /\
      (exists b, parsed !! "is_deregistered" = Some (JBool b)) /\
      (exists b, parsed !! "is_active" = Some (JBool b)) /\
      is_Some (parsed !! "legal_form_code") /\
      is_Some (parsed !! "legal_form_description") /\
      is_Some (parsed !! "registration_date") /\
      parsed !! "error" = None)).
Proof.
  unfold extract.
  destruct (getitem api_response "data") as [data|]; [|discriminate]. cbn [bind].
  destruct (get data "organisationer" (JArr [])) as [orgs|]; [|discriminate]. cbn [bind].
  destruct (negb (truthy orgs)).
  { destruct (getitem api_response "org_number") as [ident|] eqn:Hid; [|discriminate].
    cbn [bind]. intros [= <-]. apply getitem_Ok in Hid. eauto. }
  destruct (getitem0 orgs) as [org|]; [|discriminate]. cbn [bind].
  destruct (getitem api_response "org_number") as [ident|] eqn:Hid; [|discriminate].
  cbn [bind]. apply getitem_Ok in Hid.
  destruct (get org "avregistreradOrganisation" JNull) as [avr|]; [|discriminate].
  cbn [bind].
  destruct (extract_legal_form _ _) as [p1|] eqn:E1; [|discriminate]. cbn [bind].
  destruct (extract_name _ _) as [p2|] eqn:E2; [|discriminate]. cbn [bind].
  destruct (extract_address _ _) as [p3|] eqn:E3; [|discriminate]. cbn [bind].
  destruct (extract_sni _ _) as [p4|] eqn:E4; [|discriminate]. cbn [bind].
  intros E5. exists ident. split; [assumption|]. right.
  assert (Hback : forall k,
    k <> "legal_form_code" -> k <> "legal_form_description" ->
    k <> "organisation_name" ->
    k <> "street_address" -> k <> "city" -> k <> "postal_code" -> k <> "country" ->
    k <> "sni_code" -> k <> "sni_description" ->
    k <> "registration_date" -> k <> "is_active" ->
    parsed !! k =
    (<["is_deregistered" := JBool match avr with JNull => false | _ => true end]>
       (<["query_timestamp" := JStr now]>
          (<["api_status" := JStr "success"]>
             ({["org_number" := ident]} : gmap string json)))) !! k).
  { intros k **. 
    rewrite (extract_registration_frame _ _ _ k E5) by auto.
    rewrite (extract_sni_frame _ _ _ k E4) by auto.
    rewrite (extract_address_frame _ _ _ k E3) by auto.
    rewrite (extract_name_frame _ _ _ k E2) by auto.
    now rewrite (extract_legal_form_frame _ _ _ k E1) by auto. }
  destruct (extract_legal_form_sets _ _ _ E1) as [L1 L2].
  destruct (extract_registration_sets _ _ _ E5) as [R1 R2].
  repeat split.
  - rewrite Hback by discriminate. reflexivity.
  - rewrite Hback by discriminate. reflexivity.
  - rewrite Hback by discriminate. reflexivity.
  - rewrite Hback by discriminate. eexists. reflexivity.
  - exact R2.
  - rewrite (extract_registration_frame _ _ _ _ E5) by (split; discriminate).
    rewrite (extract_sni_frame _ _ _ _ E4) by (split; discriminate).
    rewrite (extract_address_frame _ _ _ _ E3) by (repeat split; discriminate).
    now rewrite (extract_name_frame _ _ _ _ E2) by discriminate.
  - rewrite (extract_registration_frame _ _ _ _ E5) by (split; discriminate).
    rewrite (extract_sni_frame _ _ _ _ E4) by (split; discriminate).
    rewrite (extract_address_frame _ _ _ _ E3) by (repeat split; discriminate).
    now rewrite (extract_name_frame _ _ _ _ E2) by discriminate.
  - exact R1.
  - rewrite Hback by discriminate. reflexivity.
Qed.

(** A record has no [error] field exactly when its tag is success, and a
    success record always has the identifier, the time of parsing, the two
    flags as booleans, and the legal form and registration date fields
    (which may hold [None]). *)
Theorem record_fields_by_status now (api_response : gmap string json) rec :
  parse_organisation_data now api_response = Ok rec ->
  (rec !! "error" = None <-> rec !! "api_status" = Some (JStr "success")) /\
  (rec !! "api_status" = Some (JStr "success") ->
   rec !! "org_number" = api_response !! "org_number" /\
   rec !! "query_timestamp" = Some (JStr now) /\
   (exists b, rec !! "is_deregistered" = Some (JBool b)) /\
   (exists b, rec !! "is_active" = Some (JBool b)) /\
   is_Some (rec !! "legal_form_code") /\
   is_Some (rec !! "legal_form_description") /\
   is_Some (rec !! "registration_date")).
Proof.
  unfold parse_organisation_data.
  destruct (getitem api_response "status") as [status|]; [|discriminate]. cbn [bind].
  destruct (eq_str status "success") eqn:Est; cbn [negb].
  - destruct (extract now api_response) as [parsed|e] eqn:E.
    + intros [= <-].
      destruct (extract_Ok_cases _ _ _ E) as (ident & Hid & [->|Hs]).
      * split; [split; discriminate|discriminate].
      * destruct Hs as (H1 & H2 & H3 & H4 & H5 & H6 & H7 & H8 & H9).
        split; [split; auto|]. intros _. rewrite Hid. auto 10.
    + destruct (getitem api_response "org_number"); [|discriminate]. cbn [bind].
      intros [= <-]. split; [split; discriminate|discriminate].
  - destruct (getitem api_response "org_number"); [|discriminate]. cbn [bind].
    intros [= <-]. split; [split; [discriminate|]|].
    + rewrite lookup_insert_ne, lookup_insert_eq by discriminate.
      intros [= ->]. discriminate Est.
    + rewrite lookup_insert_ne, lookup_insert_eq by discriminate.
      intros [= ->]. discriminate Est.
Qed.

(** A success whose payload is a dict gives the no_data record exactly
    when the entity list is absent or falsy (empty, [None], zero). *)
Theorem no_data_iff_no_entities now (api_response : gmap string json) ident data :
  api_response !! "status" = Some (JStr "success") ->
  api_response !! "org_number" = Some ident ->
  api_response !! "data" = Some (JObj data) ->
  (parse_organisation_data now api_response = Ok (no_data_record ident) <->
   truthy (from_option id (JArr []) (assoc "organisationer" data)) = false).
Proof.
  intros Hst Hid Hdata. unfold parse_organisation_data.
  rewrite (getitem_Some _ _ _ Hst). cbn [bind eq_str String.eqb Ascii.eqb Bool.eqb negb].
  destruct (extract now api_response) as [parsed|e] eqn:E.
  - pose proof E as E'. unfold extract in E'.
    rewrite (getitem_Some _ _ _ Hdata), (getitem_Some _ _ _ Hid) in E'.
    cbn [bind get] in E'.
    destruct (truthy (from_option id (JArr []) (assoc "organisationer" data))) eqn:Ht;
      cbn [negb] in E'.
    + split; [|discriminate]. intros [= ->].
      destruct (extract_Ok_cases _ _ _ E) as (ident' & _ & [Hn|Hs]).
      * revert E'. destruct (getitem0 _); [|discriminate]. cbn [bind].
        destruct (get _ "avregistreradOrganisation" JNull) as [avr|]; [|discriminate].
        cbn [bind].
        destruct (extract_legal_form _ _) as [p1|] eqn:E1; [|discriminate]. cbn [bind].
        destruct (extract_name _ _) as [p2|] eqn:E2; [|discriminate]. cbn [bind].
        destruct (extract_address _ _) as [p3|] eqn:E3; [|discriminate]. cbn [bind].
        destruct (extract_sni _ _) as [p4|] eqn:E4; [|discriminate]. cbn [bind].
        intros E5.
        pose proof (extract_registration_frame _ _ _ "api_status" E5
                      ltac:(split; discriminate)) as F.
        rewrite (extract_sni_frame _ _ _ _ E4) in F by (split; discriminate).
        rewrite (extract_address_frame _ _ _ _ E3) in F by (repeat split; discriminate).
        rewrite (extract_name_frame _ _ _ _ E2) in F by discriminate.
        rewrite (extract_legal_form_frame _ _ _ _ E1) in F by (split; discriminate).
        discriminate F.
      * destruct Hs as (_ & Hs & _). discriminate Hs.
    + injection E' as <-. split; reflexivity.
  - rewrite (getitem_Some _ _ _ Hid). cbn [bind].
    unfold extract in E.
    rewrite (getitem_Some _ _ _ Hdata), (getitem_Some _ _ _ Hid) in E.
    cbn [bind get] in E.
    destruct (truthy (from_option id (JArr []) (assoc "organisationer" data))) eqn:Ht;
      cbn [negb] in E; [|discriminate E].
    split; [|discriminate]. intros H. exfalso.
    assert (H' : parse_error_record ident e !! "api_status"
                 = no_data_record ident !! "api_status") by congruence.
    discriminate H'.
Qed.

(** An entity whose legal form is an explicit JSON null is not parsed: the
    whole record becomes a parse_error, whatever else the entity holds. *)
Theorem null_legal_form_is_parse_error now (api_response : gmap string json)
    ident data entity others :
  api_response !! "status" = Some (JStr "success") ->
  api_response !! "org_number" = Some ident ->
  api_response !! "data" = Some (JObj data) ->
  assoc "organisationer" data = Some (JArr (JObj entity :: others)) ->
  assoc "juridiskForm" entity = Some JNull ->
  parse_organisation_data now api_response
  = Ok (parse_error_record ident (AttributeError "NoneType" "get")).
Proof.
  intros Hst Hid Hdata Horgs Hjf. unfold parse_organisation_data.
  rewrite (getitem_Some _ _ _ Hst). cbn [bind eq_str String.eqb Ascii.eqb Bool.eqb negb].
  unfold extract. rewrite (getitem_Some _ _ _ Hdata), (getitem_Some _ _ _ Hid).
  cbn [bind get]. rewrite Horgs. cbn [from_option id truthy negb getitem0 bind get].
  unfold extract_legal_form. cbn [get bind]. rewrite Hjf. reflexivity.
Qed.

(** An entity that has none of the blocks the parser looks for is parsed
    all the same: a success record, not active, not deregistered, with
    [None] for the legal form and the registration date, and without name,
    address and classification fields. *)
Theorem bare_entity_is_success now (api_response : gmap string json)
    ident data entity others :
  api_response !! "status" = Some (JStr "success") ->
  api_response !! "org_number" = Some ident ->
  api_response !! "data" = Some (JObj data) ->
  assoc "organisationer" data = Some (JArr (JObj entity :: others)) ->
  Forall (fun k => assoc k entity = None)
    ["avregistreradOrganisation"; "juridiskForm"; "organisationsnamn";
     "postadressOrganisation"; "naringsgrenOrganisation"; "organisationsdatum";
     "verksamOrganisation"] ->
  parse_organisation_data now api_response
  = Ok (<["is_active" := JBool false]>
          (<["registration_date" := JNull]>
             (<["legal_form_description" := JNull]>
                (<["legal_form_code" := JNull]>
                   (<["is_deregistered" := JBool false]>
                      (<["query_timestamp" := JStr now]>
                         (<["api_status" := JStr "success"]>
                            {["org_number" := ident]}))))))).
Proof.
  intros Hst Hid Hdata Horgs Hnone.
  repeat (apply Forall_cons_1 in Hnone as [? Hnone]).
  unfold parse_organisation_data.
  rewrite (getitem_Some _ _ _ Hst). cbn [bind eq_str String.eqb Ascii.eqb Bool.eqb negb].
  unfold extract. rewrite (getitem_Some _ _ _ Hdata), (getitem_Some _ _ _ Hid).
  cbn [bind get]. rewrite Horgs. cbn [from_option id truthy negb getitem0 bind get].
  unfold extract_legal_form, extract_name, extract_address, extract_sni,
    extract_registration, and_then.
  cbn [get bind].
  repeat match goal with H : assoc _ entity = None |- _ => rewrite H; clear H end.
  reflexivity.
Qed.

End FetchParseFacts.

(** The record of a company with a name and a classification: no [error]
    field, and a boolean [is_active]. *)
Lemma record_fields_by_status_witness :
  ParserSamples.blank_then_coded_record !! "error" = None /\
  exists b, ParserSamples.blank_then_coded_record !! "is_active" = Some (Json.JBool b).
Proof.
  assert (E : Parser.parse_organisation_data "2025-01-01T10:00:00"
                ParserSamples.blank_then_coded
              = Json.Ok ParserSamples.blank_then_coded_record)
    by (vm_cast_no_check (eq_refl (Json.Ok ParserSamples.blank_then_coded_record))).
  assert (Hs : ParserSamples.blank_then_coded_record !! "api_status"
               = Some (Json.JStr "success")) by (vm_compute; reflexivity).
  destruct (record_fields_by_status "2025-01-01T10:00:00"
              ParserSamples.blank_then_coded
              ParserSamples.blank_then_coded_record E) as [Hiff Hfields].
  split; [exact (proj2 Hiff Hs)|].
  destruct (Hfields Hs) as (_ & _ & _ & Ha & _). exact Ha.
Defined.

(** An empty entity list gives the [no_data] record. *)
Lemma no_data_iff_no_entities_witness :
  Parser.parse_organisation_data "2025-01-01T10:00:00" ParserSamples.no_entities
  = Json.Ok (Parser.no_data_record (Json.JStr "5560005678")).
Proof.
  assert (H1 : ParserSamples.no_entities !! "status" = Some (Json.JStr "success"))
    by (vm_compute; reflexivity).
  assert (H2 : ParserSamples.no_entities !! "org_number"
               = Some (Json.JStr "5560005678")) by (vm_compute; reflexivity).
  assert (H3 : ParserSamples.no_entities !! "data"
               = Some (Json.JObj [("organisationer", Json.JArr [])]))
    by (vm_compute; reflexivity).
  apply (proj2 (no_data_iff_no_entities "2025-01-01T10:00:00"
                  ParserSamples.no_entities (Json.JStr "5560005678")
                  [("organisationer", Json.JArr [])] H1 H2 H3)).
  reflexivity.
Defined.

(** A null legal form in the first entity gives a [parse_error] record. *)
Lemma null_legal_form_is_parse_error_witness :
  Parser.parse_organisation_data "2025-01-01T10:00:00" ParserSamples.null_legal_form
  = Json.Ok (Parser.parse_error_record (Json.JStr "5560005678")
               (Json.AttributeError "NoneType" "get")).
Proof.
  assert (H1 : ParserSamples.null_legal_form !! "status" = Some (Json.JStr "success"))
    by (vm_compute; reflexivity).
  assert (H2 : ParserSamples.null_legal_form !! "org_number"
               = Some (Json.JStr "5560005678")) by (vm_compute; reflexivity).
  assert (H3 : ParserSamples.null_legal_form !! "data"
               = Some (Json.JObj [("organisationer",
                                   Json.JArr [Json.JObj [("juridiskForm", Json.JNull)]])]))
    by (vm_compute; reflexivity).
  exact (null_legal_form_is_parse_error "2025-01-01T10:00:00"
           ParserSamples.null_legal_form (Json.JStr "5560005678")
           [("organisationer", Json.JArr [Json.JObj [("juridiskForm", Json.JNull)]])]
           [("juridiskForm", Json.JNull)] [] H1 H2 H3 eq_refl eq_refl).
Defined.

(** An entity without fields gives a [success] record that shows the
    company as not active. *)
Lemma bare_entity_is_success_witness :
  match Parser.parse_organisation_data "2025-01-01T10:00:00" ParserSamples.bare_entity with
  | Json.Ok rec => [rec !! "api_status"; rec !! "is_active"; rec !! "legal_form_code"]
  | Json.Raise _ => []
  end
  = [Some (Json.JStr "success"); Some (Json.JBool false); Some Json.JNull].
Proof.
  assert (H1 : ParserSamples.bare_entity !! "status" = Some (Json.JStr "success"))
    by (vm_compute; reflexivity).
  assert (H2 : ParserSamples.bare_entity !! "org_number"
               = Some (Json.JStr "5560005678")) by (vm_compute; reflexivity).
  assert (H3 : ParserSamples.bare_entity !! "data"
               = Some (Json.JObj [("organisationer", Json.JArr [Json.JObj []])]))
    by (vm_compute; reflexivity).
  assert (H5 : Forall (fun k => Json.assoc k [] = None)
                 ["avregistreradOrganisation"; "juridiskForm"; "organisationsnamn";
                  "postadressOrganisation"; "naringsgrenOrganisation";
                  "organisationsdatum"; "verksamOrganisation"])
    by (repeat constructor).
  rewrite (bare_entity_is_success "2025-01-01T10:00:00" ParserSamples.bare_entity
             (Json.JStr "5560005678")
             [("organisationer", Json.JArr [Json.JObj []])] [] []
             H1 H2 H3 eq_refl H5).
  vm_compute. reflexivity.
Defined.

(** ** One record per identifier *)

Section BatchFacts.
Import Json Parser Batch.

Lemma Orchestrator_org_batches_nil {B : Type} (N : Z) :
  N <> 0 -> Orchestrator.org_batches ([] : list B) N = Some [].
Proof.
  intros HN. unfold Orchestrator.org_batches, Orchestrator.batch_size. cbn.
  destruct (Z.eqb_spec N 0); [contradiction|].
  replace (Z.to_nat (Z.max 1 (0 / N))) with 1%nat by (rewrite Z.div_0_l; lia).
  reflexivity.
Qed.

(** The record made of one fetch outcome. *)
Lemma parse_fetch_outcome now (ident : string) (r : http_result) :
  exists rec,
    parse_organisation_data now (fetch_outcome ident r) = Ok rec /\
    rec !! "org_number" = Some (JStr ident) /\
    exists tag, tag ∈ status_tags /\ rec !! "api_status" = Some (JStr tag).
Proof.
  destruct (fetch_outcome_status ident r) as (Hid & Hst & Hmsg & Hdata).
  unfold parse_organisation_data.
  rewrite (getitem_Some _ _ _ Hst), (getitem_Some _ _ _ Hid). cbn [bind].
  destruct r as [data|code text|text];
    cbn [eq_str String.eqb Ascii.eqb Bool.eqb negb].
  - destruct (extract now _) as [parsed|e] eqn:E.
    + apply extract_Ok in E as [E1 E2]. exists parsed.
      split; [reflexivity|]. split; [congruence|].
      destruct E2 as [E2|E2]; eexists; (split; [|exact E2]);
        unfold status_tags; rewrite !elem_of_cons; tauto.
    + eexists. split; [reflexivity|]. split; [reflexivity|].
      exists "parse_error". split; [|reflexivity].
      unfold status_tags. rewrite !elem_of_cons. tauto.
  - eexists. split; [reflexivity|]. split; [reflexivity|].
    exists "error". split; [|reflexivity].
    unfold status_tags. rewrite !elem_of_cons. tauto.
  - eexists. split; [reflexivity|]. split; [reflexivity|].
    exists "exception". split; [|reflexivity].
    unfold status_tags. rewrite !elem_of_cons. tauto.
Qed.

Lemma process_cons c rest :
  process_organization_batch (c :: rest)
  = match outcome c with
    | AuthFailed => None
    | Answered r =>
        match parse_organisation_data (timestamp c) (fetch_outcome (org_number c) r) with
        | Raise _ => None
        | Ok rec => (fun results => rec :: results) <$> process_organization_batch rest
        end
    end.
Proof.
  cbn [process_organization_batch]. unfold query_single_organisation.
  destruct (outcome c); [reflexivity|].
  destruct (parse_organisation_data _ _); [|reflexivity].
  now destruct (process_organization_batch rest).
Qed.

Lemma process_app (a b : list call) :
  process_organization_batch (a ++ b)
  = match process_organization_batch a, process_organization_batch b with
    | Some ra, Some rb => Some (ra ++ rb)
    | _, _ => None
    end.
Proof.
  induction a as [|c a IH].
  - cbn. now destruct (process_organization_batch b).
  - rewrite <- app_comm_cons, !process_cons, IH.
    destruct (outcome c); [reflexivity|].
    destruct (parse_organisation_data _ _); [|reflexivity].
    destruct (process_organization_batch a); [|reflexivity].
    now destruct (process_organization_batch b).
Qed.

(** The loop over one batch, case by case. *)
Lemma process_cases (org_batch : list call) :
  match process_organization_batch org_batch with
  | None => Exists (fun c => outcome c = AuthFailed) org_batch
  | Some results =>
      Forall (fun c => outcome c <> AuthFailed) org_batch /\
      Forall2 answers org_batch results
  end.
Proof.
  induction org_batch as [|c rest IH].
  - cbn. split; constructor.
  - rewrite process_cons. destruct (outcome c) as [|r] eqn:Hc; [now left|].
    destruct (parse_fetch_outcome (timestamp c) (org_number c) r)
      as (rec & -> & Hid & Htag).
    destruct (process_organization_batch rest) as [results|]; cbn.
    + destruct IH as [IH1 IH2]. split; constructor; auto; [congruence|now split].
    + now right.
Qed.

(** One batch: the loop fails exactly when the token cannot be obtained
    for one of its identifiers; otherwise it returns one record per
    identifier, in the order of the identifiers, each with the identifier as
    it was passed in and a status tag.  No answer of the service makes it
    fail. *)
Theorem batch_one_record_each (org_batch : list call) :
  (process_organization_batch org_batch = None <->
   Exists (fun c => outcome c = AuthFailed) org_batch) /\
  (forall results,
     process_organization_batch org_batch = Some results ->
     length results = length org_batch /\
     forall i c, org_batch !! i = Some c ->
                 exists rec, results !! i = Some rec /\ answers c rec).
Proof.
  pose proof (process_cases org_batch) as H.
  destruct (process_organization_batch org_batch) as [results|].
  - destruct H as [Hauth Hans]. split.
    + split; [discriminate|]. intros Hex. exfalso.
      apply Exists_exists in Hex as (c & Hc & Hf).
      rewrite Forall_forall in Hauth. exact (Hauth c Hc Hf).
    + intros ? [= <-]. split; [symmetry; eapply Forall2_length, Hans|].
      intros i c Hi.
      destruct (Forall2_lookup_l _ _ _ _ _ Hans Hi) as (rec & Hrec & Ha). eauto.
  - split; [split; auto|discriminate].
Qed.

Lemma omap_cons_Some {B C : Type} (f : B -> option C) x y l :
  f x = Some y -> omap f (x :: l) = y :: omap f l.
Proof. intros H. cbn. now rewrite H. Qed.

Lemma omap_lookup_seq {B : Type} (pre l : list B) :
  omap (fun i => (pre ++ l) !! i) (seq (length pre) (length l)) = l.
Proof.
  revert pre. induction l as [|x l IH]; intros pre; [reflexivity|].
  cbn [length seq].
  rewrite (omap_cons_Some _ _ x) by (now apply list_lookup_middle). f_equal.
  specialize (IH (pre ++ [x])). rewrite <- app_assoc, length_app in IH. cbn in IH.
  now rewrite Nat.add_1_r in IH.
Qed.

Lemma in_completion_order_Permutation {B : Type} (order : list nat) (batches : list B) :
  order ≡ₚ seq 0 (length batches) ->
  in_completion_order order batches ≡ₚ batches.
Proof.
  intros H. unfold in_completion_order. rewrite H.
  pose proof (omap_lookup_seq [] batches) as E. cbn in E. now rewrite E.
Qed.

Lemma concat_Permutation_proper {B : Type} (l1 l2 : list (list B)) :
  l1 ≡ₚ l2 -> concat l1 ≡ₚ concat l2.
Proof.
  induction 1 as [|x l1 l2 _ IH|x y l|l1 l2 l3 _ IH1 _ IH2]; cbn.
  - reflexivity.
  - now rewrite IH.
  - rewrite !app_assoc. f_equiv. apply Permutation_app_comm.
  - now rewrite IH1.
Qed.

Lemma mapM_cons_option {B C : Type} (f : B -> option C) x l :
  mapM f (x :: l)
  = match f x, mapM f l with
    | Some y, Some k => Some (y :: k)
    | _, _ => None
    end.
Proof.
  cbn. destruct (f x); [|reflexivity]. cbn. now destruct (mapM f l).
Qed.

Lemma mapM_Permutation {B C : Type} (f : B -> option C) (l1 l2 : list B) :
  l1 ≡ₚ l2 ->
  match mapM f l1, mapM f l2 with
  | Some r1, Some r2 => r1 ≡ₚ r2
  | None, None => True
  | _, _ => False
  end.
Proof.
  induction 1 as [|x l1 l2 _ IH|x y l|l1 l2 l3 _ IH1 _ IH2].
  - cbn. reflexivity.
  - rewrite !mapM_cons_option. destruct (f x); [|trivial].
    destruct (mapM f l1), (mapM f l2); try contradiction; [|trivial].
    now constructor.
  - rewrite !mapM_cons_option. destruct (f x), (f y), (mapM f l); trivial.
    apply perm_swap.
  - destruct (mapM f l1), (mapM f l2), (mapM f l3); try contradiction; trivial.
    now transitivity l0.
Qed.

Lemma process_concat (batches : list (list call)) :
  process_organization_batch (concat batches)
  = (fun rs => concat rs) <$> mapM process_organization_batch batches.
Proof.
  induction batches as [|b batches IH]; [reflexivity|].
  cbn [concat]. rewrite process_app, mapM_cons_option, IH.
  destruct (process_organization_batch b); [|reflexivity].
  now destruct (mapM process_organization_batch batches).
Qed.

(** The whole extraction, for at least one identifier and one worker and a
    token that can be obtained throughout: whatever the order in which the
    batches complete, the records returned are those of fetching and
    parsing the identifiers one after the other, up to their order; so
    every identifier has exactly one record. *)
Theorem extraction_one_record_each (max_workers : Z) (cached_token prefetch : bool)
    (order : list nat) (org_numbers : list call) batches :
  1 <= max_workers ->
  org_numbers <> [] ->
  cached_token || prefetch = true ->
  Forall (fun c => outcome c <> AuthFailed) org_numbers ->
  Orchestrator.org_batches org_numbers max_workers = Some batches ->
  order ≡ₚ seq 0 (length batches) ->
  exists results in_order,
    extract_batch_data max_workers cached_token prefetch order org_numbers
    = inr results /\
    process_organization_batch org_numbers = Some in_order /\
    results ≡ₚ in_order /\
    Forall2 answers org_numbers in_order.
Proof.
  intros HN Hne Htok Hauth Hb Horder.
  pose proof (process_cases org_numbers) as Hcases.
  destruct (process_organization_batch org_numbers) as [in_order|] eqn:Hseq.
  2:{ exfalso. apply Exists_exists in Hcases as (c & Hc & Hf).
      rewrite Forall_forall in Hauth. exact (Hauth c Hc Hf). }
  destruct Hcases as [_ Hans].
  pose proof (org_batches_concat _ _ _ HN Hb) as Hcat.
  pose proof Hseq as Hseq'. rewrite <- Hcat, process_concat in Hseq'.
  destruct (mapM process_organization_batch batches) as [rs|] eqn:Hrs; [|discriminate].
  cbn in Hseq'. injection Hseq' as Hin.
  pose proof (mapM_Permutation process_organization_batch _ _
                (in_completion_order_Permutation order batches Horder)) as Hperm.
  rewrite Hrs in Hperm.
  destruct (mapM process_organization_batch (in_completion_order order batches))
    as [rs'|] eqn:Hrs'; [|contradiction].
  assert (Hres : concat rs' ≡ₚ in_order).
  { rewrite <- Hin. now apply concat_Permutation_proper. }
  exists (concat rs'), in_order.
  split; [|split; [reflexivity|split; [exact Hres|exact Hans]]].
  unfold extract_batch_data. rewrite Hb, Hrs'.
  destruct (negb cached_token && negb prefetch) eqn:Ht;
    [destruct cached_token, prefetch; discriminate|].
  destruct (Z.leb_spec max_workers 0); [lia|].
  destruct (concat rs') as [|x xs] eqn:Hc; [|reflexivity].
  exfalso. apply Permutation_nil in Hres.
  pose proof (Forall2_length _ _ _ Hans) as Hlen. rewrite Hres in Hlen.
  destruct org_numbers; [congruence|cbn in Hlen; discriminate Hlen].
Qed.

Lemma in_completion_order_nil {B : Type} (order : list nat) :
  in_completion_order order ([] : list B) = [].
Proof.
  unfold in_completion_order. induction order as [|i order IH]; [reflexivity|].
  cbn. exact IH.
Qed.

(** The extraction returns records only for a positive number of workers
    and a list of identifiers that is not empty, and never returns an empty
    list of records: for no identifiers it raises.  It is all or nothing:
    when it returns, no query in any batch met a token failure. *)
Theorem extraction_all_or_nothing (max_workers : Z) (cached_token prefetch : bool)
    (order : list nat) (org_numbers : list call) results :
  extract_batch_data max_workers cached_token prefetch order org_numbers
  = inr results ->
  1 <= max_workers /\
  org_numbers <> [] /\
  results <> [] /\
  (forall batches,
     Orchestrator.org_batches org_numbers max_workers = Some batches ->
     order ≡ₚ seq 0 (length batches) ->
     Forall (fun c => outcome c <> AuthFailed) org_numbers).
Proof.
  unfold extract_batch_data.
  destruct (negb cached_token && negb prefetch); [discriminate|].
  destruct (Orchestrator.org_batches org_numbers max_workers) as [batches|] eqn:Hb;
    [|discriminate].
  destruct (Z.leb_spec max_workers 0); [discriminate|].
  destruct (mapM process_organization_batch (in_completion_order order batches))
    as [rs|] eqn:Hrs; [|discriminate].
  destruct (concat rs) as [|x xs] eqn:Hc; [discriminate|]. intros [= <-].
  assert (HN : 1 <= max_workers) by lia.
  pose proof (org_batches_concat _ _ _ HN Hb) as Hcat.
  split; [lia|]. split; [|split; [discriminate|]].
  - intros ->. rewrite Orchestrator_org_batches_nil in Hb by lia.
    injection Hb as <-. rewrite in_completion_order_nil in Hrs.
    injection Hrs as <-. discriminate Hc.
  - intros batches' [= <-] Horder.
    pose proof (mapM_Permutation process_organization_batch _ _
                  (in_completion_order_Permutation order batches Horder)) as Hperm.
    rewrite Hrs in Hperm.
    destruct (mapM process_organization_batch batches) as [rs0|] eqn:Hrs0;
      [|contradiction].
    pose proof (process_cases (concat batches)) as Hcases.
    rewrite process_concat, Hrs0 in Hcases. cbn in Hcases.
    rewrite Hcat in Hcases. tauto.
Qed.

End BatchFacts.

(** Three identifiers and two workers, the second batch completing first:
    three records, one per identifier. *)
Lemma extraction_one_record_each_witness :
  exists results in_order,
    Batch.extract_batch_data 2 false true BatchSamples.second_first BatchSamples.three
    = inr results /\
    Batch.process_organization_batch BatchSamples.three = Some in_order /\
    results ≡ₚ in_order /\
    Forall2 Batch.answers BatchSamples.three in_order.
Proof.
  apply (extraction_one_record_each 2 false true BatchSamples.second_first
           BatchSamples.three BatchSamples.three_batches).
  - lia.
  - discriminate.
  - reflexivity.
  - repeat constructor; discriminate.
  - vm_compute. reflexivity.
  - apply perm_swap.
Defined.

(** The same extraction returned, so no query met a token failure. *)
Lemma extraction_all_or_nothing_witness :
  BatchSamples.three_records <> [] /\
  Forall (fun c => Batch.outcome c <> Batch.AuthFailed) BatchSamples.three.
Proof.
  assert (E : Batch.extract_batch_data 2 false true BatchSamples.second_first
                BatchSamples.three
              = inr BatchSamples.three_records)
    by (vm_cast_no_check (eq_refl (inr BatchSamples.three_records
                                   : Batch.failure + list (gmap string Json.json)))).
  destruct (extraction_all_or_nothing 2 false true BatchSamples.second_first
              BatchSamples.three BatchSamples.three_records E)
    as (_ & _ & Hne & Hauth).
  split; [exact Hne|].
  apply (Hauth BatchSamples.three_batches).
  - vm_compute. reflexivity.
  - apply perm_swap.
Defined.

(** ** The identifier file *)

Section IdsFacts.
Import Py Ids.

Lemma break_free_lstrip s : break_free s = true -> break_free (lstrip s) = true.
Proof.
  induction s as [|c r IH]; cbn; [trivial|].
  intros H. destruct (isspace c); [|exact H].
  apply andb_true_iff in H as [_ H]. auto.
Qed.

Lemma break_free_rstrip s : break_free s = true -> break_free (rstrip s) = true.
Proof.
  induction s as [|c r IH]; cbn; [trivial|].
  intros H. apply andb_true_iff in H as [Hc Hr]. specialize (IH Hr).
  destruct (rstrip r) as [|d r'].
  - destruct (isspace c); cbn; [reflexivity|]. now rewrite Hc.
  - cbn in IH |- *. now rewrite Hc, IH.
Qed.

Lemma lines_break_free text : Forall (fun l => break_free l = true) (lines text).
Proof.
  induction text as [|c rest IH]; cbn.
  - now constructor.
  - destruct (is_break c) eqn:Hc; [now constructor|].
    destruct (lines rest) as [|l ls]; [now repeat constructor; cbn; rewrite Hc|].
    apply Forall_cons in IH as [Hl Hls]. constructor; [|exact Hls].
    cbn. now rewrite Hc, Hl.
Qed.

Lemma clean_lines_well_formed ls :
  Forall (fun l => break_free l = true) ls ->
  Forall (fun id => well_formed id = true) (clean_lines ls).
Proof.
  unfold clean_lines. induction 1 as [|l ls Hl _ IH]; cbn; [constructor|].
  destruct (String.eqb_spec (strip l) "") as [|Hne]; cbn; [exact IH|].
  constructor; [|exact IH]. unfold well_formed.
  rewrite strip_idem, String.eqb_refl.
  destruct (String.eqb_spec (strip l) ""); [contradiction|]. cbn.
  unfold strip. now apply break_free_rstrip, break_free_lstrip.
Qed.

(** Whatever the file holds, the identifiers the loader returns are not
    empty, carry no surrounding whitespace and no line break, and are no
    more than the file has lines; a missing file gives no identifier. *)
Theorem loaded_ids_well_formed (f : file) ids :
  load_finansinspektionen_ids f = Some ids ->
  Forall (fun id => well_formed id = true) ids /\
  (f = Missing -> ids = []) /\
  (forall text, f = Content text -> (length ids <= length (lines text))%nat).
Proof.
  destruct f as [| |text]; cbn; [intros [= <-]|discriminate|intros [= <-]].
  - split; [constructor|]. split; [reflexivity|discriminate].
  - split; [apply clean_lines_well_formed, lines_break_free|].
    split; [discriminate|]. intros ? [= <-]. unfold clean_lines.
    etransitivity; [apply List.filter_length_le|]. now rewrite length_map.
Qed.

Lemma append_String c (s t : string) : (String c s ++ t)%string = String c (s ++ t).
Proof. reflexivity. Qed.

Lemma append_empty_r (s : string) : (s ++ "")%string = s.
Proof. induction s as [|c s IH]; [reflexivity|]. now rewrite append_String, IH. Qed.

Lemma lines_write_line i rest :
  break_free i = true ->
  lines (i ++ String "010"%char rest) = i :: lines rest.
Proof.
  induction i as [|c i IH]; [reflexivity|]. cbn [break_free].
  intros H. apply andb_true_iff in H as [Hc Hi].
  apply negb_true_iff in Hc. rewrite append_String. cbn [lines].
  rewrite Hc, (IH Hi). reflexivity.
Qed.

Lemma lines_write_lines ids :
  Forall (fun id => break_free id = true) ids ->
  lines (write_lines ids) = ids ++ [EmptyString].
Proof.
  induction 1 as [|i ids Hi _ IH]; cbn [write_lines]; [reflexivity|].
  rewrite lines_write_line by assumption. now rewrite IH.
Qed.

Lemma well_formed_unfold id :
  well_formed id = true -> id <> "" /\ strip id = id /\ break_free id = true.
Proof.
  unfold well_formed. rewrite !andb_true_iff, negb_true_iff.
  intros [[Hne Hs] Hb]. apply String.eqb_neq in Hne. apply String.eqb_eq in Hs. auto.
Qed.

Lemma rstrip_head s d r' : rstrip s = String d r' -> exists r, s = String d r.
Proof.
  destruct s as [|c r]; cbn; [discriminate|].
  destruct (rstrip r); [destruct (isspace c)|]; intros [= <-]; eauto.
Qed.

(** A stripped string that is not empty starts with a character that is
    not whitespace, and [rstrip] leaves it as it is. *)
Lemma stripped_head id :
  id <> "" -> strip id = id ->
  rstrip id = id /\ exists d r, id = String d r /\ isspace d = false.
Proof.
  intros Hne Hs. split.
  - rewrite <- Hs at 1. unfold strip. rewrite rstrip_idem. exact Hs.
  - destruct id as [|d r]; [contradiction|]. exists d, r. split; [reflexivity|].
    unfold strip in Hs. apply rstrip_head in Hs as [r0 Hl].
    pose proof (lstrip_head (String d r)) as Hh. now rewrite Hl in Hh.
Qed.

Lemma lstrip_blank_app pad s : blank pad = true -> lstrip (pad ++ s) = lstrip s.
Proof.
  induction pad as [|c pad IH]; [reflexivity|]. cbn [blank].
  rewrite !andb_true_iff. intros [[Hc _] H]. rewrite append_String. cbn [lstrip].
  rewrite Hc. auto.
Qed.

Lemma rstrip_blank pad : blank pad = true -> rstrip pad = "".
Proof.
  induction pad as [|c pad IH]; cbn; [reflexivity|].
  rewrite !andb_true_iff. intros [[Hc _] H]. now rewrite (IH H), Hc.
Qed.

Lemma rstrip_app_blank s pad : blank pad = true -> rstrip (s ++ pad) = rstrip s.
Proof.
  intros H. induction s as [|c s IH]; [now apply rstrip_blank|].
  rewrite append_String. cbn [rstrip]. now rewrite IH.
Qed.

Lemma break_free_app s1 s2 :
  break_free (s1 ++ s2) = break_free s1 && break_free s2.
Proof.
  induction s1 as [|c s1 IH]; [reflexivity|].
  rewrite append_String. cbn [break_free]. now rewrite IH, andb_assoc.
Qed.

Lemma blank_break_free pad : blank pad = true -> break_free pad = true.
Proof.
  induction pad as [|c pad IH]; cbn; [reflexivity|].
  rewrite !andb_true_iff. intros [[_ ->] H]. auto.
Qed.

Lemma strip_padded pad id :
  blank pad = true -> well_formed id = true ->
  strip pad = "" /\ strip (pad ++ id ++ pad) = id.
Proof.
  intros Hp Hid. apply well_formed_unfold in Hid as (Hne & Hs & _).
  destruct (stripped_head id Hne Hs) as [Hr (d & r & -> & Hd)].
  unfold strip. split.
  - rewrite <- (append_empty_r pad) at 1. now rewrite lstrip_blank_app.
  - rewrite lstrip_blank_app by assumption. rewrite append_String. cbn [lstrip].
    rewrite Hd, <- append_String. now rewrite rstrip_app_blank.
Qed.

(** A file that holds well-formed identifiers, one per line, loads to
    exactly these identifiers, in the order of the file; blank lines
    between them and whitespace around them change nothing. *)
Theorem load_ids_round_trip ids :
  Forall (fun id => well_formed id = true) ids ->
  load_finansinspektionen_ids (Content (write_lines ids)) = Some ids /\
  (forall pad, blank pad = true ->
     load_finansinspektionen_ids
       (Content (write_lines
                  (flat_map (fun id : string => [pad; (pad ++ id ++ pad)%string]) ids)))
     = Some ids).
Proof.
  intros Hids. split.
  - cbn. f_equal. rewrite lines_write_lines.
    2:{ eapply Forall_impl; [exact Hids|]. intros id H.
        now apply well_formed_unfold in H. }
    unfold clean_lines. induction Hids as [|id ids Hid _ IH]; [reflexivity|].
    apply well_formed_unfold in Hid as (Hne & Hs & _). cbn. rewrite Hs.
    destruct (String.eqb_spec id ""); [contradiction|]. cbn. f_equal. exact IH.
  - intros pad Hp. cbn. f_equal. rewrite lines_write_lines.
    2:{ induction Hids as [|id ids Hid _ IH]; cbn; [constructor|].
        apply well_formed_unfold in Hid as (_ & _ & Hb).
        pose proof (blank_break_free pad Hp) as Hpb.
        constructor; [assumption|]. constructor; [|exact IH].
        now rewrite !break_free_app, Hpb, Hb. }
    unfold clean_lines. induction Hids as [|id ids Hid _ IH]; [reflexivity|].
    destruct (strip_padded pad id Hp Hid) as [E1 E2].
    pose proof (well_formed_unfold id Hid) as (Hne & _ & _).
    cbn [flat_map app map]. rewrite E1, E2. cbn [List.filter String.eqb negb].
    destruct (String.eqb_spec id ""); [contradiction|]. cbn [negb]. f_equal. exact IH.
Qed.

End IdsFacts.

(** A file with padding, a blank line and a carriage return. *)
Lemma loaded_ids_well_formed_witness :
  Forall (fun id => Ids.well_formed id = true) IdsSamples.ids /\
  (length IdsSamples.ids <= length (Ids.lines IdsSamples.text))%nat.
Proof.
  assert (E : Ids.load_finansinspektionen_ids (Ids.Content IdsSamples.text)
              = Some IdsSamples.ids) by (vm_compute; reflexivity).
  destruct (loaded_ids_well_formed (Ids.Content IdsSamples.text) IdsSamples.ids E)
    as (Hwf & _ & Hlen).
  split; [exact Hwf|exact (Hlen IdsSamples.text eq_refl)].
Defined.

(** Two identifiers written one per line and read back. *)
Lemma load_ids_round_trip_witness :
  Ids.load_finansinspektionen_ids (Ids.Content (Ids.write_lines IdsSamples.ids))
  = Some IdsSamples.ids.
Proof.
  apply (load_ids_round_trip IdsSamples.ids). repeat constructor.
Defined.

(** ** The load step: prepared values, new rows and refusals *)

Section LoadMoreFacts.
Import Py Load.
Variable to_datetime : cell -> option Z.
Variable server_accepts : data_row -> bool.

Local Abbreviation prepare := (Load.prepare to_datetime).
Local Abbreviation prepare_all := (Load.prepare_all to_datetime).
Local Abbreviation statement_ok := (Load.statement_ok server_accepts).
Local Abbreviation execute_values := (Load.execute_values server_accepts).
Local Abbreviation bulk_upsert_companies :=
  (Load.bulk_upsert_companies to_datetime server_accepts).

(** What [safe_value] hands to the database: a missing value becomes
    [None] for every type asked for, the float [nan] is never passed on, a
    text is [None] or a string that is not empty and carries no surrounding
    whitespace, and a flag is [None] or a boolean. *)
Theorem safe_value_range (value : cell) :
  (isna value = true -> forall vt, safe_value value vt = CNone) /\
  (forall vt, safe_value value vt <> CNaN) /\
  (safe_value value vt_str = CNone \/
   exists s, safe_value value vt_str = CStr s /\ s <> "" /\ strip s = s) /\
  (safe_value value vt_bool = CNone \/
   exists b, safe_value value vt_bool = CBool b).
Proof.
  unfold safe_value.
  destruct (isna value || String.eqb (lower (str value)) "nan") eqn:E.
  - split; [reflexivity|]. split; [discriminate|]. split; now left.
  - apply orb_false_iff in E as [Hna _]. split; [congruence|]. split; [|split].
    + intros [| |].
      * destruct value; discriminate.
      * destruct (String.eqb _ ""); discriminate.
      * intros ->. discriminate Hna.
    + destruct (String.eqb_spec (strip (str value)) "") as [|Hne]; [now left|right].
      eexists. split; [reflexivity|]. split; [exact Hne|apply strip_idem].
    + right. destruct value; eauto.
Qed.

Lemma substring_prefix (n : nat) (s : string) :
  (n <= String.length s)%nat ->
  String.length (substring 0 n s) = n /\
  exists rest, s = (substring 0 n s ++ rest)%string.
Proof.
  revert s. induction n as [|n IH]; intros [|c s] H; cbn in H; try lia.
  - split; [reflexivity|]. exists ""%string. reflexivity.
  - split; [reflexivity|]. exists (String c s). reflexivity.
  - destruct (IH s) as [Hl [rest Hr]]; [lia|]. cbn [substring String.length].
    split; [now rewrite Hl|]. exists rest. rewrite append_String. now rewrite <- Hr.
Qed.

(** The registration date sent to the database is [None] or the first
    ten characters of the cell, and it is [None] only for a cell that is
    not a string of ten characters or more. *)
Theorem registration_date_prefix (v : cell) :
  match reg_date_of v with
  | CStr d =>
      exists s rest, v = CStr s /\ String.length d = 10%nat /\ s = (d ++ rest)%string
  | CNone => forall s, v = CStr s -> (String.length s < 10)%nat
  | _ => False
  end.
Proof.
  destruct v as [| |s|b|z]; unfold reg_date_of; try (intros ? [=]).
  destruct (Nat.leb_spec 10 (String.length s)) as [H|H].
  - destruct (substring_prefix 10 s H) as [Hl [rest Hr]].
    exists s, rest. repeat split; assumption.
  - intros ? [= <-]. exact H.
Qed.

Lemma first_with_key_None k df :
  first_with_key k df = None <-> k ∉ CorporateID_Clean <$> df.
Proof.
  unfold first_with_key. induction df as [|r df IH]; cbn.
  - split; [intros _; apply not_elem_of_nil|reflexivity].
  - rewrite not_elem_of_cons.
    destruct (String.eqb_spec (CorporateID_Clean r) k) as [Heq|Hne].
    + split; [discriminate|]. intros [Hk _]. congruence.
    + rewrite IH. split; [intros; split; congruence|tauto].
Qed.

Lemma first_with_key_Some k df r :
  first_with_key k df = Some r -> CorporateID_Clean r = k /\ r ∈ df.
Proof.
  unfold first_with_key. induction df as [|r' df IH]; cbn; [discriminate|].
  destruct (String.eqb_spec (CorporateID_Clean r') k) as [Heq|Hne].
  - intros [= <-]. split; [assumption|now left].
  - intros H. destruct (IH H). split; [assumption|now right].
Qed.

(** A successful load only adds rows: the keys of the table afterwards
    are those it had and those of the frame.  A key that the table lacked
    gets a row whose every column is the value prepared from the first row
    of the frame with that key, created and updated at the transaction's
    timestamp. *)
Theorem upsert_inserts_new_keys tx df db db' rep :
  bulk_upsert_companies tx df db = (db', Some rep) ->
  (forall k, is_Some (db' !! k) <->
             is_Some (db !! k) \/ k ∈ CorporateID_Clean <$> df) /\
  (size db <= size db')%nat /\
  (forall k r,
     db !! k = None -> first_with_key k df = Some r ->
     exists new,
       db' !! k = Some new /\
       corporate_id new = k /\
       name new = safe_value (organisation_name r) vt_str /\
       category new = safe_value (Category r) vt_str /\
       c_api_status new = safe_value (api_status r) vt_str /\
       c_is_active new = safe_value (is_active r) vt_bool /\
       c_is_deregistered new = safe_value (is_deregistered r) vt_bool /\
       c_registration_date new = reg_date_of (registration_date r) /\
       c_street_address new = safe_value (street_address r) vt_str /\
       c_city new = safe_value (city r) vt_str /\
       c_postal_code new = safe_value (postal_code r) vt_str /\
       c_country new = safe_value (country r) vt_str /\
       c_sni_code new = safe_value (sni_code r) vt_str /\
       c_sni_description new = safe_value (sni_description r) vt_str /\
       c_legal_form_code new = safe_value (legal_form_code r) vt_str /\
       c_legal_form_description new = safe_value (legal_form_description r) vt_str /\
       c_query_timestamp new
       = (if isna (query_timestamp r) then None
          else to_datetime (query_timestamp r)) /\
       created_at new = CURRENT_TIMESTAMP tx /\
       updated_at new = CURRENT_TIMESTAMP tx).
Proof.
  intros H.
  pose proof (fun k => bulk_upsert_companies_lookup _ _ _ _ _ _ _ k H) as L.
  assert (Hdom : forall k, is_Some (db' !! k) <->
                           is_Some (db !! k) \/ k ∈ CorporateID_Clean <$> df).
  { intros k. specialize (L k).
    destruct (first_with_key k df) as [r|] eqn:Hk.
    - destruct L as (n & d & _ & ->). split; [intros _; right|eauto].
      apply first_with_key_Some in Hk as [<- Hr]. now apply list_elem_of_fmap_2.
    - rewrite L. apply first_with_key_None in Hk. tauto. }
  split; [exact Hdom|]. split.
  - rewrite <- !size_dom. apply subseteq_size. intros k.
    rewrite !elem_of_dom, Hdom. tauto.
  - intros k r Hnew Hk. specialize (L k). rewrite Hk, Hnew in L.
    destruct L as (n & d & Hd & ->). eexists. split; [reflexivity|].
    apply first_with_key_Some in Hk as [Hkey _].
    unfold Load.prepare in Hd.
    destruct (isna (query_timestamp r)).
    + injection Hd as <-. cbn. repeat split; try reflexivity. exact Hkey.
    + destruct (to_datetime (query_timestamp r)) as [z|]; [|discriminate].
      injection Hd as <-. cbn. repeat split; try reflexivity. exact Hkey.
Qed.

Lemma py_slice_sublist {B : Type} (l : list B) a b :
  Orchestrator.py_slice l a b `sublist_of` l.
Proof.
  unfold Orchestrator.py_slice.
  etransitivity; [apply sublist_take|apply sublist_drop].
Qed.

Lemma paginate_sublist {B : Type} n (l page : list B) :
  page ∈ paginate n l -> page `sublist_of` l.
Proof.
  unfold paginate. intros Hp. apply list_elem_of_fmap in Hp as (i & -> & _).
  apply py_slice_sublist.
Qed.

(** With pairwise distinct keys the server takes the statements exactly
    when it takes every row. *)
Lemma forallb_statement_ok (nds : list (nat * data_row)) :
  NoDup ((fun nd => d_corporate_id nd.2) <$> nds) ->
  forallb statement_ok (paginate 1000 nds) = true <->
  Forall (fun nd => server_accepts nd.2 = true) nds.
Proof.
  intros Hnd. rewrite forallb_forall, Forall_forall. split.
  - intros Hok nd Hin.
    rewrite <- (concat_paginate 1000 nds) in Hin by lia.
    apply list_elem_of_In, in_concat in Hin as (page & Hpage & Hin).
    specialize (Hok page Hpage). unfold Load.statement_ok in Hok.
    apply andb_true_iff in Hok as [Hok _].
    rewrite forallb_forall in Hok. exact (Hok nd Hin).
  - intros Hall page Hpage. apply list_elem_of_In in Hpage.
    pose proof (paginate_sublist _ _ _ Hpage) as Hsub.
    unfold Load.statement_ok. apply andb_true_iff. split.
    + apply forallb_forall. intros nd Hin. apply Hall.
      eapply elem_of_sublist; [|exact Hsub]. now apply list_elem_of_In.
    + apply bool_decide_eq_true_2.
      apply (sublist_NoDup _ ((fun nd => d_corporate_id nd.2) <$> nds));
        [exact Hnd|now apply fmap_sublist].
Qed.

(** The load succeeds exactly when every row of the deduplicated frame
    can be prepared and the server takes each prepared row: after the
    deduplication no statement proposes a key twice.  A load that fails
    leaves the table as it was.  Without the deduplication two rows of one
    key in one statement are refused. *)
Theorem load_succeeds_iff tx df db :
  (is_Some (bulk_upsert_companies tx df db).2 <->
   exists rows, prepare_all (drop_duplicates df) = Some rows /\
                Forall (fun d => server_accepts d = true) rows) /\
  ((bulk_upsert_companies tx df db).2 = None ->
   (bulk_upsert_companies tx df db).1 = db) /\
  (forall d1 d2, d_corporate_id d1 = d_corporate_id d2 ->
                 execute_values tx [d1; d2] db = None).
Proof.
  split; [|split].
  - unfold Load.bulk_upsert_companies.
    destruct (prepare_all (drop_duplicates df)) as [rows|] eqn:Hprep.
    2:{ cbn. split; [intros [? [=]]|intros (? & [=] & _)]. }
    assert (Hlen : (length rows <= length (seq 0 (length rows)))%nat)
      by (rewrite length_seq; lia).
    assert (Hnd : NoDup ((fun nd => d_corporate_id nd.2)
                         <$> zip (seq 0 (length rows)) rows)).
    { pose proof (prepare_all_keys _ _ _ Hprep) as Hkeys.
      rewrite <- (snd_zip (seq 0 (length rows)) rows) in Hkeys by exact Hlen.
      rewrite <- list_fmap_compose in Hkeys. unfold compose in Hkeys.
      rewrite Hkeys. apply drop_duplicates_from_NoDup. }
    pose proof (forallb_statement_ok _ Hnd) as Hok.
    assert (Hrows : Forall (fun nd : nat * data_row => server_accepts nd.2 = true)
                      (zip (seq 0 (length rows)) rows)
                    <-> Forall (fun d => server_accepts d = true) rows).
    { rewrite <- (snd_zip (seq 0 (length rows)) rows) at 3 by exact Hlen.
      now rewrite Forall_fmap. }
    unfold Load.execute_values.
    destruct (forallb _ _) eqn:Hf; cbn.
    + split; [intros _|eauto]. exists rows. split; [reflexivity|].
      apply Hrows, Hok. reflexivity.
    + split; [intros [? [=]]|]. intros (rows' & [= <-] & Hall).
      apply Hrows, Hok in Hall. discriminate Hall.
  - unfold Load.bulk_upsert_companies.
    destruct (prepare_all _) as [rows|]; [|reflexivity].
    destruct (execute_values tx rows db); [discriminate|reflexivity].
  - intros d1 d2 Hkey. unfold Load.execute_values.
    change (paginate 1000 (zip (seq 0 (length [d1; d2])) [d1; d2]))
      with [[(0%nat, d1); (1%nat, d2)]].
    cbn [forallb]. unfold Load.statement_ok at 1. cbn [map snd].
    rewrite (bool_decide_eq_false_2 (NoDup _)).
    + now rewrite andb_false_r.
    + rewrite Hkey. intros Hnd. apply NoDup_cons in Hnd as [Hnd _].
      apply Hnd. now left.
Qed.

End LoadMoreFacts.

(** A first load into the empty table: the company is inserted with the
    prepared values and the timestamp of the transaction. *)
Lemma upsert_inserts_new_keys_witness :
  exists new,
    (Load.bulk_upsert_companies LoadSamples.to_datetime LoadSamples.server_accepts
       LoadSamples.first_run [LoadSamples.acme "5560001234"] ∅).1
      !! "5560001234" = Some new /\
    Load.corporate_id new = "5560001234" /\
    Load.name new = Py.CStr "Acme Kredit AB" /\
    Load.c_registration_date new = Py.CStr "1999-04-12" /\
    Load.created_at new = 1000 /\
    Load.updated_at new = 1000.
Proof.
  set (res := Load.bulk_upsert_companies LoadSamples.to_datetime
                LoadSamples.server_accepts LoadSamples.first_run
                [LoadSamples.acme "5560001234"] ∅).
  assert (E : res = (res.1, Some {| Load.processed := 1; Load.duplicates_removed := 0 |}))
    by (vm_compute; reflexivity).
  destruct (upsert_inserts_new_keys LoadSamples.to_datetime LoadSamples.server_accepts
              _ _ _ _ _ E) as (_ & _ & Hins).
  destruct (Hins "5560001234" (LoadSamples.acme "5560001234") eq_refl eq_refl)
    as (new & Hnew & Hid & Hname & _ & _ & _ & _ & Hdate & Hrest).
  exists new. split; [exact Hnew|]. split; [exact Hid|]. split; [exact Hname|].
  split; [exact Hdate|].
  destruct Hrest as (_ & _ & _ & _ & _ & _ & _ & _ & _ & Hc & Hu).
  split; [exact Hc|exact Hu].
Defined.

(** ** Reconciliation: the shape of the merged frame, and the progress line *)

Section ReconcileMoreFacts.
Import Py Frame Reconcile.
Variable to_numeric : cell -> numeric.

Local Abbreviation merge_body := (Reconcile.merge_body to_numeric).
Local Abbreviation merge_with_finansinspektionen_data :=
  (Reconcile.merge_with_finansinspektionen_data to_numeric).
Local Abbreviation secondary_rows := (Reconcile.secondary_rows to_numeric).

Lemma filter_key_at_most_one {B : Type} (f : B -> cell) (k : cell) (R : list B) :
  NoDup (f <$> R) -> (length (filter (fun r => f r = k) R) <= 1)%nat.
Proof.
  induction R as [|r R IH]; intros Hnd; [cbn; lia|].
  cbn in Hnd. apply NoDup_cons in Hnd as [Hfresh Hnd]. specialize (IH Hnd).
  rewrite filter_cons. destruct (decide (f r = k)) as [Hk|Hk]; [|exact IH].
  destruct (filter (fun r => f r = k) R) as [|r' rs] eqn:F; [cbn; lia|].
  exfalso. assert (Hin : r' ∈ filter (fun r => f r = k) R) by (rewrite F; now left).
  apply list_elem_of_filter in Hin as [Hk' Hin]. apply Hfresh.
  rewrite Hk, <- Hk'. now apply list_elem_of_fmap_2.
Qed.

Lemma left_join_rows_length lw rw li ri (L R : list (list cell)) :
  (length L <= length (left_join_rows lw rw li ri L R))%nat /\
  ((forall l, (length (filter (fun r => cell_at ri r = cell_at li l) R) <= 1)%nat) ->
   length (left_join_rows lw rw li ri L R) = length L).
Proof.
  unfold left_join_rows. induction L as [|l L [IH1 IH2]]; [now split|].
  cbn [flat_map]. rewrite length_app. cbn [length].
  destruct (filter _ R) as [|m ms] eqn:F.
  - cbn [length]. split; [lia|]. intros H. rewrite (IH2 H). lia.
  - rewrite length_map. cbn [length]. split; [lia|]. intros H.
    rewrite (IH2 H). specialize (H l). rewrite F in H. cbn in H. lia.
Qed.

Lemma left_join_rows_width lw rw li ri (L R : list (list cell)) :
  Forall (fun row => length row = (lw + rw)%nat) (left_join_rows lw rw li ri L R).
Proof.
  apply Forall_forall. intros row Hrow.
  apply elem_of_left_join_rows in Hrow as (l & _ & [[_ ->]|(r & _ & _ & ->)]);
    rewrite length_app, length_fit, ?length_fit, ?repeat_length; reflexivity.
Qed.

Lemma fetched_rows_keys ri bolagsverket_df :
  index_of "org_number" (columns bolagsverket_df) = Some ri ->
  cell_at ri <$> fetched_rows ri bolagsverket_df
  = (fun r => normalize_org_number (cell_at ri r)) <$> rows bolagsverket_df.
Proof.
  intros Hri. apply index_of_lt in Hri. unfold fetched_rows.
  rewrite <- list_fmap_compose. apply list_fmap_ext. intros _ r _. cbn.
  apply cell_at_insert. now rewrite length_fit.
Qed.

(** The merged frame is rectangular, as wide as the two frames together,
    and has a row for every row of the secondary frame; it has exactly as
    many rows when the normalised identifiers of the fetched frame are
    pairwise distinct.  The fetched frame that the step leaves behind has
    the columns and the number of rows it came with. *)
Theorem merged_frame_shape fi_df bolagsverket_df after merged_df :
  merge_body (Some fi_df) bolagsverket_df = (after, inr merged_df) ->
  Forall (fun row => length row = length (columns merged_df)) (rows merged_df) /\
  length (columns merged_df)
  = (length (columns fi_df) + length (columns bolagsverket_df))%nat /\
  (length (rows fi_df) <= length (rows merged_df))%nat /\
  (forall ri,
     index_of "org_number" (columns bolagsverket_df) = Some ri ->
     NoDup ((fun r => normalize_org_number (cell_at ri r)) <$> rows bolagsverket_df) ->
     length (rows merged_df) = length (rows fi_df)) /\
  columns after = columns bolagsverket_df /\
  length (rows after) = length (rows bolagsverket_df).
Proof.
  intros Hbody.
  destruct (merge_body_inr _ _ _ _ _ Hbody) as (li & ri & Hli & Hri & -> & -> & _).
  cbn [columns rows].
  assert (Hw : length (columns fi_df
                       ++ map (right_label (columns fi_df) "_bolagsverket")
                              (columns bolagsverket_df))
               = (length (columns fi_df) + length (columns bolagsverket_df))%nat)
    by (now rewrite length_app, length_map).
  assert (Hsec : length (secondary_rows li fi_df) = length (rows fi_df))
    by apply length_map.
  pose proof (left_join_rows_length (length (columns fi_df))
                (length (columns bolagsverket_df)) li ri
                (secondary_rows li fi_df) (fetched_rows ri bolagsverket_df))
    as [Hge Heq].
  split; [rewrite Hw; apply left_join_rows_width|].
  split; [exact Hw|]. split; [lia|]. split; [|split; [reflexivity|apply length_map]].
  intros ri' Hri' Hnd. rewrite Hri in Hri'. injection Hri' as <-.
  rewrite <- Hsec. apply Heq. intros l.
  apply (filter_key_at_most_one (cell_at ri)).
  now rewrite (fetched_rows_keys _ _ Hri).
Qed.





End ReconcileMoreFacts.

(** Two secondary companies, two fetched records with distinct
    identifiers: two merged rows of four cells. *)
Lemma merged_frame_shape_witness :
  let merged_df :=
    Reconcile.merge_with_finansinspektionen_data ReconcileSamples.to_numeric
      ReconcileSamples.fetched_two (Some ReconcileSamples.fi_two) in
  Forall (fun row => length row = 4%nat) (Frame.rows merged_df) /\
  length (Frame.rows merged_df) = 2%nat.
Proof.
  cbv zeta.
  set (body := Reconcile.merge_body ReconcileSamples.to_numeric
                 (Some ReconcileSamples.fi_two) ReconcileSamples.fetched_two).
  assert (E : body = (body.1,
                      inr (Reconcile.merge_with_finansinspektionen_data
                             ReconcileSamples.to_numeric ReconcileSamples.fetched_two
                             (Some ReconcileSamples.fi_two))))
    by (vm_compute; reflexivity).
  destruct (merged_frame_shape ReconcileSamples.to_numeric _ _ _ _ E)
    as (Hrect & _ & _ & Heq & _).
  split; [exact Hrect|].
  apply (Heq 0%nat eq_refl). vm_compute. repeat constructor.
  all: rewrite ?elem_of_cons, ?elem_of_nil; intros H; intuition discriminate.
Defined.

(** ** The token manager: progress and bounded work *)

Section TokenManagerMoreFacts.
Import TokenManager.

Ltac step_inv H :=
  match type of H with
  | step ?s ?e = Some _ =>
      unfold step in H; destruct e as [t|t|t [tok life|code]|d];
      repeat match type of H with
        | match ?x with _ => _ end = Some _ => destruct x eqn:?; try discriminate H
        | (if ?b then _ else _) = Some _ => destruct b eqn:?; try discriminate H
        end;
      injection H as <-
  end.

Lemma set_call_other t p s t' : t' <> t -> set_call t p s !! t' = calls s !! t'.
Proof. intros H. unfold set_call. now apply list_lookup_insert_ne. Qed.

Lemma step_lock_owner_in_block s e s' :
  lock_owner_in_block s -> step s e = Some s' -> lock_owner_in_block s'.
Proof.
  intros Hinv Hstep. step_inv Hstep; intros t' Hl; cbn in Hl |- *;
    try discriminate Hl.
  - injection Hl as <-. exists Checking. split; [|reflexivity].
    eapply set_call_same; eassumption.
  - destruct (Hinv t' Hl) as (q0 & Hq0 & Hin).
    destruct (decide (t' = t)) as [->|Hne].
    + exists Exchanging. split; [|reflexivity]. eapply set_call_same; eassumption.
    + exists q0. split; [|exact Hin]. now rewrite set_call_other.
  - exact (Hinv t' Hl).
Qed.

Lemma start_lock_owner_in_block tok expiry now n :
  lock_owner_in_block (start tok expiry now n).
Proof. intros t Hl. discriminate Hl. Qed.

Lemma not_all_done s :
  all_done s = false -> exists t p, calls s !! t = Some p /\ is_done p = false.
Proof.
  unfold all_done. induction (calls s) as [|p l IH]; cbn; [discriminate|].
  destruct (is_done p) eqn:Hp; cbn.
  - intros H. destruct (IH H) as (t & q & Hq & Hd). now exists (S t), q.
  - intros _. now exists 0%nat, p.
Qed.

Lemma all_done_lookup s t p :
  all_done s = true -> calls s !! t = Some p -> is_done p = true.
Proof.
  unfold all_done. rewrite forallb_forall. intros H Hp. apply H.
  apply list_elem_of_In. eapply list_elem_of_lookup_2, Hp.
Qed.

Lemma in_block_can_step s t p :
  calls s !! t = Some p -> in_block p = true ->
  exists e, is_tick e = false /\ is_Some (step s e).
Proof.
  intros Hp Hin. destruct p; try discriminate Hin.
  - exists (Check t). split; [reflexivity|]. cbn. rewrite Hp.
    destruct (cache_valid _ _ _); eauto.
  - exists (Respond t (Refused 0)). split; [reflexivity|]. cbn. rewrite Hp. eauto.
Qed.

(** No deadlock: in every interleaving of [n] calls, as long as a call has
    not come back some call can take a step, and once all calls have come
    back the lock is free and only time passes. *)
Theorem token_no_deadlock tok expiry now n events s :
  run (start tok expiry now n) events = Some s ->
  (all_done s = false -> exists e, is_tick e = false /\ is_Some (step s e)) /\
  (all_done s = true ->
   token_lock s = None /\
   forall e, is_Some (step s e) -> is_tick e = true).
Proof.
  intros Hrun.
  assert (Hown : lock_owner_in_block s).
  { eapply (run_invariant lock_owner_in_block step_lock_owner_in_block);
      [apply start_lock_owner_in_block|exact Hrun]. }
  split.
  - intros Hnd. apply not_all_done in Hnd as (t & p & Hp & Hd).
    destruct p; try discriminate Hd.
    + destruct (token_lock s) as [t'|] eqn:Hl.
      * destruct (Hown t' Hl) as (p' & Hp' & Hin).
        exact (in_block_can_step s t' p' Hp' Hin).
      * exists (Acquire t). split; [reflexivity|]. cbn. rewrite Hp, Hl. eauto.
    + exact (in_block_can_step s t Checking Hp eq_refl).
    + exact (in_block_can_step s t Exchanging Hp eq_refl).
  - intros Hd. split.
    + destruct (token_lock s) as [t|] eqn:Hl; [|reflexivity].
      destruct (Hown t Hl) as (p & Hp & Hin).
      pose proof (all_done_lookup s t p Hd Hp) as Hdone.
      destruct p; discriminate.
    + intros e [s' Hstep].
      destruct e as [t|t|t [tok' life|code]|d]; [| | | |reflexivity]; exfalso;
        cbn in Hstep;
        (destruct (calls s !! t) as [p|] eqn:Hp; [|discriminate Hstep]);
        pose proof (all_done_lookup s t p Hd Hp) as Hdone;
        destruct p; try discriminate Hdone; discriminate Hstep.
Qed.

Lemma sum_list_insert (f : pc -> nat) (l : list pc) t p q :
  l !! t = Some q ->
  (sum_list (map f (<[t := p]> l)) + f q = sum_list (map f l) + f p)%nat.
Proof.
  revert t. induction l as [|x l IH]; intros [|t] H; try discriminate H.
  - injection H as ->. cbn. lia.
  - specialize (IH t H).
    change (sum_list (map f (<[S t := p]> (x :: l))))
      with (f x + sum_list (map f (<[t := p]> l)))%nat.
    change (sum_list (map f (x :: l))) with (f x + sum_list (map f l))%nat.
    lia.
Qed.

Lemma sum_list_replicate (f : pc -> nat) n p :
  sum_list (map f (replicate n p)) = (n * f p)%nat.
Proof. induction n as [|n IH]; cbn; [reflexivity|]. now rewrite IH. Qed.

Lemma sum_list_bound (f : pc -> nat) (l : list pc) b :
  (forall p, f p <= b)%nat -> (sum_list (map f l) <= length l * b)%nat.
Proof.
  intros H. induction l as [|p l IH]; cbn; [lia|]. specialize (H p). lia.
Qed.

(** What one step does to the measures. *)
Lemma step_measures s e s' :
  step s e = Some s' ->
  length (calls s') = length (calls s) /\
  (total steps_left s' + (if is_tick e then 0 else 1) <= total steps_left s)%nat /\
  (requests s' + total before_check s' <= requests s + total before_check s)%nat.
Proof.
  intros Hstep. unfold total.
  step_inv Hstep; cbn [calls requests is_tick]; rewrite ?set_call_length;
    (split; [reflexivity|]); unfold set_call;
    try match goal with
        | Ht : calls s !! ?t0 = Some ?q |- _ =>
            pose proof (fun p => sum_list_insert steps_left (calls s) t0 p q Ht) as H1;
            pose proof (fun p => sum_list_insert before_check (calls s) t0 p q Ht) as H2
        end.
  - specialize (H1 Checking). specialize (H2 Checking). cbn in H1, H2. lia.
  - specialize (H1 (Returned (default "" (token s)))).
    specialize (H2 (Returned (default "" (token s)))). cbn in H1, H2. lia.
  - specialize (H1 Exchanging). specialize (H2 Exchanging). cbn in H1, H2. lia.
  - specialize (H1 (Returned tok)). specialize (H2 (Returned tok)).
    cbn in H1, H2. lia.
  - specialize (H1 Raised). specialize (H2 Raised). cbn in H1, H2. lia.
  - lia.
Qed.

Lemma run_measures events : forall s s',
  run s events = Some s' ->
  length (calls s') = length (calls s) /\
  (total steps_left s' + moves events <= total steps_left s)%nat /\
  (requests s' + total before_check s' <= requests s + total before_check s)%nat.
Proof.
  induction events as [|e rest IH]; intros s s'; cbn [run].
  - intros [= <-]. unfold moves. cbn. lia.
  - destruct (step s e) as [s1|] eqn:Hstep; [|discriminate]. intros Hrun.
    destruct (step_measures _ _ _ Hstep) as (L1 & W1 & R1).
    destruct (IH _ _ Hrun) as (L2 & W2 & R2).
    split; [congruence|]. split; [|lia].
    unfold moves in *. cbn [List.filter]. destruct (is_tick e); cbn [negb length]; lia.
Qed.

(** Bounded work: in every interleaving of [n] calls the calls take at
    most three steps each, send at most one exchange request each, and
    never grow or shrink in number.  With the absence of deadlock, every
    call comes back. *)
Theorem token_bounded_work tok expiry now n events s :
  run (start tok expiry now n) events = Some s ->
  length (calls s) = n /\
  (moves events <= 3 * n)%nat /\
  (requests s <= n)%nat /\
  (moves events = (3 * n)%nat -> all_done s = true).
Proof.
  intros Hrun. destruct (run_measures _ _ _ Hrun) as (L & W & R).
  unfold total in W, R. cbn [start calls requests] in L, W, R.
  rewrite length_replicate in L. rewrite !sum_list_replicate in W, R.
  cbn [steps_left before_check] in W, R.
  split; [exact L|]. split; [lia|]. split; [lia|].
  intros Hm. assert (Hz : sum_list (map steps_left (calls s)) = 0%nat) by lia.
  unfold all_done. clear -Hz. induction (calls s) as [|p l IH]; [reflexivity|].
  cbn in Hz |- *. destruct p; cbn in Hz; try lia; cbn; apply IH; lia.
Qed.

End TokenManagerMoreFacts.

(** Two calls, one granted exchange: at the end the lock is free and no
    call can take a step. *)
Lemma token_no_deadlock_witness :
  TokenManager.token_lock TokenSamples.after_granted_once = None /\
  forall e, is_Some (TokenManager.step TokenSamples.after_granted_once e) ->
            TokenManager.is_tick e = true.
Proof.
  assert (Hrun : TokenManager.run TokenSamples.two_calls TokenSamples.granted_once
                 = Some TokenSamples.after_granted_once) by (vm_compute; reflexivity).
  exact (proj2 (token_no_deadlock None None 1700000000 2 TokenSamples.granted_once
                  TokenSamples.after_granted_once Hrun) eq_refl).
Defined.

(** The same interleaving: two calls, five steps, at most two requests. *)
Lemma token_bounded_work_witness :
  length (TokenManager.calls TokenSamples.after_granted_once) = 2%nat /\
  (TokenManager.moves TokenSamples.granted_once <= 3 * 2)%nat /\
  (TokenManager.requests TokenSamples.after_granted_once <= 2)%nat /\
  (TokenManager.moves TokenSamples.granted_once = (3 * 2)%nat ->
   TokenManager.all_done TokenSamples.after_granted_once = true).
Proof.
  assert (Hrun : TokenManager.run TokenSamples.two_calls TokenSamples.granted_once
                 = Some TokenSamples.after_granted_once) by (vm_compute; reflexivity).
  exact (token_bounded_work None None 1700000000 2 TokenSamples.granted_once
           TokenSamples.after_granted_once Hrun).
Defined.
